(** * Factor tilt analyzer: minimum-variance weights, portfolio statistics
      and factor regression, embedded from the Python sources

    The Python code works on IEEE doubles through numpy and pandas.  The
    embedding replaces the doubles by exact real arithmetic extended with the
    three special values of the floating-point format ([PInf], [NInf],
    [NaN]); rounding, overflow and signed zeros are not modelled.  Library
    calls (pandas [cov], [mean], [std], [cumprod], [cummax], [min],
    [concat], [join], [@]; numpy [linalg.inv], [sqrt]; statsmodels OLS) are
    embedded by their documented meaning in exact arithmetic.  The one place
    where rounding decides the outcome of a call, the inversion of a matrix
    that has no inverse, is left open by a parameter. *)

From Stdlib Require Import Reals Lra Lia String Ascii ZArith Bool List.
From Stdlib Require Import ClassicalEpsilon.
Import ListNotations.

Open Scope R_scope.

(** ** Python exceptions and results *)

Inductive exn_class : Type :=
| TypeError
| ValueError
| RuntimeError
| LinAlgError
| OtherError.

(** An exception carries its class, its message and the exception that was
    being handled when it was raised (Python's implicit [__context__]). *)
#[warnings="-register-all"]
Inductive pyexn : Type :=
| Exn (cls : exn_class) (msg : string) (context : option pyexn).

Definition exn_cls (e : pyexn) : exn_class :=
  match e with Exn c _ _ => c end.

Definition exn_msg (e : pyexn) : string :=
  match e with Exn _ m _ => m end.

Definition exn_context (e : pyexn) : option pyexn :=
  match e with Exn _ _ c => c end.

Inductive result (A : Type) : Type :=
| Ok (a : A)
| Raise (e : pyexn).

Arguments Ok {A} a.
Arguments Raise {A} e.

Definition bind {A B : Type} (m : result A) (f : A -> result B) : result B :=
  match m with
  | Ok a => f a
  | Raise e => Raise e
  end.

Notation "x <- m ;; k" := (bind m (fun x => k))
  (at level 61, m at next level, right associativity).

(** ** Floating-point values over exact reals *)

Inductive pyfloat : Type :=
| Fin (r : R)
| PInf
| NInf
| NaN.

Definition isfinite (x : pyfloat) : bool :=
  match x with Fin _ => true | _ => false end.

Definition isnan (x : pyfloat) : bool :=
  match x with NaN => true | _ => false end.

Definition Reqb (a b : R) : bool := if Req_dec_T a b then true else false.
Definition Rltb (a b : R) : bool := if Rlt_dec a b then true else false.

(** [signed_inf pos r] is the infinity of sign [pos] multiplied by the sign
    of [r]; the product with zero is not a number. *)
Definition signed_inf (pos : bool) (r : R) : pyfloat :=
  if Rltb 0 r then (if pos then PInf else NInf)
  else if Rltb r 0 then (if pos then NInf else PInf)
  else NaN.

Definition fadd (x y : pyfloat) : pyfloat :=
  match x, y with
  | NaN, _ | _, NaN => NaN
  | Fin a, Fin b => Fin (a + b)
  | PInf, NInf | NInf, PInf => NaN
  | PInf, _ | _, PInf => PInf
  | NInf, _ | _, NInf => NInf
  end.

Definition fneg (x : pyfloat) : pyfloat :=
  match x with
  | Fin a => Fin (- a)
  | PInf => NInf
  | NInf => PInf
  | NaN => NaN
  end.

Definition fsub (x y : pyfloat) : pyfloat := fadd x (fneg y).

Definition fmul (x y : pyfloat) : pyfloat :=
  match x, y with
  | NaN, _ | _, NaN => NaN
  | Fin a, Fin b => Fin (a * b)
  | PInf, Fin b | Fin b, PInf => signed_inf true b
  | NInf, Fin b | Fin b, NInf => signed_inf false b
  | PInf, PInf | NInf, NInf => PInf
  | PInf, NInf | NInf, PInf => NInf
  end.

(** numpy division: a finite value divided by zero is an infinity of the
    sign of the numerator, zero by zero is not a number (no exception). *)
Definition fdiv (x y : pyfloat) : pyfloat :=
  match x, y with
  | NaN, _ | _, NaN => NaN
  | Fin a, Fin b => if Reqb b 0 then signed_inf true a else Fin (a / b)
  | Fin _, PInf | Fin _, NInf => Fin 0
  | PInf, Fin b => if Rltb b 0 then NInf else PInf
  | NInf, Fin b => if Rltb b 0 then PInf else NInf
  | PInf, _ | NInf, _ => NaN
  end.

Definition fsqrt (x : pyfloat) : pyfloat :=
  match x with
  | Fin a => if Rltb a 0 then NaN else Fin (sqrt a)
  | PInf => PInf
  | NInf => NaN
  | NaN => NaN
  end.

(** Python [x == y] and [x < y] on floats; every comparison with a
    not-a-number is false. *)
Definition feqb (x y : pyfloat) : bool :=
  match x, y with
  | Fin a, Fin b => Reqb a b
  | PInf, PInf | NInf, NInf => true
  | _, _ => false
  end.

Definition fltb (x y : pyfloat) : bool :=
  match x, y with
  | NaN, _ | _, NaN => false
  | Fin a, Fin b => Rltb a b
  | NInf, NInf => false
  | NInf, _ => true
  | PInf, _ => false
  | Fin _, PInf => true
  | Fin _, NInf => false
  end.

Definition fgtb (x y : pyfloat) : bool := fltb y x.

Definition fmax (x y : pyfloat) : pyfloat := if fltb x y then y else x.
Definition fmin (x y : pyfloat) : pyfloat := if fltb y x then y else x.

Definition fsum (l : list pyfloat) : pyfloat := fold_left fadd l (Fin 0).

(** ** pandas axis labels, Series and DataFrame *)

Inductive label : Type :=
| Date (ns : Z)
| IntLabel (i : Z)
| Str (s : string).

Definition label_eqb (a b : label) : bool :=
  match a, b with
  | Date x, Date y => Z.eqb x y
  | IntLabel x, IntLabel y => Z.eqb x y
  | Str x, Str y => String.eqb x y
  | _, _ => false
  end.

Definition is_date (a : label) : bool :=
  match a with Date _ => true | _ => false end.

Definition label_mem (a : label) (l : list label) : bool :=
  existsb (label_eqb a) l.

Fixpoint index_equals (l1 l2 : list label) : bool :=
  match l1, l2 with
  | [], [] => true
  | a :: t1, b :: t2 => label_eqb a b && index_equals t1 t2
  | _, _ => false
  end.

(** [Index.intersection] and [Index.union]; the labels of one axis are
    taken to be distinct, as the date index and the asset columns are. *)
Definition index_intersection (l1 l2 : list label) : list label :=
  filter (fun a => label_mem a l2) l1.

Definition index_union (l1 l2 : list label) : list label :=
  l1 ++ filter (fun a => negb (label_mem a l1)) l2.

(** [index.dtype == "datetime64[ns]"] *)
Definition is_datetime_index (l : list label) : bool := forallb is_date l.

(** A Series is its labelled values in order. *)
Definition Series : Type := list (label * pyfloat).

Definition s_index (s : Series) : list label := map fst s.
Definition s_values (s : Series) : list pyfloat := map snd s.

(** Label lookup as [reindex] does it: a missing label gives NaN. *)
Fixpoint s_get (s : Series) (a : label) : pyfloat :=
  match s with
  | [] => NaN
  | (b, v) :: t => if label_eqb a b then v else s_get t a
  end.

(** A DataFrame of returns: row labels, column labels and the cells, a cell
    being a real or missing ([None], pandas' NaN). *)
Record DataFrame : Type := mkDataFrame {
  df_index : list label;
  df_columns : list label;
  df_values : nat -> nat -> option R
}.

Definition shape0 (df : DataFrame) : nat := length (df_index df).
Definition shape1 (df : DataFrame) : nat := length (df_columns df).

Definition df_empty (df : DataFrame) : bool :=
  Nat.eqb (shape0 df) 0 || Nat.eqb (shape1 df) 0.

Definition cell_isnull (c : option R) : bool :=
  match c with None => true | Some _ => false end.

(** [df.isnull().values.any()] *)
Definition df_isnull_any (df : DataFrame) : bool :=
  existsb (fun i => existsb (fun j => cell_isnull (df_values df i j))
                      (seq 0 (shape1 df)))
          (seq 0 (shape0 df)).

Definition cell_real (df : DataFrame) (i j : nat) : R :=
  match df_values df i j with Some r => r | None => 0 end.

Definition cell_float (df : DataFrame) (i j : nat) : pyfloat :=
  match df_values df i j with Some r => Fin r | None => NaN end.

(** Builds the cells of a DataFrame from the list of its rows. *)
Definition cells_of_rows (rows : list (list R)) (i j : nat) : option R :=
  nth_error (nth i rows []) j.

(** ** Finite sums and square matrices over the reals *)

Fixpoint sumR (n : nat) (f : nat -> R) : R :=
  match n with
  | O => 0
  | S m => sumR m f + f m
  end.

Definition matrix : Type := nat -> nat -> R.
Definition vector : Type := nat -> R.

Definition mat_mul (k : nat) (A B : matrix) : matrix :=
  fun i j => sumR k (fun l => A i l * B l j).

Definition mat_vec (k : nat) (A : matrix) (v : vector) : vector :=
  fun i => sumR k (fun j => A i j * v j).

Definition vec_mat (k : nat) (v : vector) (A : matrix) : vector :=
  fun j => sumR k (fun i => v i * A i j).

Definition dot (k : nat) (u v : vector) : R :=
  sumR k (fun i => u i * v i).

Definition identity : matrix := fun i j => if Nat.eqb i j then 1 else 0.

Definition is_inverse (k : nat) (A B : matrix) : Prop :=
  forall i j, (i < k)%nat -> (j < k)%nat ->
    mat_mul k A B i j = identity i j /\ mat_mul k B A i j = identity i j.

Definition invertible (k : nat) (A : matrix) : Prop :=
  exists B, is_inverse k A B.

(** What LAPACK's factorisation does with a matrix that has no inverse.
    In floating point such a matrix is reported only when a pivot comes out
    exactly zero ([None], which numpy turns into LinAlgError); otherwise the
    routine returns a matrix, whose entries are the product of rounding and
    are left open here. *)
Definition lapack_on_singular : Type := nat -> matrix -> option matrix.

(** [np.linalg.inv]: on a matrix that has an inverse, the inverse (exact
    arithmetic); on a singular matrix, what the factorisation does. *)
Definition linalg_inv (lapack : lapack_on_singular) (k : nat) (A : matrix)
    : result matrix :=
  match excluded_middle_informative (invertible k A) with
  | left H => Ok (proj1_sig (constructive_indefinite_description _ H))
  | right _ =>
      match lapack k A with
      | None => Raise (Exn LinAlgError "Singular matrix" None)
      | Some B => Ok B
      end
  end.

(** ** analysis/minimum_variance_portfolio.py *)

Module MinimumVariancePortfolio.

(** [DataFrame.cov()]: column means and the unbiased (n - 1) estimator. *)
Definition col_mean (df : DataFrame) (j : nat) : R :=
  sumR (shape0 df) (fun i => cell_real df i j) / INR (shape0 df).

Definition df_cov (df : DataFrame) : matrix :=
  fun j l =>
    sumR (shape0 df)
         (fun i => (cell_real df i j - col_mean df j)
                   * (cell_real df i l - col_mean df l))
    / INR (shape0 df - 1).

Definition ones : vector := fun _ => 1.

Definition calculate_mvp_weights (lapack : lapack_on_singular)
    (returns_df : DataFrame) : result Series :=
  if df_empty returns_df then
    Raise (Exn ValueError "Input DataFrame cannot be empty." None)
  else if df_isnull_any returns_df then
    Raise (Exn ValueError
      "Input DataFrame contains NaN values. Please handle missing data before proceeding."
      None)
  else if Nat.ltb (shape1 returns_df) 2 then
    Raise (Exn ValueError
      "At least two assets are required to compute the minimum variance portfolio."
      None)
  else if Nat.leb (shape0 returns_df) (shape1 returns_df) then
    Raise (Exn ValueError
      "Number of observations must exceed the number of assets to ensure covariance matrix invertibility."
      None)
  else
    let cov := df_cov returns_df in
    let k := shape1 returns_df in
    match linalg_inv lapack k cov with
    | Raise e =>
        Raise (Exn ValueError
          "Covariance matrix is singular and cannot be inverted. Try removing collinear or redundant assets."
          (Some e))
    | Ok inv_cov =>
        let weights := mat_vec k inv_cov ones in
        let denom := dot k (vec_mat k ones inv_cov) ones in
        let weights := map (fun i => fdiv (Fin (weights i)) (Fin denom)) (seq 0 k) in
        Ok (combine (df_columns returns_df) weights)
    end.

(** Position of a column label. *)
Fixpoint col_pos (cols : list label) (a : label) : option nat :=
  match cols with
  | [] => None
  | b :: t => if label_eqb a b then Some O
              else option_map S (col_pos t a)
  end.

Definition df_get (df : DataFrame) (i : nat) (a : label) : pyfloat :=
  match col_pos (df_columns df) a with
  | Some j => cell_float df i j
  | None => NaN
  end.

(** [DataFrame @ Series]: both sides are reindexed on the union of the
    columns and the series' index, which must add no label to either; the
    result keeps the rows' index. *)
Definition df_dot (df : DataFrame) (other : Series) : result Series :=
  let common := index_union (df_columns df) (s_index other) in
  if Nat.ltb (length (df_columns df)) (length common)
     || Nat.ltb (length (s_index other)) (length common) then
    Raise (Exn ValueError "matrices are not aligned" None)
  else
    Ok (combine (df_index df)
          (map (fun i => fsum (map (fun a => fmul (df_get df i a) (s_get other a))
                                   common))
               (seq 0 (shape0 df)))).

(** calculate_mvp_portfolio, with the matrix product as a parameter. *)
Definition calculate_mvp_portfolio_with (lapack : lapack_on_singular)
    (matmul : DataFrame -> Series -> result Series)
    (returns_df : DataFrame) : result Series :=
  if df_empty returns_df then
    Raise (Exn ValueError "Input DataFrame cannot be empty." None)
  else if df_isnull_any returns_df then
    Raise (Exn ValueError
      "Input DataFrame contains NaN values. Please handle missing data first."
      None)
  else
    mvp_weights <- calculate_mvp_weights lapack returns_df ;;
    portfolio_returns <- matmul returns_df mvp_weights ;;
    if negb (index_equals (df_index returns_df) (s_index portfolio_returns)) then
      Raise (Exn ValueError
        "Mismatch in index between input data and calculated portfolio returns."
        None)
    else Ok portfolio_returns.

Definition calculate_mvp_portfolio (lapack : lapack_on_singular)
    (returns_df : DataFrame) : result Series :=
  calculate_mvp_portfolio_with lapack df_dot returns_df.

End MinimumVariancePortfolio.

(** ** analysis/portfolio_statistics.py *)

Definition ascii_lower (c : ascii) : ascii :=
  let n := nat_of_ascii c in
  if Nat.leb 65 n && Nat.leb n 90 then ascii_of_nat (n + 32) else c.

(** [str.lower()] on ASCII text. *)
Fixpoint str_lower (s : string) : string :=
  match s with
  | EmptyString => EmptyString
  | String c t => String (ascii_lower c) (str_lower t)
  end.

Fixpoint dict_get {V : Type} (d : list (string * V)) (key : string) : option V :=
  match d with
  | [] => None
  | (k, v) :: t => if String.eqb key k then Some v else dict_get t key
  end.

(** pandas reductions and cumulative operations on the values of a Series. *)
Definition series_mean (vs : list pyfloat) : pyfloat :=
  fdiv (fsum vs) (Fin (INR (length vs))).

(** [Series.std()], ddof = 1: not a number unless there are at least two
    observations. *)
Definition series_std (vs : list pyfloat) : pyfloat :=
  let n := length vs in
  if Nat.leb n 1 then NaN
  else
    let avg := series_mean vs in
    fsqrt (fdiv (fsum (map (fun x => fmul (fsub avg x) (fsub avg x)) vs))
                (Fin (INR n - 1))).

(** Cumulative operations skip missing values: the position stays NaN and
    the running value is unchanged. *)
Fixpoint cum_skipna (op : pyfloat -> pyfloat -> pyfloat) (acc : pyfloat)
    (l : list pyfloat) : list pyfloat :=
  match l with
  | [] => []
  | x :: t =>
      if isnan x then NaN :: cum_skipna op acc t
      else let acc' := op acc x in acc' :: cum_skipna op acc' t
  end.

Definition cumprod (l : list pyfloat) : list pyfloat := cum_skipna fmul (Fin 1) l.
Definition cummax (l : list pyfloat) : list pyfloat := cum_skipna fmax NInf l.

(** [Series.min()], skipping missing values. *)
Definition series_min (l : list pyfloat) : pyfloat :=
  match filter (fun x => negb (isnan x)) l with
  | [] => NaN
  | x :: t => fold_left fmin t x
  end.

Module PortfolioStatistics.

Definition valid_interval_factors : list (string * Z) :=
  [("daily"%string, 252%Z); ("monthly"%string, 12%Z); ("yearly"%string, 1%Z)].

Record Stats : Type := mkStats {
  mean_return : pyfloat;
  annualized_return : pyfloat;
  std_dev : pyfloat;
  annualized_volatility : pyfloat;
  sharpe_ratio : pyfloat;
  cumulative_return : pyfloat;
  max_drawdown : pyfloat
}.

Definition calculate_portfolio_statistics (portfolio_returns : Series)
    (interval : string) : result Stats :=
  if Nat.eqb (length portfolio_returns) 0 then
    Raise (Exn ValueError "Portfolio return series cannot be empty." None)
  else if negb (forallb isfinite (s_values portfolio_returns)) then
    Raise (Exn ValueError "Portfolio return series contains NaN or infinite values." None)
  else
    let interval := str_lower interval in
    match dict_get valid_interval_factors interval with
    | None =>
        Raise (Exn ValueError
          "Invalid interval factor. Must be one of: daily, monthly, yearly." None)
    | Some interval_factor =>
        let vs := s_values portfolio_returns in
        let mean_return := series_mean vs in
        let annualized_return := fmul mean_return (Fin (IZR interval_factor)) in
        let std_dev := series_std vs in
        let annualized_volatility :=
          fmul std_dev (fsqrt (Fin (IZR interval_factor))) in
        let sharpe_ratio :=
          if feqb annualized_volatility (Fin 0) then NaN
          else fdiv annualized_return annualized_volatility in
        let cumulative_return := cumprod (map (fadd (Fin 1)) vs) in
        let cum_return := fsub (last cumulative_return NaN) (Fin 1) in
        let rolling_max := cummax cumulative_return in
        let drawdown :=
          map (fun cm => fsub (fdiv (fst cm) (snd cm)) (Fin 1))
              (combine cumulative_return rolling_max) in
        let max_drawdown := series_min drawdown in
        Ok {| mean_return := mean_return;
              annualized_return := annualized_return;
              std_dev := std_dev;
              annualized_volatility := annualized_volatility;
              sharpe_ratio := sharpe_ratio;
              cumulative_return := cum_return;
              max_drawdown := max_drawdown |}
    end.

(** What reaches the console: one block per call of
    print_portfolio_statistics, with the name and the record it formats. *)
Inductive console_event : Type :=
| Printed (portfolio_name : string) (portfolio_stats : Stats).

(** The record comes typed with its seven numeric fields, so the checks on
    types and keys pass. *)
Definition print_portfolio_statistics (portfolio_stats : Stats)
    (portfolio_name : string) : result (list console_event) :=
  Ok [Printed portfolio_name portfolio_stats].

Definition compare_portfolio_with_market_benchmark
    (portfolio_returns mkt_returns : Series) (interval : string)
    : result (list console_event) :=
  if Nat.eqb (length portfolio_returns) 0 || Nat.eqb (length mkt_returns) 0 then
    Raise (Exn ValueError "Return series cannot be empty." None)
  else if negb (forallb isfinite (s_values portfolio_returns)) then
    Raise (Exn ValueError "Portfolio return series contains NaN or infinite values." None)
  else if negb (forallb isfinite (s_values mkt_returns)) then
    Raise (Exn ValueError "Market return series contains NaN or infinite values." None)
  else if Nat.eqb (length (index_intersection (s_index portfolio_returns)
                                             (s_index mkt_returns))) 0 then
    Raise (Exn ValueError
      "Portfolio and market return series must share overlapping dates." None)
  else
    let interval := str_lower interval in
    match dict_get valid_interval_factors interval with
    | None =>
        Raise (Exn ValueError
          "Invalid interval. Must be 'daily', 'monthly', or 'yearly'." None)
    | Some _ =>
        portfolio_stats <- calculate_portfolio_statistics portfolio_returns interval ;;
        mkt_stats <- calculate_portfolio_statistics mkt_returns interval ;;
        out1 <- print_portfolio_statistics portfolio_stats "Minimum Variance Portfolio" ;;
        out2 <- print_portfolio_statistics mkt_stats "Market Benchmark" ;;
        Ok (out1 ++ out2)
    end.

End PortfolioStatistics.

(** ** analysis/portfolio_analyzer.py *)

Module PortfolioAnalyzer.

(** One row of the factor table. *)
Record FactorRow : Type := mkFactorRow {
  Mom : pyfloat;
  Mkt_rf : pyfloat;
  SMB : pyfloat;
  HML : pyfloat;
  Rf : pyfloat
}.

Definition FactorTable : Type := list (label * FactorRow).

(** A row of [final_df]: the two scaled returns and the factors of a date. *)
Record FinalRow : Type := mkFinalRow {
  row_date : label;
  Portfolio : pyfloat;
  MKT : pyfloat;
  factors : FactorRow
}.

(** The regressors of one observation: Mkt_rf, SMB, HML, Mom. *)
Definition regressors : Type := (pyfloat * pyfloat * pyfloat * pyfloat)%type.

(** Calls that leave the function: reading the factor files, fitting the
    OLS model, logging its summary. *)
Inductive extern_call : Type :=
| ReadFactorData
| FitOLS (X : list regressors) (y : list pyfloat)
| LogSummary.

(** [pd.concat([portfolio, mkt], axis=1)]: outer join on the index. *)
Definition concat_axis1 (p m : Series) : list (label * (pyfloat * pyfloat)) :=
  map (fun d => (d, (s_get p d, s_get m d)))
      (index_union (s_index p) (s_index m)).

(** [joined_returns.join(combined_factors_df, how="inner")] *)
Definition join_inner (joined : list (label * (pyfloat * pyfloat)))
    (table : FactorTable) : list FinalRow :=
  flat_map (fun r =>
              map (fun f => mkFinalRow (fst r) (fst (snd r)) (snd (snd r)) (snd f))
                  (filter (fun f => label_eqb (fst r) (fst f)) table))
           joined.

Section Regression.

(** The outcome of create_factor_dataset() (it reads two CSV files) and the
    statsmodels fit of [y] on a constant and the four regressors, returning
    the named parameters or the exception raised. *)
Variable create_factor_dataset : result FactorTable.
Variable ols_fit : list regressors -> list pyfloat -> result Series.

Definition factor_analysis_regression (portfolio_returns mkt_returns : Series)
    (log : bool) : list extern_call * result Series :=
  if Nat.eqb (length portfolio_returns) 0 || Nat.eqb (length mkt_returns) 0 then
    ([], Raise (Exn ValueError "Both input series must be non-empty." None))
  else if negb (is_datetime_index (s_index portfolio_returns))
          || negb (is_datetime_index (s_index mkt_returns)) then
    ([], Raise (Exn TypeError "Both series must have a datetime index." None))
  else if Nat.eqb (length (index_intersection (s_index portfolio_returns)
                                             (s_index mkt_returns))) 0 then
    ([], Raise (Exn ValueError "The input series must have overlapping dates." None))
  else
    let joined_returns := concat_axis1 portfolio_returns mkt_returns in
    if existsb (fun r => isnan (fst (snd r)) || isnan (snd (snd r))) joined_returns then
      ([], Raise (Exn ValueError
             "Input return series contain missing values. Please clean the data first."
             None))
    else
      let joined_returns :=
        map (fun r => (fst r, (fmul (fst (snd r)) (Fin 100),
                               fmul (snd (snd r)) (Fin 100))))
            joined_returns in
      match create_factor_dataset with
      | Raise e => ([ReadFactorData], Raise e)
      | Ok combined_factors_df =>
          let final_df := join_inner joined_returns combined_factors_df in
          if Nat.ltb (length final_df) 5 then
            ([ReadFactorData],
             Raise (Exn ValueError
                      "Not enough overlapping data points to run regression." None))
          else
            let X := map (fun r => (Mkt_rf (factors r), SMB (factors r),
                                    HML (factors r), Mom (factors r))) final_df in
            let y := map (fun r => fsub (Portfolio r) (Rf (factors r))) final_df in
            match ols_fit X y with
            | Raise e =>
                ([ReadFactorData; FitOLS X y],
                 Raise (Exn RuntimeError
                          ("Failed to fit OLS regression model: " ++ exn_msg e)
                          (Some e)))
            | Ok params =>
                ([ReadFactorData; FitOLS X y] ++ (if log then [LogSummary] else []),
                 Ok (filter (fun kv => negb (label_eqb (fst kv) (Str "const"))) params))
            end
      end.

End Regression.

(** The argument of interpret_exposure as Python passes it. *)
Inductive pyvalue : Type :=
| PyFloat (x : pyfloat)
| PyInt (i : Z)
| PyStr (s : string).

(** interpret_exposure.  The thresholds are compared as reals, which agrees
    with the comparison of doubles on every double. *)
Definition interpret_exposure (val : pyvalue) : result string :=
  match val with
  | PyFloat val =>
      if fgtb val (Fin (6 / 10)) then Ok "Strong exposure ↑"%string
      else if fgtb val (Fin (3 / 10)) then Ok "Mild exposure ↑"%string
      else if fgtb val (Fin (1 / 10)) then Ok "Slight exposure ↑"%string
      else if fltb val (Fin (- (6 / 10))) then Ok "Strong exposure ↓"%string
      else if fltb val (Fin (- (3 / 10))) then Ok "Mild exposure ↓"%string
      else if fltb val (Fin (- (1 / 10))) then Ok "Slight exposure ↓"%string
      else Ok "Neutral exposure"%string
  | _ => Raise (Exn TypeError "Input value must be floating point number." None)
  end.

End PortfolioAnalyzer.

(** ** Vocabulary of the specification *)

Import MinimumVariancePortfolio PortfolioStatistics PortfolioAnalyzer.

(** The Optimizer's preconditions: non-empty, no missing value, at least two
    asset columns, strictly more observation rows than columns. *)
Definition optimizer_preconditions (df : DataFrame) : Prop :=
  df_empty df = false /\
  df_isnull_any df = false /\
  (2 <= shape1 df)%nat /\
  (shape1 df < shape0 df)%nat.

(** The Gram matrix X'X / c of an n-row matrix [X]; the sample covariance
    matrix is the Gram matrix of the centred observations with c = n - 1. *)
Definition gram (n : nat) (X : nat -> nat -> R) (c : R) : matrix :=
  fun j l => sumR n (fun i => X i j * X i l) / c.

Definition centred (df : DataFrame) : nat -> nat -> R :=
  fun i j => cell_real df i j - col_mean df j.

(** The closed form w = S^-1 1 / (1' S^-1 1), for an inverse [Sinv] of the
    covariance matrix. *)
Definition mvp_closed_form (k : nat) (Sinv : matrix) (j : nat) : R :=
  mat_vec k Sinv ones j / dot k ones (mat_vec k Sinv ones).

Definition singular_matrix_error : pyexn :=
  Exn ValueError
    "Covariance matrix is singular and cannot be inverted. Try removing collinear or redundant assets."
    (Some (Exn LinAlgError "Singular matrix" None)).

Definition too_few_rows_error : pyexn :=
  Exn ValueError
    "Number of observations must exceed the number of assets to ensure covariance matrix invertibility."
    None.

Definition index_mismatch_error : pyexn :=
  Exn ValueError
    "Mismatch in index between input data and calculated portfolio returns."
    None.

Definition not_enough_rows_error : pyexn :=
  Exn ValueError "Not enough overlapping data points to run regression." None.

Definition no_overlap_error : pyexn :=
  Exn ValueError
    "Portfolio and market return series must share overlapping dates." None.

(** The Statistics Engine's preconditions. *)
Definition recognized_frequency (interval : string) : Prop :=
  In (str_lower interval) ["daily"%string; "monthly"%string; "yearly"%string].

Definition statistics_preconditions (s : Series) (interval : string) : Prop :=
  s <> [] /\ forallb isfinite (s_values s) = true /\ recognized_frequency interval.

(** The seven bands of the exposure labels, as intervals. *)
Inductive exposure_band : R -> string -> Prop :=
| band_strong_up r : 6 / 10 < r -> exposure_band r "Strong exposure ↑"
| band_mild_up r : 3 / 10 < r <= 6 / 10 -> exposure_band r "Mild exposure ↑"
| band_slight_up r : 1 / 10 < r <= 3 / 10 -> exposure_band r "Slight exposure ↑"
| band_strong_down r : r < - (6 / 10) -> exposure_band r "Strong exposure ↓"
| band_mild_down r :
    - (6 / 10) <= r < - (3 / 10) -> exposure_band r "Mild exposure ↓"
| band_slight_down r :
    - (3 / 10) <= r < - (1 / 10) -> exposure_band r "Slight exposure ↓"
| band_neutral r : - (1 / 10) <= r <= 1 / 10 -> exposure_band r "Neutral exposure".

(** The checks of factor_analysis_regression that precede the join with the
    factor table, and the joined table its row count is taken from. *)
Definition regression_inputs_pass (p m : Series) : Prop :=
  p <> [] /\ m <> [] /\
  is_datetime_index (s_index p) = true /\
  is_datetime_index (s_index m) = true /\
  index_intersection (s_index p) (s_index m) <> [] /\
  existsb (fun r => isnan (fst (snd r)) || isnan (snd (snd r)))
          (concat_axis1 p m) = false.

Definition regression_final_df (p m : Series) (table : FactorTable)
    : list FinalRow :=
  join_inner
    (map (fun r => (fst r, (fmul (fst (snd r)) (Fin 100),
                            fmul (snd (snd r)) (Fin 100))))
         (concat_axis1 p m))
    table.

Definition design_of (final_df : list FinalRow) : list regressors :=
  map (fun r => (Mkt_rf (factors r), SMB (factors r),
                 HML (factors r), Mom (factors r))) final_df.

Definition response_of (final_df : list FinalRow) : list pyfloat :=
  map (fun r => fsub (Portfolio r) (Rf (factors r))) final_df.

(** A series restricted to a set of dates. *)
Definition restrict_to (common : list label) (s : Series) : Series :=
  filter (fun kv => label_mem (fst kv) common) s.

(** ** Sample inputs *)

(** Three observations of two assets. *)
Definition sample_df : DataFrame :=
  mkDataFrame [Date 1; Date 2; Date 3] [Str "AAPL"; Str "GOOG"]
              (cells_of_rows [[1; 0]; [0; 1]; [0; 0]]).

Definition sample_inverse : matrix :=
  fun i j =>
    match i, j with
    | O, O => 4
    | O, S O => 2
    | S O, O => 2
    | S O, S O => 4
    | _, _ => 0
    end.

(** Two observations of two assets: as many rows as columns. *)
Definition square_df : DataFrame :=
  mkDataFrame [Date 1; Date 2] [Str "AAPL"; Str "GOOG"]
              (cells_of_rows [[1; 0]; [0; 1]]).

(** Three observations of two assets with the same returns. *)
Definition duplicated_df : DataFrame :=
  mkDataFrame [Date 1; Date 2; Date 3] [Str "AAPL"; Str "GOOG"]
              (cells_of_rows [[1; 1]; [2; 2]; [4; 4]]).

(** Three observations of two assets, the second three times the first. *)
Definition collinear_df : DataFrame :=
  mkDataFrame [Date 1; Date 2; Date 3] [Str "AAPL"; Str "GOOG"]
              (cells_of_rows [[0; 0]; [3; 9]; [1; 3]]).

(** A factorisation that meets the zero pivot of every singular matrix, as
    it does for the covariance matrix of [duplicated_df], whose second pivot
    is the difference of two equal numbers. *)
Definition zero_pivot_met : lapack_on_singular := fun _ _ => None.

(** A factorisation of a singular 2 x 2 matrix in which rounding leaves
    the determinant [eps] instead of zero: the matrix returned is the adjugate
    divided by [eps]. *)
Definition pivot_rounded_to (eps : R) : lapack_on_singular :=
  fun _ A =>
    Some (fun i j =>
            match i, j with
            | O, O => A 1%nat 1%nat / eps
            | O, S O => - A 0%nat 1%nat / eps
            | S O, O => - A 1%nat 0%nat / eps
            | S O, S O => A 0%nat 0%nat / eps
            | _, _ => 0
            end).

(** A matrix product that loses the index. *)
Definition broken_matmul (df : DataFrame) (w : Series) : result Series :=
  Ok [].

Definition zero_series_1 : Series := [(Date 1, Fin 0)].
Definition zero_series_3 : Series := [(Date 1, Fin 0); (Date 2, Fin 0); (Date 3, Fin 0)].
Definition one_point_series : Series := [(Date 1, Fin (1 / 100))].
Definition two_point_series : Series := [(Date 1, Fin (1 / 10)); (Date 2, Fin 0)].
Definition late_series : Series := [(Date 2, Fin 0)].

Definition flat_factors : FactorRow :=
  mkFactorRow (Fin 1) (Fin 2) (Fin 1) (Fin 1) (Fin (1 / 2)).

Definition dates_upto (n : nat) : list label :=
  map (fun i => Date (Z.of_nat i)) (seq 1 n).

Definition flat_series (n : nat) (v : R) : Series :=
  map (fun d => (d, Fin v)) (dates_upto n).

Definition flat_table (n : nat) : FactorTable :=
  map (fun d => (d, flat_factors)) (dates_upto n).

Definition constant_fit (X : list regressors) (y : list pyfloat) : result Series :=
  Ok [(Str "const", Fin 0); (Str "Mkt_rf", Fin 1); (Str "SMB", Fin 0);
      (Str "HML", Fin 0); (Str "Mom", Fin 0)].

(** ** Further vocabulary *)

Definition missing_values_error : pyexn :=
  Exn ValueError
    "Input return series contain missing values. Please clean the data first."
    None.

(** The betas kept from the fitted parameters. *)
Definition drop_const (params : Series) : Series :=
  filter (fun kv => negb (label_eqb (fst kv) (Str "const"))) params.

(** Spec scenario: a portfolio observed on one date and a benchmark observed
    on another. *)
Definition series_2020 : Series := [(Date 1580428800, Fin (1 / 100))].
Definition series_2021 : Series := [(Date 1612051200, Fin (2 / 100))].

Definition failing_fit (X : list regressors) (y : list pyfloat) : result Series :=
  Raise (Exn OtherError "SVD did not converge" None).

(** The running products a, a*q1, a*q1*q2, ... without the first. *)
Fixpoint running_product (a : R) (qs : list R) : list R :=
  match qs with
  | [] => []
  | q :: t => (a * q) :: running_product (a * q) t
  end.

(** The drawdown series of calculate_portfolio_statistics, from the running
    product and the running maximum reached so far. *)
Definition drawdown_series (acc_p acc_m : pyfloat) (l : list pyfloat)
    : list pyfloat :=
  let cum := cum_skipna fmul acc_p l in
  map (fun cm => fsub (fdiv (fst cm) (snd cm)) (Fin 1))
      (combine cum (cum_skipna fmax acc_m cum)).

Definition gains_series : Series :=
  [(Date 1, Fin (1 / 10)); (Date 2, Fin 0); (Date 3, Fin (2 / 10))].

Definition loss_series : Series :=
  [(Date 1, Fin (1 / 10)); (Date 2, Fin (- (1 / 2))); (Date 3, Fin (2 / 10))].

(** The sample variance v' S v of the portfolio with weights [v]. *)
Definition portfolio_variance (k : nat) (S : matrix) (v : vector) : R :=
  dot k v (mat_vec k S v).

Definition nan_first_error : pyexn :=
  Exn ValueError
    "Input DataFrame contains NaN values. Please handle missing data first."
    None.

(** The sample matrix with every return in percent and shifted by asset. *)
Definition sample_df_percent : DataFrame :=
  mkDataFrame [Date 1; Date 2; Date 3] [Str "AAPL"; Str "GOOG"]
              (cells_of_rows [[101; 2]; [1; 102]; [1; 2]]).

(** ** analysis/portfolio_analyzer.py: analyze_factor_exposures *)

(** Exception classes beyond the four named ones are all [OtherError]; the
    names below record which Python class is meant. *)
Definition KeyError : exn_class := OtherError.
Definition OverflowError : exn_class := OtherError.
Definition HTTPError : exn_class := OtherError.

Module FactorExposureChart.
Import PortfolioAnalyzer.

(** The two characters of a bar: the low line and the full block. *)
Inductive glyph : Type :=
| Low
| Full.

(** What reaches the console: the header, then one line per factor with its
    name, bar, value and qualitative label. *)
Inductive chart_event : Type :=
| ChartHeader
| ChartLine (factor : string) (bar : list glyph) (value : pyfloat)
            (exposure : string).

(** Python [x <= 0] on a float. *)
Definition fleb0 (x : pyfloat) : bool := fltb x (Fin 0) || feqb x (Fin 0).

(** Python [int(x)] on a float: truncation towards zero. *)
Definition Rtrunc (r : R) : Z :=
  if Rltb r 0 then (- Zfloor (- r))%Z else Zfloor r.

Definition py_int (x : pyfloat) : result Z :=
  match x with
  | Fin r => Ok (Rtrunc r)
  | NaN => Raise (Exn ValueError "cannot convert float NaN to integer" None)
  | _ => Raise (Exn OverflowError "cannot convert float infinity to integer" None)
  end.

(** [c * n] on a one-character string: empty when [n] is not positive. *)
Definition glyphs (c : glyph) (n : Z) : list glyph := repeat c (Z.to_nat n).

Definition build_bar (width midpoint scaled : Z) : list glyph :=
  if (0 <? scaled)%Z then
    glyphs Low midpoint ++ glyphs Full scaled ++ glyphs Low (midpoint - scaled)
  else if (scaled <? 0)%Z then
    glyphs Low (midpoint - Z.abs scaled) ++ glyphs Full (Z.abs scaled)
      ++ glyphs Low midpoint
  else glyphs Low width.

(** The loop over [betas.items()].  Python's [min(a, b)] and [max(a, b)]
    return the second argument only when it compares strictly below (above)
    the first, which is [fmin] and [fmax]. *)
Fixpoint chart_lines (items : list (string * pyfloat)) (width : Z)
    (scale : pyfloat) (midpoint : Z) : list chart_event * result unit :=
  match items with
  | [] => ([], Ok tt)
  | (factor, value) :: rest =>
      let clamped := fmax (fmin value scale) (fneg scale) in
      match py_int (fmul (fdiv clamped scale) (Fin (IZR midpoint))) with
      | Raise e => ([], Raise e)
      | Ok scaled =>
          let bar := build_bar width midpoint scaled in
          match interpret_exposure (PyFloat value) with
          | Raise e =>
              ([], Raise (Exn RuntimeError
                            ("Failed to visualize factor '" ++ factor ++ "': "
                               ++ exn_msg e)
                            (Some e)))
          | Ok exposure =>
              let (out, r) := chart_lines rest width scale midpoint in
              (ChartLine factor bar value exposure :: out, r)
          end
      end
  end.

(** analyze_factor_exposures on betas of float dtype keyed by factor names;
    the returned list is what was printed before the call ended. *)
Definition analyze_factor_exposures (betas : list (string * pyfloat))
    (width : Z) (scale : pyfloat) : list chart_event * result unit :=
  if Nat.eqb (length betas) 0 then
    ([], Raise (Exn ValueError "Betas must contain at least one value." None))
  else if negb (forallb isfinite (map snd betas)) then
    ([], Raise (Exn ValueError "Betas must not contain NaN or infinite values." None))
  else if (width <=? 0)%Z || (40 <? width)%Z then
    ([], Raise (Exn ValueError
                  "Width must be a positive integer no greater than 40." None))
  else if fleb0 scale then
    ([], Raise (Exn ValueError
                  "Scale must be a positive floating point number." None))
  else
    let midpoint := (width / 2)%Z in
    let (out, r) := chart_lines betas width scale midpoint in
    (ChartHeader :: out, r).

End FactorExposureChart.

(** The number of full blocks of a bar. *)
Fixpoint count_full (bar : list FactorExposureChart.glyph) : nat :=
  match bar with
  | [] => O
  | FactorExposureChart.Full :: t => S (count_full t)
  | FactorExposureChart.Low :: t => count_full t
  end.

(** A chart line agrees with a beta: same factor and value, the label of
    interpret_exposure, and a bar that fits the width. *)
Definition chart_line_fits (width : Z) (b : string * pyfloat)
    (ev : FactorExposureChart.chart_event) : Prop :=
  exists bar exposure,
    ev = FactorExposureChart.ChartLine (fst b) bar (snd b) exposure /\
    PortfolioAnalyzer.interpret_exposure (PortfolioAnalyzer.PyFloat (snd b))
    = Ok exposure /\
    (count_full bar <= Z.to_nat (width / 2))%nat /\
    ((count_full bar = 0%nat /\ length bar = Z.to_nat width) \/
     (0 < count_full bar /\ length bar = 2 * Z.to_nat (width / 2))%nat).

Definition sample_betas : list (string * pyfloat) :=
  [("Mkt_rf"%string, Fin (1 / 2)); ("SMB"%string, Fin (- (3 / 10)));
   ("HML"%string, Fin 0); ("Mom"%string, Fin 2)].

(** ** analysis/portfolio_statistics.py: print_portfolio_statistics on a dict *)

Module StatisticsPrinter.
Import PortfolioStatistics PortfolioAnalyzer.

Definition required_keys : list string :=
  ["mean_return"; "annualized_return"; "std_dev"; "annualized_volatility";
   "sharpe_ratio"; "cumulative_return"; "max_drawdown"]%string.

(** [isinstance(v, (int, float))] and [type(v).__name__]. *)
Definition is_numeric (v : pyvalue) : bool :=
  match v with
  | PyFloat _ | PyInt _ => true
  | PyStr _ => false
  end.

Definition type_name (v : pyvalue) : string :=
  match v with
  | PyFloat _ => "float"
  | PyInt _ => "int"
  | PyStr _ => "str"
  end.

(** The number a format specification sees. *)
Definition to_float (v : pyvalue) : pyfloat :=
  match v with
  | PyFloat x => x
  | PyInt i => Fin (IZR i)
  | PyStr _ => NaN
  end.

(** [repr] of a list of strings, as an f-string prints it. *)
Fixpoint join_quoted (l : list string) : string :=
  match l with
  | [] => ""
  | [s] => "'" ++ s ++ "'"
  | s :: t => "'" ++ s ++ "', " ++ join_quoted t
  end.

Definition repr_list (l : list string) : string := "[" ++ join_quoted l ++ "]".

Definition dict_mem (d : list (string * pyvalue)) (key : string) : bool :=
  match dict_get d key with Some _ => true | None => false end.

(** [portfolio_stats[key]], for a key that is present. *)
Definition dict_item (d : list (string * pyvalue)) (key : string) : pyvalue :=
  match dict_get d key with Some v => v | None => PyStr "" end.

(** print_portfolio_statistics on a dictionary given by its items (one per
    key).  The formatted text is not modelled: the event records the name
    and the seven values that are formatted. *)
Definition print_portfolio_statistics (portfolio_stats : list (string * pyvalue))
    (portfolio_name : string) : result (list console_event) :=
  if Nat.eqb (length portfolio_stats) 0 then
    Raise (Exn ValueError "Portfolio statistics dictionary cannot be empty." None)
  else
    let missing_keys :=
      filter (fun key => negb (dict_mem portfolio_stats key)) required_keys in
    if negb (Nat.eqb (length missing_keys) 0) then
      Raise (Exn KeyError
               ("Missing key(s) in portfolio statistics dictionary: "
                  ++ repr_list missing_keys ++ ". "
                  ++ "Required keys are: " ++ repr_list required_keys ++ ".")
               None)
    else
      match find (fun key => negb (is_numeric (dict_item portfolio_stats key)))
                 required_keys with
      | Some key =>
          Raise (Exn TypeError
                   ("Value for '" ++ key
                      ++ "' must be numeric (int or float), but got "
                      ++ type_name (dict_item portfolio_stats key) ++ ".")
                   None)
      | None =>
          let item := fun key => to_float (dict_item portfolio_stats key) in
          Ok [Printed portfolio_name
                {| mean_return := item "mean_return"%string;
                   annualized_return := item "annualized_return"%string;
                   std_dev := item "std_dev"%string;
                   annualized_volatility := item "annualized_volatility"%string;
                   sharpe_ratio := item "sharpe_ratio"%string;
                   cumulative_return := item "cumulative_return"%string;
                   max_drawdown := item "max_drawdown"%string |}]
      end.

End StatisticsPrinter.


(** ** utils/validity_input_check.py *)

(** Text is taken to be ASCII: on such text [str.strip], [str.isdigit],
    [str.isalpha] and the regular expression classes are the byte tests
    below. *)
Definition ascii_text (s : string) : Prop :=
  Forall (fun c => (nat_of_ascii c < 128)%nat) (list_ascii_of_string s).

Definition code_between (lo hi : nat) (c : ascii) : bool :=
  Nat.leb lo (nat_of_ascii c) && Nat.leb (nat_of_ascii c) hi.

(** [str.isspace] *)
Definition is_space (c : ascii) : bool :=
  code_between 9 13 c || code_between 28 32 c.

Fixpoint drop_spaces (l : list ascii) : list ascii :=
  match l with
  | [] => []
  | c :: t => if is_space c then drop_spaces t else l
  end.

(** [str.strip()] *)
Definition strip (s : string) : string :=
  string_of_list_ascii
    (rev (drop_spaces (rev (drop_spaces (list_ascii_of_string s))))).

Module ValidityInputCheck.

(** The class [A-Za-z0-9\-\.\^]. *)
Definition ticker_char (c : ascii) : bool :=
  code_between 65 90 c || code_between 97 122 c || code_between 48 57 c
  || Nat.eqb (nat_of_ascii c) 45 || Nat.eqb (nat_of_ascii c) 46
  || Nat.eqb (nat_of_ascii c) 94.

(** [pattern.match(ticker)] for the pattern ^[A-Za-z0-9\-\.\^]+$: one or
    more characters of the class up to the end of the string, or up to a
    newline that ends it. *)
Definition pattern_match (s : string) : bool :=
  let l := list_ascii_of_string s in
  let body :=
    match rev l with
    | c :: t => if Nat.eqb (nat_of_ascii c) 10 then rev t else l
    | [] => l
    end in
  negb (Nat.eqb (length body) 0) && forallb ticker_char body.

Section API.

(** [yf.Ticker(ticker).info]: an exception, None, or a dictionary of some
    size. *)
Variable ticker_info : string -> result (option nat).

(** The tickers looked up on the service, then the outcome. *)
Definition check_valid_ticker_with_API (ticker : string)
    : list string * result bool :=
  let ticker := strip ticker in
  if String.eqb ticker "" then
    ([], Raise (Exn ValueError "Ticker cannot be an empty string." None))
  else
    ([ticker],
     match ticker_info ticker with
     | Raise _ => Ok false
     | Ok None => Ok false
     | Ok (Some n) => Ok (Nat.ltb 0 n)
     end).

Fixpoint check_each (tickers : list string) : list string * bool :=
  match tickers with
  | [] => ([], true)
  | ticker :: rest =>
      match check_valid_ticker_with_API ticker with
      | (q, Ok true) =>
          let (q', b) := check_each rest in (q ++ q', b)
      | (q, _) => (q, false)
      end
  end.

Definition check_validity_tickers (tickers : list string)
    : list string * bool :=
  if Nat.eqb (length tickers) 0 then ([], false)
  else
    let tickers := map strip tickers in
    if negb (forallb (fun ticker => Nat.leb 1 (String.length ticker)) tickers)
    then ([], false)
    else if negb (forallb pattern_match tickers) then ([], false)
    else check_each tickers.

End API.

End ValidityInputCheck.

(** A ticker is well formed when, stripped, it is a non-empty word of the
    ticker class. *)
Definition well_formed_ticker (t : string) : Prop :=
  strip t <> ""%string /\
  forallb ValidityInputCheck.ticker_char (list_ascii_of_string (strip t)) = true.

(** The service knows a ticker when the lookup of its stripped form returns
    a non-empty record. *)
Definition known_ticker (ticker_info : string -> result (option nat))
    (t : string) : Prop :=
  exists n, ticker_info (strip t) = Ok (Some n) /\ (0 < n)%nat.

(** A lookup service that knows two tickers. *)
Definition two_ticker_service (t : string) : result (option nat) :=
  if String.eqb t "AAPL" then Ok (Some 120%nat)
  else if String.eqb t "^GSPC" then Ok (Some 40%nat)
  else Raise (Exn OtherError "not found" None).

(** ** data/data_fetcher.py *)

(** config.valid_mkt_benchmarks *)
Definition valid_mkt_benchmarks : list string := ["^IXIC"; "^GSPC"; "^RUT"]%string.

(** [str.isdigit] and [str.isalpha] on ASCII text. *)
Definition is_digit (c : ascii) : bool := code_between 48 57 c.
Definition is_alpha (c : ascii) : bool :=
  code_between 65 90 c || code_between 97 122 c.

Definition digits_of (s : string) : list ascii :=
  filter is_digit (list_ascii_of_string s).
Definition letters_of (s : string) : list ascii :=
  filter is_alpha (list_ascii_of_string s).

(** [int] of a string of decimal digits (of at most 4300 digits, the
    interpreter's limit for such a conversion). *)
Definition int_of_digits (l : list ascii) : N :=
  fold_left (fun acc c => (10 * acc + (N_of_ascii c - 48))%N) l 0%N.

Module DataFetcher.

Section Dates.

(** pandas timestamps and the operations get_start_date applies to them:
    [pd.to_datetime], subtraction of a [DateOffset] of years or months or of
    a [Timedelta] of days, and [strftime] with the format %Y-%m-%d. *)
Variable Timestamp : Type.
Variable to_datetime : string -> result Timestamp.
Variable minus_years minus_months minus_days : Timestamp -> N -> result Timestamp.
Variable strftime : Timestamp -> result string.

Definition get_start_date (in_end in_period : string) : result string :=
  match to_datetime in_end with
  | Raise e =>
      Raise (Exn ValueError ("Invalid end date format: " ++ in_end) (Some e))
  | Ok end_ =>
      let value_str := digits_of in_period in
      let unit := string_of_list_ascii (letters_of in_period) in
      if Nat.eqb (length value_str) 0 || String.eqb unit "" then
        Raise (Exn ValueError
                 ("Invalid period format: '" ++ in_period
                  ++ "'. Use formats like '2y', '18mo', or '90d'.") None)
      else
        let value := int_of_digits value_str in
        if String.eqb unit "y" then
          start <- minus_years end_ value ;; strftime start
        else if String.eqb unit "mo" then
          start <- minus_months end_ value ;; strftime start
        else if String.eqb unit "d" then
          start <- minus_days end_ value ;; strftime start
        else
          Raise (Exn ValueError
                   ("Unsupported period unit: '" ++ unit
                    ++ "'. Only 'y', 'mo', and 'd' are supported.") None)
  end.

End Dates.

Section Fetch.

(** fetch_returns, which downloads the price history of the tickers. *)
Variable fetch_returns :
  list string -> string -> string -> bool -> string -> result DataFrame.

(** The ticker lists handed to fetch_returns, then the outcome. *)
Definition fetch_benchmark_returns (mkt_benchmark_ticker in_period
    in_interval : string) (in_auto_adjust : bool) (in_end : string)
    : list (list string) * result DataFrame :=
  let mkt_benchmark_ticker := strip mkt_benchmark_ticker in
  if Nat.eqb (String.length mkt_benchmark_ticker) 0 then
    ([], Raise (Exn ValueError
                  "Market benchmark ticker must contain at least one character."
                  None))
  else if negb (existsb (String.eqb mkt_benchmark_ticker) valid_mkt_benchmarks)
  then
    ([], Raise (Exn ValueError
                  ("Invalid benchmark ticker '" ++ mkt_benchmark_ticker
                   ++ "'. Valid options: "
                   ++ StatisticsPrinter.repr_list valid_mkt_benchmarks) None))
  else
    ([[mkt_benchmark_ticker]],
     match fetch_returns [mkt_benchmark_ticker] in_period in_interval
                         in_auto_adjust in_end with
     | Raise e =>
         Raise (Exn RuntimeError
                  ("Failed to fetch benchmark returns for '"
                   ++ mkt_benchmark_ticker ++ "': " ++ exn_msg e) (Some e))
     | Ok mkt_returns_df =>
         if negb (Nat.eqb (shape1 mkt_returns_df) 1) then
           Raise (Exn ValueError
                    "Benchmark returns DataFrame must contain exactly one column."
                    None)
         else
           Ok {| df_index := df_index mkt_returns_df;
                 df_columns := [Str "MKT"];
                 df_values := df_values mkt_returns_df |}
     end).

End Fetch.

End DataFetcher.

(** A calendar that counts days: a timestamp is a day number. *)
Definition day_calendar_parse (s : string) : result Z :=
  if String.eqb s "2025-01-01" then Ok 20089%Z
  else Raise (Exn ValueError "Unknown datetime string format" None).
Definition day_calendar_minus (per : Z) (t : Z) (n : N) : result Z :=
  Ok (t - per * Z.of_N n)%Z.
Definition day_calendar_format (t : Z) : result string :=
  Ok (if Z.eqb t 19999 then "2024-10-03" else "other")%string.

(** A download that returns one column for every request. *)
Definition one_column_fetch (tickers : list string) (in_period in_interval
    : string) (in_auto_adjust : bool) (in_end : string) : result DataFrame :=
  Ok {| df_index := [Date 0; Date 1];
        df_columns := map Str tickers;
        df_values := fun _ _ => Some 0 |}.


(** * Proofs *)

(** ** Comparisons and arithmetic on floats *)

Lemma Rltb_true (a b : R) : a < b -> Rltb a b = true.
Proof. intros H. unfold Rltb. destruct (Rlt_dec a b); [reflexivity | contradiction]. Qed.

Lemma Rltb_false (a b : R) : ~ a < b -> Rltb a b = false.
Proof. intros H. unfold Rltb. destruct (Rlt_dec a b); [contradiction | reflexivity]. Qed.

Lemma Reqb_true (a b : R) : a = b -> Reqb a b = true.
Proof. intros H. unfold Reqb. destruct (Req_dec_T a b); [reflexivity | contradiction]. Qed.

Lemma Reqb_false (a b : R) : a <> b -> Reqb a b = false.
Proof. intros H. unfold Reqb. destruct (Req_dec_T a b); [contradiction | reflexivity]. Qed.

Lemma Reqb_eq (a b : R) : Reqb a b = true -> a = b.
Proof. unfold Reqb. destruct (Req_dec_T a b); [trivial | discriminate]. Qed.

Lemma fdiv_Fin (a b : R) : b <> 0 -> fdiv (Fin a) (Fin b) = Fin (a / b).
Proof. intros H. simpl. rewrite Reqb_false by exact H. reflexivity. Qed.

Lemma fdiv_NaN_r (x : pyfloat) : fdiv x NaN = NaN.
Proof. destruct x; reflexivity. Qed.

Lemma Fin_inj (a b : R) : Fin a = Fin b -> a = b.
Proof. intros H. injection H. trivial. Qed.

(** ** Exposure labels *)

Module ExposureProofs.

Lemma interpret_exposure_band (r : R) :
  exists l, interpret_exposure (PyFloat (Fin r)) = Ok l /\ exposure_band r l.
Proof.
  unfold interpret_exposure, fgtb, fltb, Rltb.
  repeat match goal with
         | |- context [Rlt_dec ?a ?b] => destruct (Rlt_dec a b)
         end;
    eexists; (split; [reflexivity |]);
    first [ apply band_strong_up; lra | apply band_mild_up; lra
          | apply band_slight_up; lra | apply band_strong_down; lra
          | apply band_mild_down; lra | apply band_slight_down; lra
          | apply band_neutral; lra ].
Qed.

Lemma exposure_band_functional (r : R) (l1 l2 : string) :
  exposure_band r l1 -> exposure_band r l2 -> l1 = l2.
Proof.
  intros H1 H2; inversion H1; subst; inversion H2; subst;
    first [ reflexivity | exfalso; lra ].
Qed.

Lemma interpret_exposure_strong_up (r : R) :
  6 / 10 < r ->
  interpret_exposure (PyFloat (Fin r)) = Ok "Strong exposure ↑"%string.
Proof.
  intros H. unfold interpret_exposure, fgtb, fltb.
  rewrite Rltb_true by exact H. reflexivity.
Qed.

(** C9, as stated, at 0.7: the label returned is "Strong exposure" with an
    upward arrow, not the string of the claim. *)
Lemma interpret_exposure_0_7_label :
  interpret_exposure (PyFloat (Fin (7 / 10))) = Ok "Strong exposure ↑"%string /\
  interpret_exposure (PyFloat (Fin (7 / 10)))
  <> Ok "Strong exposure, positive direction"%string.
Proof.
  split.
  - apply interpret_exposure_strong_up; lra.
  - rewrite interpret_exposure_strong_up by lra. discriminate.
Qed.

(** C9 (amended): interpret_exposure maps 0.7 to the label
    "Strong exposure" followed by an upward arrow and -0.05 to
    "Neutral exposure"; for every finite real input the label is the one of
    the band the input lies in (above 0.6, 0.3, 0.1; below -0.6, -0.3, -0.1;
    neutral otherwise), and no other label belongs to that input. *)
Theorem interpret_exposure_thresholds :
  interpret_exposure (PyFloat (Fin (7 / 10))) = Ok "Strong exposure ↑"%string /\
  interpret_exposure (PyFloat (Fin (- (5 / 100)))) = Ok "Neutral exposure"%string /\
  (forall (r : R) (l : string),
      exposure_band r l <-> interpret_exposure (PyFloat (Fin r)) = Ok l).
Proof.
  split; [apply interpret_exposure_strong_up; lra |].
  split.
  { unfold interpret_exposure, fgtb, fltb.
    repeat rewrite Rltb_false by lra. reflexivity. }
  intros r l.
  destruct (interpret_exposure_band r) as (l' & E & Hb). rewrite E. split.
  - intros H. f_equal. exact (exposure_band_functional r l' l Hb H).
  - intros H. injection H as <-. exact Hb.
Qed.

(** The band of 0.2, read off the theorem. *)
Lemma interpret_exposure_thresholds_witness :
  interpret_exposure (PyFloat (Fin (2 / 10))) = Ok "Slight exposure ↑"%string.
Proof.
  apply (proj2 (proj2 interpret_exposure_thresholds)).
  apply band_slight_up. lra.
Defined.

End ExposureProofs.

(** ** Finite sums *)

Module Sums.

Lemma sumR_ext (n : nat) (f g : nat -> R) :
  (forall i, (i < n)%nat -> f i = g i) -> sumR n f = sumR n g.
Proof.
  induction n as [|n IH]; intros H; simpl; [reflexivity |].
  rewrite IH by (intros i Hi; apply H; lia).
  rewrite (H n) by lia. reflexivity.
Qed.

Lemma sumR_plus (n : nat) (f g : nat -> R) :
  sumR n (fun i => f i + g i) = sumR n f + sumR n g.
Proof. induction n as [|n IH]; simpl; [lra | rewrite IH; lra]. Qed.

Lemma sumR_scal_l (n : nat) (c : R) (f : nat -> R) :
  sumR n (fun i => c * f i) = c * sumR n f.
Proof. induction n as [|n IH]; simpl; [lra | rewrite IH; lra]. Qed.

Lemma sumR_scal_r (n : nat) (c : R) (f : nat -> R) :
  sumR n (fun i => f i * c) = sumR n f * c.
Proof. induction n as [|n IH]; simpl; [lra | rewrite IH; lra]. Qed.

Lemma sumR_div (n : nat) (c : R) (f : nat -> R) :
  sumR n (fun i => f i / c) = sumR n f / c.
Proof. unfold Rdiv. apply sumR_scal_r. Qed.

Lemma sumR_zero (n : nat) (f : nat -> R) :
  (forall i, (i < n)%nat -> f i = 0) -> sumR n f = 0.
Proof.
  induction n as [|n IH]; intros H; simpl; [reflexivity |].
  rewrite IH by (intros i Hi; apply H; lia).
  rewrite (H n) by lia. lra.
Qed.

Lemma sumR_swap (n m : nat) (f : nat -> nat -> R) :
  sumR n (fun i => sumR m (fun j => f i j))
  = sumR m (fun j => sumR n (fun i => f i j)).
Proof.
  induction n as [|n IH]; simpl.
  - symmetry. apply sumR_zero. reflexivity.
  - rewrite IH, <- sumR_plus. reflexivity.
Qed.

Lemma sumR_nonneg (n : nat) (f : nat -> R) :
  (forall i, (i < n)%nat -> 0 <= f i) -> 0 <= sumR n f.
Proof.
  induction n as [|n IH]; intros H; simpl; [lra |].
  assert (0 <= sumR n f) by (apply IH; intros i Hi; apply H; lia).
  assert (0 <= f n) by (apply H; lia). lra.
Qed.

Lemma sumR_nonneg_zero (n : nat) (f : nat -> R) :
  (forall i, (i < n)%nat -> 0 <= f i) -> sumR n f = 0 ->
  forall i, (i < n)%nat -> f i = 0.
Proof.
  induction n as [|n IH]; intros H E i Hi; [lia |].
  simpl in E.
  assert (H1 : 0 <= sumR n f) by (apply sumR_nonneg; intros j Hj; apply H; lia).
  assert (H2 : 0 <= f n) by (apply H; lia).
  destruct (Nat.eq_dec i n) as [-> | Hne]; [lra |].
  apply IH; [intros j Hj; apply H; lia | lra | lia].
Qed.

(** Sums against a row or a column of the identity pick one term. *)
Lemma sumR_identity_l (k i : nat) (f : nat -> R) :
  (i < k)%nat -> sumR k (fun l => identity i l * f l) = f i.
Proof.
  induction k as [|k IH]; intros Hi; [lia |].
  simpl. unfold identity at 2.
  destruct (Nat.eqb_spec i k) as [-> | Hne].
  - rewrite sumR_zero; [lra |].
    intros l Hl. unfold identity.
    destruct (Nat.eqb_spec k l); [lia | lra].
  - rewrite IH by lia. lra.
Qed.

Lemma sumR_identity_r (k j : nat) (f : nat -> R) :
  (j < k)%nat -> sumR k (fun l => f l * identity l j) = f j.
Proof.
  intros Hj. rewrite <- (sumR_identity_l k j f Hj).
  apply sumR_ext. intros l _. unfold identity.
  rewrite (Nat.eqb_sym l j). lra.
Qed.

End Sums.

(** ** Inverses and Gram matrices *)

Module LinAlg.
Import Sums.

Lemma inverse_unique (k : nat) (A B C : matrix) :
  is_inverse k A B -> is_inverse k A C ->
  forall i j, (i < k)%nat -> (j < k)%nat -> B i j = C i j.
Proof.
  intros HB HC i j Hi Hj.
  rewrite <- (sumR_identity_r k j (fun l => B i l) Hj).
  transitivity (sumR k (fun l => sumR k (fun m => B i l * A l m * C m j))).
  { apply sumR_ext. intros l Hl.
    destruct (HC l j Hl Hj) as [E _]. rewrite <- E. unfold mat_mul.
    rewrite <- sumR_scal_l. apply sumR_ext. intros m _. ring. }
  rewrite sumR_swap.
  rewrite <- (sumR_identity_l k i (fun m => C m j) Hi).
  apply sumR_ext. intros m Hm.
  destruct (HB i m Hi Hm) as [_ E]. rewrite <- E. unfold mat_mul.
  rewrite <- sumR_scal_r. reflexivity.
Qed.

Section Gram.

(** [X] is an n-by-k matrix of centred observations. *)
Variables (n k : nat) (X : nat -> nat -> R) (c : R).

Lemma gram_apply (u : vector) (j : nat) :
  sumR k (fun l => gram n X c j l * u l)
  = sumR n (fun i => X i j * sumR k (fun l => X i l * u l)) / c.
Proof.
  unfold gram.
  transitivity (sumR k (fun l => sumR n (fun i => X i j * X i l * u l / c))).
  { apply sumR_ext. intros l _.
    rewrite sumR_div. unfold Rdiv.
    rewrite (sumR_scal_r n (u l) (fun i => X i j * X i l)). ring. }
  rewrite sumR_swap, <- sumR_div.
  apply sumR_ext. intros i _.
  rewrite sumR_div, <- sumR_scal_l. unfold Rdiv. f_equal.
  apply sumR_ext. intros l _. ring.
Qed.

Lemma gram_quadratic (u : vector) :
  sumR k (fun j => u j * sumR k (fun l => gram n X c j l * u l))
  = sumR n (fun i => sumR k (fun l => X i l * u l)
                     * sumR k (fun l => X i l * u l)) / c.
Proof.
  transitivity
    (sumR k (fun j => sumR n (fun i =>
       u j * X i j * sumR k (fun l => X i l * u l) / c))).
  { apply sumR_ext. intros j _. rewrite gram_apply.
    rewrite sumR_div. unfold Rdiv. rewrite <- Rmult_assoc. f_equal.
    rewrite <- sumR_scal_l. apply sumR_ext. intros i _. ring. }
  rewrite sumR_swap, <- sumR_div.
  apply sumR_ext. intros i _.
  rewrite sumR_div. unfold Rdiv. f_equal.
  rewrite <- sumR_scal_r. apply sumR_ext. intros j _. ring.
Qed.

(** If [B] is a right inverse of a Gram matrix, the sum of all its entries,
    1' B 1, is positive. *)
Lemma gram_inverse_total_pos (B : matrix) :
  0 < c -> (0 < k)%nat ->
  (forall i j, (i < k)%nat -> (j < k)%nat -> mat_mul k (gram n X c) B i j = identity i j) ->
  0 < sumR k (fun j => sumR k (fun l => B j l)).
Proof.
  intros Hc Hk HB.
  set (u := fun j => sumR k (fun l => B j l)).
  assert (Gu : forall j, (j < k)%nat -> sumR k (fun l => gram n X c j l * u l) = 1).
  { intros j Hj. unfold u.
    transitivity (sumR k (fun l => sumR k (fun m => gram n X c j l * B l m))).
    { apply sumR_ext. intros l _. rewrite sumR_scal_l. reflexivity. }
    rewrite sumR_swap.
    transitivity (sumR k (fun m => identity j m * 1)).
    { apply sumR_ext. intros m Hm.
      rewrite <- (HB j m Hj Hm). unfold mat_mul. ring. }
    apply (sumR_identity_l k j (fun _ => 1) Hj). }
  assert (Q : sumR k u
              = sumR n (fun i => sumR k (fun l => X i l * u l)
                                 * sumR k (fun l => X i l * u l)) / c).
  { rewrite <- gram_quadratic. apply sumR_ext. intros j Hj.
    rewrite (Gu j Hj). ring. }
  fold u. rewrite Q.
  set (z := fun i => sumR k (fun l => X i l * u l)).
  assert (Hz : 0 <= sumR n (fun i => z i * z i)).
  { apply sumR_nonneg. intros i _. apply Rle_0_sqr. }
  destruct (Req_dec_T (sumR n (fun i => z i * z i)) 0) as [E | NE].
  - exfalso.
    assert (Z : forall i, (i < n)%nat -> z i * z i = 0).
    { apply sumR_nonneg_zero; [intros i _; apply Rle_0_sqr | exact E]. }
    specialize (Gu O Hk). rewrite gram_apply in Gu.
    rewrite sumR_zero in Gu.
    + unfold Rdiv in Gu. rewrite Rmult_0_l in Gu. lra.
    + intros i Hi. fold (z i).
      assert (z i = 0) by (apply Rsqr_0_uniq; exact (Z i Hi)).
      replace (z i) with 0. ring.
  - apply Rdiv_lt_0_compat; [| exact Hc].
    destruct Hz as [Hlt | Heq]; [exact Hlt | exfalso; apply NE; symmetry; exact Heq].
Qed.

End Gram.

Lemma fsum_Fin_seq (k : nat) (f : nat -> R) :
  fsum (map (fun i => Fin (f i)) (seq 0 k)) = Fin (sumR k f).
Proof.
  unfold fsum. induction k as [|k IH]; [reflexivity |].
  rewrite seq_S, map_app, fold_left_app, IH. reflexivity.
Qed.

Lemma map_fst_combine {A B : Type} (l1 : list A) (l2 : list B) :
  length l1 = length l2 -> map fst (combine l1 l2) = l1.
Proof.
  revert l2. induction l1 as [|a l1 IH]; intros [|b l2] H; simpl in *;
    try reflexivity; try discriminate.
  f_equal. apply IH. lia.
Qed.

Lemma map_snd_combine {A B : Type} (l1 : list A) (l2 : list B) :
  length l1 = length l2 -> map snd (combine l1 l2) = l2.
Proof.
  revert l2. induction l1 as [|a l1 IH]; intros [|b l2] H; simpl in *;
    try reflexivity; try discriminate.
  f_equal. apply IH. lia.
Qed.

End LinAlg.

(** ** The Covariance Optimizer *)

Module OptimizerProofs.
Import Sums LinAlg.

Lemma linalg_inv_ok (lapack : lapack_on_singular) (k : nat) (A : matrix) :
  invertible k A ->
  exists B, linalg_inv lapack k A = Ok B /\ is_inverse k A B.
Proof.
  intros H. unfold linalg_inv.
  destruct (excluded_middle_informative (invertible k A)) as [H' | H'];
    [| contradiction].
  destruct (constructive_indefinite_description _ H') as [B HB].
  exists B. split; [reflexivity | exact HB].
Qed.

(** The inversion raises only the LinAlgError of a zero pivot, and only on
    a matrix without inverse. *)
Lemma linalg_inv_raise (lapack : lapack_on_singular) (k : nat) (A : matrix)
    (e : pyexn) :
  linalg_inv lapack k A = Raise e ->
  e = Exn LinAlgError "Singular matrix" None /\
  ~ invertible k A /\ lapack k A = None.
Proof.
  unfold linalg_inv.
  destruct (excluded_middle_informative (invertible k A)) as [H | H];
    [discriminate |].
  destruct (lapack k A) as [B |]; [discriminate |].
  intros E. injection E as <-. repeat split. exact H.
Qed.

Lemma linalg_inv_zero_pivot (lapack : lapack_on_singular) (k : nat)
    (A : matrix) :
  ~ invertible k A -> lapack k A = None ->
  linalg_inv lapack k A = Raise (Exn LinAlgError "Singular matrix" None).
Proof.
  intros H E. unfold linalg_inv.
  destruct (excluded_middle_informative (invertible k A)); [contradiction |].
  rewrite E. reflexivity.
Qed.

(** Past its four checks, calculate_mvp_weights is the inversion followed by
    the normalisation. *)
Lemma mvp_weights_run (lapack : lapack_on_singular) (df : DataFrame) :
  optimizer_preconditions df ->
  calculate_mvp_weights lapack df =
  match linalg_inv lapack (shape1 df) (df_cov df) with
  | Raise e =>
      Raise (Exn ValueError
        "Covariance matrix is singular and cannot be inverted. Try removing collinear or redundant assets."
        (Some e))
  | Ok inv_cov =>
      Ok (combine (df_columns df)
            (map (fun i => fdiv (Fin (mat_vec (shape1 df) inv_cov ones i))
                                (Fin (dot (shape1 df)
                                          (vec_mat (shape1 df) ones inv_cov) ones)))
                 (seq 0 (shape1 df))))
  end.
Proof.
  intros (He & Hn & Hk & Hr). unfold calculate_mvp_weights.
  rewrite He, Hn.
  replace (Nat.ltb (shape1 df) 2) with false
    by (symmetry; apply Nat.ltb_ge; exact Hk).
  replace (Nat.leb (shape0 df) (shape1 df)) with false
    by (symmetry; apply Nat.leb_gt; exact Hr).
  reflexivity.
Qed.

Lemma total_of_inverse (k : nat) (B : matrix) :
  dot k (vec_mat k ones B) ones = sumR k (fun j => sumR k (fun l => B j l)).
Proof.
  unfold dot, vec_mat, ones.
  transitivity (sumR k (fun j => sumR k (fun i => B i j))).
  - apply sumR_ext. intros j _. rewrite Rmult_1_r.
    apply sumR_ext. intros i _. ring.
  - apply sumR_swap.
Qed.

Lemma total_of_inverse' (k : nat) (B : matrix) :
  dot k ones (mat_vec k B ones) = sumR k (fun j => sumR k (fun l => B j l)).
Proof.
  unfold dot, mat_vec, ones.
  apply sumR_ext. intros j _. rewrite Rmult_1_l.
  apply sumR_ext. intros i _. ring.
Qed.

(** 1' S^-1 1 is positive for an invertible sample covariance matrix. *)
Lemma denominator_pos (df : DataFrame) (B : matrix) :
  optimizer_preconditions df ->
  is_inverse (shape1 df) (df_cov df) B ->
  0 < dot (shape1 df) (vec_mat (shape1 df) ones B) ones.
Proof.
  intros (_ & _ & Hk & Hr) HB. rewrite total_of_inverse.
  apply (gram_inverse_total_pos (shape0 df) (shape1 df) (centred df)
           (INR (shape0 df - 1))).
  - apply lt_0_INR. lia.
  - lia.
  - intros i j Hi Hj. exact (proj1 (HB i j Hi Hj)).
Qed.

(** The successful run, with the inverse that numpy returned. *)
Lemma mvp_weights_ok (lapack : lapack_on_singular) (df : DataFrame) :
  optimizer_preconditions df ->
  invertible (shape1 df) (df_cov df) ->
  exists B d,
    is_inverse (shape1 df) (df_cov df) B /\
    d = dot (shape1 df) (vec_mat (shape1 df) ones B) ones /\
    0 < d /\
    calculate_mvp_weights lapack df =
    Ok (combine (df_columns df)
          (map (fun i => Fin (mat_vec (shape1 df) B ones i / d))
               (seq 0 (shape1 df)))).
Proof.
  intros Hpre Hinv.
  destruct (linalg_inv_ok lapack _ _ Hinv) as (B & EB & HB).
  exists B, (dot (shape1 df) (vec_mat (shape1 df) ones B) ones).
  pose proof (denominator_pos df B Hpre HB) as Hd.
  repeat split; [exact (proj1 (HB i j H H0)) | exact (proj2 (HB i j H H0)) | exact Hd |].
  rewrite (mvp_weights_run lapack df Hpre), EB. do 2 f_equal.
  apply map_ext. intros i. apply fdiv_Fin. lra.
Qed.

(** The run in which the inversion raises. *)
Lemma mvp_weights_inversion_raises (lapack : lapack_on_singular)
    (df : DataFrame) (e : pyexn) :
  optimizer_preconditions df ->
  linalg_inv lapack (shape1 df) (df_cov df) = Raise e ->
  calculate_mvp_weights lapack df = Raise singular_matrix_error.
Proof.
  intros Hpre E. rewrite (mvp_weights_run lapack df Hpre), E.
  destruct (linalg_inv_raise _ _ _ _ E) as (-> & _). reflexivity.
Qed.

Lemma mvp_weights_singular (lapack : lapack_on_singular) (df : DataFrame) :
  optimizer_preconditions df ->
  ~ invertible (shape1 df) (df_cov df) ->
  lapack (shape1 df) (df_cov df) = None ->
  calculate_mvp_weights lapack df = Raise singular_matrix_error.
Proof.
  intros Hpre Hs E.
  exact (mvp_weights_inversion_raises lapack df _ Hpre
           (linalg_inv_zero_pivot lapack _ _ Hs E)).
Qed.

(** Past the four checks the call returns a series on the columns or raises
    the singular-matrix error, and the error means that the inversion
    raised. *)
Lemma mvp_weights_past_checks (lapack : lapack_on_singular) (df : DataFrame) :
  optimizer_preconditions df ->
  (exists w, calculate_mvp_weights lapack df = Ok w /\
             s_index w = df_columns df) \/
  (calculate_mvp_weights lapack df = Raise singular_matrix_error /\
   exists e, linalg_inv lapack (shape1 df) (df_cov df) = Raise e).
Proof.
  intros Hpre. rewrite (mvp_weights_run lapack df Hpre).
  destruct (linalg_inv lapack (shape1 df) (df_cov df)) as [B | e] eqn:E.
  - left. eexists. split; [reflexivity |].
    unfold s_index. apply map_fst_combine.
    rewrite length_map, length_seq. reflexivity.
  - right. destruct (linalg_inv_raise _ _ _ _ E) as (-> & _).
    split; [reflexivity | eexists; reflexivity].
Qed.

Lemma length_weights (k : nat) (f : nat -> pyfloat) :
  length (map f (seq 0 k)) = k.
Proof. rewrite length_map, length_seq. reflexivity. Qed.

(** C1: under the Optimizer's preconditions and with an invertible sample
    covariance matrix, calculate_mvp_weights returns a series indexed by the
    columns of the input in their order, whose values are the closed form
    S^-1 1 / (1' S^-1 1) for the inverse S^-1 of the unbiased sample
    covariance matrix. *)
Theorem mvp_weights_closed_form (lapack : lapack_on_singular)
    (df : DataFrame) :
  optimizer_preconditions df ->
  invertible (shape1 df) (df_cov df) ->
  exists w,
    calculate_mvp_weights lapack df = Ok w /\
    s_index w = df_columns df /\
    forall Sinv, is_inverse (shape1 df) (df_cov df) Sinv ->
      s_values w = map (fun j => Fin (mvp_closed_form (shape1 df) Sinv j))
                       (seq 0 (shape1 df)).
Proof.
  intros Hpre Hinv.
  destruct (mvp_weights_ok lapack df Hpre Hinv) as (B & d & HB & Ed & Hd & E).
  eexists. split; [exact E |]. split.
  - unfold s_index. apply map_fst_combine.
    rewrite length_weights. reflexivity.
  - intros Sinv HS. unfold s_values.
    rewrite map_snd_combine by (rewrite length_weights; reflexivity).
    apply map_ext_in. intros j Hj. apply in_seq in Hj.
    unfold mvp_closed_form. f_equal.
    assert (U : forall i l, (i < shape1 df)%nat -> (l < shape1 df)%nat ->
                            B i l = Sinv i l)
      by (apply (inverse_unique _ _ _ _ HB HS)).
    f_equal.
    + unfold mat_vec. apply sumR_ext. intros l Hl. rewrite U by lia. reflexivity.
    + rewrite Ed, total_of_inverse, total_of_inverse'.
      apply sumR_ext. intros i Hi. apply sumR_ext. intros l Hl. apply U; lia.
Qed.

(** C2: under the same hypotheses the returned weights sum to 1, hence to
    1 within 1e-5. *)
Theorem mvp_weights_sum_to_one (lapack : lapack_on_singular)
    (df : DataFrame) :
  optimizer_preconditions df ->
  invertible (shape1 df) (df_cov df) ->
  exists w total,
    calculate_mvp_weights lapack df = Ok w /\
    fsum (s_values w) = Fin total /\
    total = 1 /\
    Rabs (total - 1) <= 1 / 100000.
Proof.
  intros Hpre Hinv.
  destruct (mvp_weights_ok lapack df Hpre Hinv) as (B & d & HB & Ed & Hd & E).
  eexists. exists 1. split; [exact E |].
  split; [| split; [reflexivity |]].
  - unfold s_values.
    rewrite map_snd_combine by (rewrite length_weights; reflexivity).
    rewrite fsum_Fin_seq. f_equal.
    rewrite sumR_div.
    replace (sumR (shape1 df) (mat_vec (shape1 df) B ones)) with d.
    + field. lra.
    + rewrite Ed, total_of_inverse. rewrite <- total_of_inverse'.
      unfold dot, ones. apply sumR_ext. intros i _. ring.
  - replace (1 - 1) with 0 by ring. rewrite Rabs_R0. lra.
Qed.

(** *** The sample matrices *)

Lemma sample_df_preconditions : optimizer_preconditions sample_df.
Proof. repeat split; unfold shape0, shape1; simpl; lia. Qed.

Lemma sample_df_inverse : is_inverse 2 (df_cov sample_df) sample_inverse.
Proof.
  intros i j Hi Hj.
  destruct i as [|[|i]]; try lia; destruct j as [|[|j]]; try lia;
    unfold mat_mul, df_cov, col_mean, cell_real, identity; simpl;
    split; field.
Qed.

Lemma sample_df_invertible : invertible (shape1 sample_df) (df_cov sample_df).
Proof. exists sample_inverse. exact sample_df_inverse. Qed.

Lemma mvp_weights_closed_form_witness :
  optimizer_preconditions sample_df /\
  invertible (shape1 sample_df) (df_cov sample_df) /\
  exists w,
    calculate_mvp_weights zero_pivot_met sample_df = Ok w /\
    s_index w = [Str "AAPL"; Str "GOOG"] /\
    s_values w = [Fin (1 / 2); Fin (1 / 2)].
Proof.
  split; [exact sample_df_preconditions |].
  split; [exact sample_df_invertible |].
  destruct (mvp_weights_closed_form zero_pivot_met sample_df
              sample_df_preconditions sample_df_invertible)
    as (w & Ew & Ei & Ev).
  exists w. split; [exact Ew |]. split; [exact Ei |].
  rewrite (Ev sample_inverse sample_df_inverse).
  unfold mvp_closed_form, dot, mat_vec, ones. simpl.
  apply f_equal2; [apply f_equal; field |].
  apply f_equal2; [apply f_equal; field | reflexivity].
Defined.

Lemma mvp_weights_sum_to_one_witness :
  optimizer_preconditions sample_df /\
  invertible (shape1 sample_df) (df_cov sample_df) /\
  exists w total,
    calculate_mvp_weights zero_pivot_met sample_df = Ok w /\
    fsum (s_values w) = Fin total /\
    total = 1 /\
    Rabs (total - 1) <= 1 / 100000.
Proof.
  split; [exact sample_df_preconditions |].
  split; [exact sample_df_invertible |].
  exact (mvp_weights_sum_to_one zero_pivot_met sample_df
           sample_df_preconditions sample_df_invertible).
Defined.

(** *** Singular covariance matrices *)

Lemma duplicate_columns_singular (df : DataFrame) (j1 j2 : nat) :
  (j1 < shape1 df)%nat -> (j2 < shape1 df)%nat -> j1 <> j2 ->
  (forall i, (i < shape0 df)%nat -> cell_real df i j1 = cell_real df i j2) ->
  ~ invertible (shape1 df) (df_cov df).
Proof.
  intros H1 H2 Hne Hdup [B HB].
  assert (Em : col_mean df j1 = col_mean df j2).
  { unfold col_mean. f_equal. apply sumR_ext. exact Hdup. }
  assert (Ec : forall l, df_cov df l j1 = df_cov df l j2).
  { intros l. unfold df_cov. f_equal. apply sumR_ext. intros i Hi.
    rewrite Em, (Hdup i Hi). reflexivity. }
  destruct (HB j1 j1 H1 H1) as [_ E1].
  destruct (HB j1 j2 H1 H2) as [_ E2].
  assert (E : mat_mul (shape1 df) B (df_cov df) j1 j1
              = mat_mul (shape1 df) B (df_cov df) j1 j2).
  { unfold mat_mul. apply sumR_ext. intros l _. rewrite Ec. reflexivity. }
  rewrite E1, E2 in E. unfold identity in E.
  rewrite Nat.eqb_refl in E.
  destruct (Nat.eqb_spec j1 j2); [contradiction | lra].
Qed.

Lemma duplicated_df_preconditions : optimizer_preconditions duplicated_df.
Proof. repeat split; unfold shape0, shape1; simpl; lia. Qed.

Lemma duplicated_df_singular :
  ~ invertible (shape1 duplicated_df) (df_cov duplicated_df).
Proof.
  apply (duplicate_columns_singular duplicated_df 0 1);
    unfold shape0, shape1; simpl; try lia.
  intros i Hi. destruct i as [|[|[|i]]]; try lia; reflexivity.
Qed.

Lemma square_df_too_few_rows (lapack : lapack_on_singular) :
  calculate_mvp_weights lapack square_df = Raise too_few_rows_error.
Proof. reflexivity. Qed.

(** C4, as stated, on a matrix with a duplicated column: the error raised
    for the singular covariance matrix has the class of the validation
    errors, here the one raised for a matrix with as many rows as columns. *)
Lemma singular_error_is_value_error :
  calculate_mvp_weights zero_pivot_met duplicated_df
  = Raise singular_matrix_error /\
  calculate_mvp_weights zero_pivot_met square_df = Raise too_few_rows_error /\
  exn_cls singular_matrix_error = exn_cls too_few_rows_error.
Proof.
  split; [| split; [exact (square_df_too_few_rows zero_pivot_met)
                   | reflexivity]].
  apply mvp_weights_singular;
    [exact duplicated_df_preconditions | exact duplicated_df_singular
     | reflexivity].
Qed.

(** C4 (amended): when the preconditions hold and the inversion of the
    sample covariance matrix raises, which it does only for a singular
    matrix, such as that of a duplicated or collinear column, whose zero
    pivot the factorisation meets, calculate_mvp_weights raises a ValueError
    (the class of the validation errors) whose message advises removing
    collinear or redundant assets and whose context is numpy's LinAlgError;
    it returns no weights then.  Conversely that error is raised only when
    the inversion raised, hence only for a singular covariance matrix. *)
Theorem singular_covariance_error (lapack : lapack_on_singular)
    (df : DataFrame) :
  optimizer_preconditions df ->
  (forall e, linalg_inv lapack (shape1 df) (df_cov df) = Raise e ->
     exn_cls e = LinAlgError /\
     ~ invertible (shape1 df) (df_cov df) /\
     calculate_mvp_weights lapack df = Raise singular_matrix_error /\
     forall w, calculate_mvp_weights lapack df <> Ok w) /\
  (calculate_mvp_weights lapack df = Raise singular_matrix_error ->
   ~ invertible (shape1 df) (df_cov df) /\
   exists e, linalg_inv lapack (shape1 df) (df_cov df) = Raise e) /\
  (forall j1 j2, (j1 < shape1 df)%nat -> (j2 < shape1 df)%nat -> j1 <> j2 ->
     (forall i, (i < shape0 df)%nat -> cell_real df i j1 = cell_real df i j2) ->
     ~ invertible (shape1 df) (df_cov df) /\
     (lapack (shape1 df) (df_cov df) = None ->
      calculate_mvp_weights lapack df = Raise singular_matrix_error)) /\
  exn_cls singular_matrix_error = ValueError /\
  exn_msg singular_matrix_error =
    "Covariance matrix is singular and cannot be inverted. Try removing collinear or redundant assets."%string /\
  option_map exn_cls (exn_context singular_matrix_error) = Some LinAlgError.
Proof.
  intros Hpre. split; [| split; [| split; [| repeat split]]].
  - intros e E.
    pose proof (mvp_weights_inversion_raises lapack df e Hpre E) as Er.
    destruct (linalg_inv_raise _ _ _ _ E) as (-> & Hs & _).
    split; [reflexivity |]. split; [exact Hs |]. split; [exact Er |].
    intros w. rewrite Er. discriminate.
  - intros Er.
    destruct (mvp_weights_past_checks lapack df Hpre)
      as [(w & Ew & _) | (_ & e & E)].
    + rewrite Ew in Er. discriminate.
    + split; [| exists e; exact E].
      exact (proj1 (proj2 (linalg_inv_raise _ _ _ _ E))).
  - intros j1 j2 H1 H2 Hne Hdup.
    pose proof (duplicate_columns_singular df j1 j2 H1 H2 Hne Hdup) as Hs.
    split; [exact Hs |]. intros E.
    exact (mvp_weights_singular lapack df Hpre Hs E).
Qed.

Lemma singular_covariance_error_witness :
  optimizer_preconditions duplicated_df /\
  linalg_inv zero_pivot_met (shape1 duplicated_df) (df_cov duplicated_df)
  = Raise (Exn LinAlgError "Singular matrix" None) /\
  calculate_mvp_weights zero_pivot_met duplicated_df
  = Raise singular_matrix_error.
Proof.
  assert (E : linalg_inv zero_pivot_met (shape1 duplicated_df)
                (df_cov duplicated_df)
              = Raise (Exn LinAlgError "Singular matrix" None))
    by (apply linalg_inv_zero_pivot;
        [exact duplicated_df_singular | reflexivity]).
  split; [exact duplicated_df_preconditions |].
  split; [exact E |].
  exact (proj1 (proj2 (proj2
           (proj1 (singular_covariance_error zero_pivot_met duplicated_df
                     duplicated_df_preconditions) _ E)))).
Defined.

(** *** Collinear columns *)

Lemma collinear_df_preconditions : optimizer_preconditions collinear_df.
Proof. repeat split; unfold shape0, shape1; simpl; lia. Qed.

Lemma collinear_df_cov (j l : nat) :
  (j < 2)%nat -> (l < 2)%nat ->
  df_cov collinear_df j l
  = match j, l with
    | O, O => 7 / 3
    | S O, S O => 21
    | _, _ => 7
    end.
Proof.
  intros Hj Hl.
  destruct j as [|[|j]]; try lia; destruct l as [|[|l]]; try lia;
    unfold df_cov, col_mean, cell_real; simpl; field.
Qed.

Lemma collinear_df_singular :
  ~ invertible (shape1 collinear_df) (df_cov collinear_df).
Proof.
  intros [B HB].
  change (shape1 collinear_df) with 2%nat in HB.
  destruct (HB 0%nat 0%nat) as [_ E0]; [lia | lia |].
  destruct (HB 0%nat 1%nat) as [_ E1]; [lia | lia |].
  unfold mat_mul, identity in E0, E1. cbn [sumR Nat.eqb] in E0, E1.
  rewrite !collinear_df_cov in E0, E1 by lia. lra.
Qed.

(** A singular covariance matrix is not always reported.  The second
    column of [collinear_df] is three times the first; when rounding leaves
    a determinant that is not zero, whatever its size, the call returns the
    weights 3/2 and -1/2. *)
Lemma collinear_columns_not_reported (eps : R) :
  eps <> 0 ->
  calculate_mvp_weights (pivot_rounded_to eps) collinear_df
  = Ok [(Str "AAPL", Fin (3 / 2)); (Str "GOOG", Fin (- (1 / 2)))].
Proof.
  intros Heps.
  rewrite (mvp_weights_run _ _ collinear_df_preconditions).
  unfold linalg_inv.
  destruct (excluded_middle_informative
              (invertible (shape1 collinear_df) (df_cov collinear_df)))
    as [H | _]; [destruct (collinear_df_singular H) |].
  unfold pivot_rounded_to. cbn [shape1 collinear_df df_columns length seq map combine].
  unfold mat_vec, dot, vec_mat, ones. cbn [sumR].
  rewrite !collinear_df_cov by lia.
  match goal with
  | |- context [fdiv (Fin _) (Fin ?d)] =>
      assert (Hd : d = 28 / (3 * eps)) by (field; exact Heps);
      rewrite Hd
  end.
  assert (Hne : 28 / (3 * eps) <> 0).
  { unfold Rdiv. apply Rmult_integral_contrapositive_currified; [lra |].
    apply Rinv_neq_0_compat.
    apply Rmult_integral_contrapositive_currified; [lra | exact Heps]. }
  rewrite !fdiv_Fin by exact Hne.
  apply f_equal.
  apply f_equal2; [apply f_equal, f_equal; field; exact Heps |].
  apply f_equal2; [apply f_equal, f_equal; field; exact Heps | reflexivity].
Qed.

(** *** The dimension check *)

(** C7: for a non-empty matrix without missing values and with at least two
    columns, as many rows as columns raise the ValueError that names the
    rows-must-exceed-columns constraint, while one row more passes the check:
    the call then returns weights, as it always does when the covariance
    matrix is invertible, or raises the singular-matrix error. *)
Theorem dimension_boundary (lapack : lapack_on_singular) (df : DataFrame) :
  df_empty df = false ->
  df_isnull_any df = false ->
  (2 <= shape1 df)%nat ->
  (shape0 df = shape1 df ->
   calculate_mvp_weights lapack df = Raise too_few_rows_error) /\
  (shape0 df = S (shape1 df) ->
   calculate_mvp_weights lapack df <> Raise too_few_rows_error /\
   (invertible (shape1 df) (df_cov df) ->
    exists w, calculate_mvp_weights lapack df = Ok w) /\
   ((exists w, calculate_mvp_weights lapack df = Ok w) \/
    calculate_mvp_weights lapack df = Raise singular_matrix_error)).
Proof.
  intros He Hn Hk. split.
  - intros E. unfold calculate_mvp_weights. rewrite He, Hn.
    replace (Nat.ltb (shape1 df) 2) with false
      by (symmetry; apply Nat.ltb_ge; exact Hk).
    rewrite E, Nat.leb_refl. reflexivity.
  - intros E.
    assert (Hpre : optimizer_preconditions df)
      by (repeat split; try assumption; lia).
    assert (Hcases : (exists w, calculate_mvp_weights lapack df = Ok w) \/
                     calculate_mvp_weights lapack df
                     = Raise singular_matrix_error).
    { destruct (mvp_weights_past_checks lapack df Hpre)
        as [(w & Ew & _) | (Er & _)];
        [left; exists w; exact Ew | right; exact Er]. }
    split; [| split; [| exact Hcases]].
    + destruct Hcases as [[w Ew] | Er]; [rewrite Ew | rewrite Er];
        discriminate.
    + intros Hinv.
      destruct (mvp_weights_ok lapack df Hpre Hinv) as (B & d & _ & _ & _ & Ew).
      eexists. exact Ew.
Qed.

Lemma dimension_boundary_witness :
  calculate_mvp_weights zero_pivot_met square_df = Raise too_few_rows_error /\
  exists w, calculate_mvp_weights zero_pivot_met sample_df = Ok w.
Proof.
  split.
  - apply (proj1 (dimension_boundary zero_pivot_met square_df
                    eq_refl eq_refl (le_n 2))).
    reflexivity.
  - apply (proj2 (dimension_boundary zero_pivot_met sample_df
                    eq_refl eq_refl (le_n 2)));
      [reflexivity | exact sample_df_invertible].
Defined.

End OptimizerProofs.

(** ** The Portfolio Compositor *)

Module CompositorProofs.
Import LinAlg OptimizerProofs.

Lemma label_eqb_eq (a b : label) : label_eqb a b = true <-> a = b.
Proof.
  destruct a, b; simpl; split; intros H; try discriminate;
    try (apply Z.eqb_eq in H; subst; reflexivity);
    try (apply String.eqb_eq in H; subst; reflexivity);
    try (injection H as ->; apply Z.eqb_refl);
    try (injection H as ->; apply String.eqb_refl).
Qed.

Lemma index_equals_eq (l1 l2 : list label) :
  index_equals l1 l2 = true <-> l1 = l2.
Proof.
  revert l2. induction l1 as [|a l1 IH]; intros [|b l2]; simpl;
    split; intros H; try reflexivity; try discriminate.
  - apply andb_true_iff in H as [Ha Hl].
    apply label_eqb_eq in Ha. apply IH in Hl. subst. reflexivity.
  - injection H as -> ->. apply andb_true_iff. split.
    + apply label_eqb_eq. reflexivity.
    + apply IH. reflexivity.
Qed.

Lemma label_mem_In (a : label) (l : list label) :
  In a l -> label_mem a l = true.
Proof.
  intros H. unfold label_mem. apply existsb_exists.
  exists a. split; [exact H | apply label_eqb_eq; reflexivity].
Qed.

Lemma index_union_self (l : list label) : index_union l l = l.
Proof.
  unfold index_union.
  assert (E : forall l', incl l' l ->
                filter (fun a => negb (label_mem a l)) l' = []).
  { induction l' as [|a l' IH]; intros Hi; simpl; [reflexivity |].
    rewrite (label_mem_In a l) by (apply Hi; left; reflexivity). simpl.
    apply IH. intros x Hx. apply Hi. right. exact Hx. }
  rewrite (E l (incl_refl l)). apply app_nil_r.
Qed.

(** The product of a frame with a series indexed by its columns keeps the
    frame's index. *)
Lemma df_dot_index (df : DataFrame) (w : Series) :
  s_index w = df_columns df ->
  exists r, df_dot df w = Ok r /\ s_index r = df_index df.
Proof.
  intros E. unfold df_dot. rewrite E, index_union_self, Nat.ltb_irrefl. simpl.
  eexists. split; [reflexivity |].
  unfold s_index. apply map_fst_combine.
  rewrite length_map, length_seq. reflexivity.
Qed.

(** The checks at the head of calculate_mvp_portfolio repeat two of the
    Optimizer's, so they pass whenever the weights were computed. *)
Lemma portfolio_run (lapack : lapack_on_singular)
    (matmul : DataFrame -> Series -> result Series)
    (df : DataFrame) (w : Series) :
  calculate_mvp_weights lapack df = Ok w ->
  calculate_mvp_portfolio_with lapack matmul df =
  match matmul df w with
  | Raise e => Raise e
  | Ok r => if negb (index_equals (df_index df) (s_index r))
            then Raise index_mismatch_error else Ok r
  end.
Proof.
  intros E. unfold calculate_mvp_portfolio_with.
  assert (He : df_empty df = false).
  { destruct (df_empty df) eqn:H; [| reflexivity].
    unfold calculate_mvp_weights in E. rewrite H in E. discriminate. }
  assert (Hn : df_isnull_any df = false).
  { destruct (df_isnull_any df) eqn:H; [| reflexivity].
    unfold calculate_mvp_weights in E. rewrite He, H in E. discriminate. }
  rewrite He, Hn, E. reflexivity.
Qed.

(** C3: whatever the matrix product does, a series returned by
    calculate_mvp_portfolio carries the index of the input, same labels in
    the same order, and a product whose index differs makes the call raise
    the index-mismatch error instead of returning; with the pandas product
    the call succeeds on every valid matrix with an invertible covariance
    matrix. *)
Theorem portfolio_index_preserved :
  (forall lapack matmul df s,
      calculate_mvp_portfolio_with lapack matmul df = Ok s ->
      s_index s = df_index df) /\
  (forall lapack matmul df w r,
      calculate_mvp_weights lapack df = Ok w ->
      matmul df w = Ok r ->
      s_index r <> df_index df ->
      calculate_mvp_portfolio_with lapack matmul df
      = Raise index_mismatch_error) /\
  (forall lapack df,
      optimizer_preconditions df ->
      invertible (shape1 df) (df_cov df) ->
      exists s, calculate_mvp_portfolio lapack df = Ok s /\
                s_index s = df_index df).
Proof.
  split; [| split].
  - intros lapack matmul df s. unfold calculate_mvp_portfolio_with.
    destruct (df_empty df); [discriminate |].
    destruct (df_isnull_any df); [discriminate |].
    destruct (calculate_mvp_weights lapack df) as [w | e]; simpl;
      [| discriminate].
    destruct (matmul df w) as [r | e]; simpl; [| discriminate].
    destruct (index_equals (df_index df) (s_index r)) eqn:Ei; simpl;
      [| discriminate].
    intros H. injection H as <-. symmetry. apply index_equals_eq. exact Ei.
  - intros lapack matmul df w r Ew Er Hne.
    rewrite (portfolio_run lapack matmul df w Ew), Er.
    destruct (index_equals (df_index df) (s_index r)) eqn:Ei; [| reflexivity].
    apply index_equals_eq in Ei. exfalso. apply Hne. symmetry. exact Ei.
  - intros lapack df Hpre Hinv.
    destruct (mvp_weights_ok lapack df Hpre Hinv) as (B & d & _ & _ & _ & Ew).
    match type of Ew with _ = Ok ?w =>
      assert (Hw : s_index w = df_columns df)
        by (apply map_fst_combine; rewrite length_weights; reflexivity);
      destruct (df_dot_index df w Hw) as (r & Er & Ei)
    end.
    exists r. split; [| exact Ei].
    unfold calculate_mvp_portfolio.
    rewrite (portfolio_run lapack df_dot df _ Ew), Er.
    replace (index_equals (df_index df) (s_index r)) with true
      by (symmetry; apply index_equals_eq; symmetry; exact Ei).
    reflexivity.
Qed.

Lemma portfolio_index_preserved_witness :
  (exists s, calculate_mvp_portfolio zero_pivot_met sample_df = Ok s /\
             s_index s = [Date 1; Date 2; Date 3]) /\
  calculate_mvp_portfolio_with zero_pivot_met broken_matmul sample_df
  = Raise index_mismatch_error.
Proof.
  split.
  - exact (proj2 (proj2 portfolio_index_preserved) zero_pivot_met sample_df
             sample_df_preconditions sample_df_invertible).
  - destruct (mvp_weights_ok zero_pivot_met sample_df sample_df_preconditions
                sample_df_invertible) as (B & d & _ & _ & _ & Ew).
    apply (proj1 (proj2 portfolio_index_preserved) zero_pivot_met
             broken_matmul sample_df _ [] Ew eq_refl).
    discriminate.
Defined.

End CompositorProofs.

(** ** The Statistics Engine *)

Module StatisticsProofs.

Lemma ascii_lower_idem (c : ascii) : ascii_lower (ascii_lower c) = ascii_lower c.
Proof. destruct c as [[] [] [] [] [] [] [] []]; reflexivity. Qed.

Lemma str_lower_idem (s : string) : str_lower (str_lower s) = str_lower s.
Proof.
  induction s as [|c s IH]; simpl; [reflexivity |].
  rewrite ascii_lower_idem, IH. reflexivity.
Qed.

Lemma recognized_factor (interval : string) :
  recognized_frequency interval ->
  exists f, dict_get valid_interval_factors (str_lower interval) = Some f /\
            (0 < IZR f).
Proof.
  unfold recognized_frequency. intros [H | [H | [H | []]]]; rewrite <- H.
  - exists 252%Z. split; [reflexivity | lra].
  - exists 12%Z. split; [reflexivity | lra].
  - exists 1%Z. split; [reflexivity | lra].
Qed.

Lemma nonempty_length {A : Type} (l : list A) :
  l <> [] -> Nat.eqb (length l) 0 = false.
Proof. destruct l; [contradiction | reflexivity]. Qed.

(** Past its three checks, calculate_portfolio_statistics is the record of
    the seven computed values. *)
Lemma statistics_run (s : Series) (interval : string) (f : Z) :
  s <> [] ->
  forallb isfinite (s_values s) = true ->
  dict_get valid_interval_factors (str_lower interval) = Some f ->
  calculate_portfolio_statistics s interval =
  let vs := s_values s in
  let vol := fmul (series_std vs) (fsqrt (Fin (IZR f))) in
  let cum := cumprod (map (fadd (Fin 1)) vs) in
  Ok {| mean_return := series_mean vs;
        annualized_return := fmul (series_mean vs) (Fin (IZR f));
        std_dev := series_std vs;
        annualized_volatility := vol;
        sharpe_ratio :=
          if feqb vol (Fin 0) then NaN
          else fdiv (fmul (series_mean vs) (Fin (IZR f))) vol;
        cumulative_return := fsub (last cum NaN) (Fin 1);
        max_drawdown :=
          series_min (map (fun cm => fsub (fdiv (fst cm) (snd cm)) (Fin 1))
                          (combine cum (cummax cum))) |}.
Proof.
  intros Hne Hfin Hf. unfold calculate_portfolio_statistics.
  rewrite (nonempty_length s Hne), Hfin, Hf. reflexivity.
Qed.

Lemma statistics_lower (s : Series) (interval : string) :
  calculate_portfolio_statistics s (str_lower interval)
  = calculate_portfolio_statistics s interval.
Proof.
  unfold calculate_portfolio_statistics. rewrite str_lower_idem. reflexivity.
Qed.

(** *** Finite series *)

Lemma finite_values (vs : list pyfloat) :
  forallb isfinite vs = true -> exists rs, vs = map Fin rs.
Proof.
  induction vs as [|v vs IH]; simpl; intros H.
  - exists []. reflexivity.
  - apply andb_true_iff in H as [Hv Hvs].
    destruct (IH Hvs) as [rs ->].
    destruct v as [r | | |]; try discriminate.
    exists (r :: rs). reflexivity.
Qed.

Lemma fold_fadd_Fin (rs : list R) (a : R) :
  fold_left fadd (map Fin rs) (Fin a) = Fin (fold_left Rplus rs a).
Proof.
  revert a. induction rs as [|r rs IH]; intros a; simpl; [reflexivity |].
  apply IH.
Qed.

Lemma fold_Rplus_nonneg (rs : list R) (a : R) :
  0 <= a -> (forall r, In r rs -> 0 <= r) -> 0 <= fold_left Rplus rs a.
Proof.
  revert a. induction rs as [|r rs IH]; intros a Ha H; simpl; [exact Ha |].
  apply IH.
  - assert (0 <= r) by (apply H; left; reflexivity). lra.
  - intros x Hx. apply H. right. exact Hx.
Qed.

Lemma INR_length_pos {A : Type} (l : list A) : l <> [] -> 0 < INR (length l).
Proof.
  intros H. apply lt_0_INR. destruct l; [contradiction | simpl; lia].
Qed.

Lemma series_mean_Fin (rs : list R) :
  rs <> [] ->
  series_mean (map Fin rs) = Fin (fold_left Rplus rs 0 / INR (length rs)).
Proof.
  intros H. unfold series_mean, fsum.
  rewrite fold_fadd_Fin, length_map. apply fdiv_Fin.
  pose proof (INR_length_pos rs H). lra.
Qed.

(** With at least two observations the sample standard deviation is a
    finite real; with one it is not a number. *)
Lemma series_std_Fin (rs : list R) :
  (2 <= length rs)%nat -> exists v, series_std (map Fin rs) = Fin v.
Proof.
  intros H. unfold series_std. rewrite length_map.
  replace (Nat.leb (length rs) 1) with false
    by (symmetry; apply Nat.leb_gt; lia).
  assert (Hne : rs <> []) by (destruct rs; [simpl in H; lia | discriminate]).
  rewrite (series_mean_Fin rs Hne).
  set (avg := fold_left Rplus rs 0 / INR (length rs)).
  rewrite map_map. simpl.
  rewrite <- (map_map (fun r => (avg + - r) * (avg + - r)) Fin).
  unfold fsum. rewrite fold_fadd_Fin.
  set (ss := fold_left Rplus (map (fun r => (avg + - r) * (avg + - r)) rs) 0).
  assert (Hss : 0 <= ss).
  { apply fold_Rplus_nonneg; [lra |].
    intros r Hr. apply in_map_iff in Hr as (x & <- & _). apply Rle_0_sqr. }
  assert (Hn : 1 < INR (length rs)).
  { replace 1 with (INR 1) by reflexivity. apply lt_INR. lia. }
  rewrite fdiv_Fin by lra. simpl.
  rewrite Rltb_false.
  - eexists. reflexivity.
  - apply Rle_not_lt. apply Rmult_le_pos; [exact Hss |].
    apply Rlt_le, Rinv_0_lt_compat. lra.
Qed.

Lemma series_std_single (vs : list pyfloat) :
  (length vs <= 1)%nat -> series_std vs = NaN.
Proof.
  intros H. unfold series_std.
  replace (Nat.leb (length vs) 1) with true
    by (symmetry; apply Nat.leb_le; exact H).
  reflexivity.
Qed.

Lemma fsqrt_factor (f : Z) : 0 < IZR f -> fsqrt (Fin (IZR f)) = Fin (sqrt (IZR f)).
Proof. intros H. simpl. rewrite Rltb_false by lra. reflexivity. Qed.

(** *** Volatility and the Sharpe ratio *)

Lemma volatility_cases (s : Series) (f : Z) :
  forallb isfinite (s_values s) = true -> 0 < IZR f ->
  let vol := fmul (series_std (s_values s)) (fsqrt (Fin (IZR f))) in
  ((length s <= 1)%nat -> vol = NaN) /\
  ((2 <= length s)%nat -> exists x, vol = Fin x).
Proof.
  intros Hfin Hf vol. subst vol.
  assert (El : length (s_values s) = length s) by apply length_map.
  split; intros H.
  - rewrite series_std_single by lia. reflexivity.
  - destruct (finite_values _ Hfin) as [rs Ers]. rewrite Ers in *.
    rewrite length_map in El.
    destruct (series_std_Fin rs) as [v ->]; [lia |].
    rewrite (fsqrt_factor f Hf). eexists. reflexivity.
Qed.

Lemma sharpe_cases (ret : R) (vol : pyfloat) :
  vol = NaN \/ (exists x, vol = Fin x) ->
  let sharpe := if feqb vol (Fin 0) then NaN else fdiv (Fin ret) vol in
  (sharpe = NaN <-> vol = Fin 0 \/ vol = NaN) /\
  (vol <> Fin 0 -> sharpe = fdiv (Fin ret) vol).
Proof.
  intros [-> | [x ->]]; simpl.
  - split; [split; auto | reflexivity].
  - destruct (Req_dec_T x 0) as [-> | Hx].
    + rewrite Reqb_true by reflexivity. split.
      * split; auto.
      * intros H. contradiction H. reflexivity.
    + rewrite Reqb_false by exact Hx. split.
      * split.
        -- discriminate.
        -- intros [H | H]; [apply Fin_inj in H; contradiction | discriminate].
      * reflexivity.
Qed.

(** C6, as stated, on a series of one observation: no error is raised, the
    Sharpe ratio is not a number, and yet the annualized volatility is not
    zero (it is not a number either). *)
Lemma sharpe_nan_single_observation :
  match calculate_portfolio_statistics one_point_series "monthly" with
  | Ok r => sharpe_ratio r = NaN /\ annualized_volatility r <> Fin 0
  | Raise _ => False
  end.
Proof.
  rewrite (statistics_run one_point_series "monthly" 12%Z);
    [| discriminate | reflexivity | reflexivity].
  simpl. rewrite fdiv_NaN_r. split; [reflexivity | discriminate].
Qed.

(** C6 (amended): under the Statistics Engine's preconditions no error is
    raised; the Sharpe ratio is not a number exactly when the annualized
    volatility is zero or is itself not a number, and equals
    annualized return / annualized volatility whenever the volatility is not
    zero; the volatility is not a number exactly for a series of a single
    observation. *)
Theorem sharpe_ratio_nan_iff (s : Series) (interval : string) :
  statistics_preconditions s interval ->
  exists r,
    calculate_portfolio_statistics s interval = Ok r /\
    (sharpe_ratio r = NaN <->
     annualized_volatility r = Fin 0 \/ annualized_volatility r = NaN) /\
    (annualized_volatility r <> Fin 0 ->
     sharpe_ratio r = fdiv (annualized_return r) (annualized_volatility r)) /\
    (annualized_volatility r = NaN <-> length s = 1%nat).
Proof.
  intros (Hne & Hfin & Hrec).
  destruct (recognized_factor interval Hrec) as (f & Hf & Hpos).
  rewrite (statistics_run s interval f Hne Hfin Hf). cbv zeta.
  eexists. split; [reflexivity |].
  cbn [annualized_volatility sharpe_ratio annualized_return].
  destruct (volatility_cases s f Hfin Hpos) as [V1 V2].
  destruct (finite_values _ Hfin) as [rs Ers].
  assert (Hrs : rs <> []).
  { intros ->. destruct s; [contradiction | discriminate]. }
  assert (Eret : fmul (series_mean (s_values s)) (Fin (IZR f))
                 = Fin (fold_left Rplus rs 0 / INR (length rs) * IZR f)).
  { rewrite Ers, (series_mean_Fin rs Hrs). reflexivity. }
  rewrite Eret.
  set (vol := fmul (series_std (s_values s)) (fsqrt (Fin (IZR f)))) in *.
  assert (Hlen : (length s <= 1 \/ 2 <= length s)%nat) by lia.
  assert (Hvol : vol = NaN \/ (exists x, vol = Fin x))
    by (destruct Hlen; [left | right]; auto).
  destruct (sharpe_cases (fold_left Rplus rs 0 / INR (length rs) * IZR f)
              vol Hvol) as [S1 S2].
  split; [exact S1 | split; [exact S2 |]].
  split.
  - intros E. destruct Hlen as [H1 | H2].
    + destruct s; [contradiction | simpl in *; lia].
    + destruct (V2 H2) as [x Ex]. rewrite Ex in E. discriminate.
  - intros E. apply V1. lia.
Qed.

Lemma sharpe_ratio_nan_iff_witness :
  statistics_preconditions two_point_series "Monthly" /\
  exists r,
    calculate_portfolio_statistics two_point_series "Monthly" = Ok r /\
    (sharpe_ratio r = NaN <->
     annualized_volatility r = Fin 0 \/ annualized_volatility r = NaN) /\
    (annualized_volatility r <> Fin 0 ->
     sharpe_ratio r = fdiv (annualized_return r) (annualized_volatility r)) /\
    (annualized_volatility r = NaN <-> length two_point_series = 1%nat).
Proof.
  assert (H : statistics_preconditions two_point_series "Monthly").
  { split; [discriminate | split; [reflexivity |]].
    right. left. reflexivity. }
  split; [exact H |].
  exact (sharpe_ratio_nan_iff two_point_series "Monthly" H).
Defined.

(** *** Constant-zero series *)

Lemma fold_left_repeat_fix {A : Type} (op : A -> A -> A) (a x : A) (n : nat) :
  op a x = a -> fold_left op (repeat x n) a = a.
Proof.
  intros H. induction n as [|n IH]; simpl; [reflexivity |].
  rewrite H. exact IH.
Qed.

Lemma combine_repeat {A B : Type} (a : A) (b : B) (n : nat) :
  combine (repeat a n) (repeat b n) = repeat (a, b) n.
Proof. induction n as [|n IH]; simpl; [reflexivity | rewrite IH; reflexivity]. Qed.

Lemma last_repeat {A : Type} (a d : A) (n : nat) :
  last (repeat a (S n)) d = a.
Proof. induction n as [|n IH]; [reflexivity | exact IH]. Qed.

Lemma zero_values (s : Series) :
  (forall v, In v (s_values s) -> v = Fin 0) ->
  s_values s = repeat (Fin 0) (length s).
Proof.
  unfold s_values. induction s as [|[d v] s IH]; intros H; simpl; [reflexivity |].
  rewrite (H v) by (left; reflexivity).
  f_equal. apply IH. intros x Hx. apply H. right. exact Hx.
Qed.

Lemma zeros_mean (n : nat) : series_mean (repeat (Fin 0) (S n)) = Fin 0.
Proof.
  unfold series_mean, fsum.
  rewrite fold_left_repeat_fix by (simpl; rewrite Rplus_0_l; reflexivity).
  rewrite repeat_length, fdiv_Fin.
  - unfold Rdiv. rewrite Rmult_0_l. reflexivity.
  - apply not_0_INR. discriminate.
Qed.

Lemma zeros_std (n : nat) : series_std (repeat (Fin 0) (S (S n))) = Fin 0.
Proof.
  unfold series_std. rewrite repeat_length. cbn [Nat.leb].
  rewrite zeros_mean, map_repeat.
  replace (fmul (fsub (Fin 0) (Fin 0)) (fsub (Fin 0) (Fin 0))) with (Fin 0)
    by (simpl; f_equal; ring).
  unfold fsum.
  rewrite fold_left_repeat_fix by (simpl; rewrite Rplus_0_l; reflexivity).
  rewrite fdiv_Fin.
  - unfold Rdiv. rewrite Rmult_0_l. simpl.
    rewrite Rltb_false by lra. rewrite sqrt_0. reflexivity.
  - rewrite S_INR, S_INR. pose proof (pos_INR n). lra.
Qed.

Lemma cum_skipna_fix (op : pyfloat -> pyfloat -> pyfloat) (a : pyfloat) (n : nat) :
  isnan a = false -> op a a = a -> cum_skipna op a (repeat a n) = repeat a n.
Proof.
  intros Ha H. induction n as [|n IH]; simpl; [reflexivity |].
  rewrite Ha, H, IH. reflexivity.
Qed.

Lemma zeros_cumprod (n : nat) :
  cumprod (map (fadd (Fin 1)) (repeat (Fin 0) n)) = repeat (Fin 1) n.
Proof.
  rewrite map_repeat.
  replace (fadd (Fin 1) (Fin 0)) with (Fin 1) by (simpl; f_equal; ring).
  apply cum_skipna_fix; [reflexivity | simpl; f_equal; ring].
Qed.

Lemma fmax_same (a : pyfloat) : fmax a a = a.
Proof. unfold fmax. destruct (fltb a a); reflexivity. Qed.

Lemma fmin_same (a : pyfloat) : fmin a a = a.
Proof. unfold fmin. destruct (fltb a a); reflexivity. Qed.

Lemma ones_cummax (n : nat) : cummax (repeat (Fin 1) n) = repeat (Fin 1) n.
Proof.
  destruct n as [|n]; [reflexivity |].
  unfold cummax. simpl. f_equal.
  apply cum_skipna_fix; [reflexivity | apply fmax_same].
Qed.

Lemma zeros_min (n : nat) : series_min (repeat (Fin 0) (S n)) = Fin 0.
Proof.
  unfold series_min. simpl.
  assert (E : filter (fun x => negb (isnan x)) (repeat (Fin 0) n)
              = repeat (Fin 0) n).
  { induction n as [|n IH]; simpl; [reflexivity | rewrite IH; reflexivity]. }
  rewrite E. apply fold_left_repeat_fix. apply fmin_same.
Qed.

(** The record computed on a series of [n + 1] zeros. *)
Lemma zeros_statistics (s : Series) (interval : string) (n : nat) :
  length s = S n ->
  (forall v, In v (s_values s) -> v = Fin 0) ->
  recognized_frequency interval ->
  calculate_portfolio_statistics s interval =
  Ok {| mean_return := Fin 0;
        annualized_return := Fin 0;
        std_dev := match n with O => NaN | S _ => Fin 0 end;
        annualized_volatility := match n with O => NaN | S _ => Fin 0 end;
        sharpe_ratio := NaN;
        cumulative_return := Fin 0;
        max_drawdown := Fin 0 |}.
Proof.
  intros Hlen Hz Hrec.
  destruct (recognized_factor interval Hrec) as (f & Hf & Hpos).
  pose proof (zero_values s Hz) as Ev. rewrite Hlen in Ev.
  assert (Hne : s <> []) by (intros ->; discriminate).
  assert (Hfin : forallb isfinite (s_values s) = true).
  { rewrite Ev. apply forallb_forall. intros x Hx.
    apply repeat_spec in Hx. subst. reflexivity. }
  rewrite (statistics_run s interval f Hne Hfin Hf). cbv zeta.
  rewrite Ev, zeros_mean, zeros_cumprod, ones_cummax, combine_repeat,
    map_repeat, last_repeat.
  cbn [fst snd].
  replace (fsub (fdiv (Fin 1) (Fin 1)) (Fin 1)) with (Fin 0)
    by (rewrite fdiv_Fin by lra; simpl; f_equal; field).
  rewrite zeros_min.
  replace (fmul (Fin 0) (Fin (IZR f))) with (Fin 0) by (simpl; f_equal; ring).
  replace (fsub (Fin 1) (Fin 1)) with (Fin 0) by (simpl; f_equal; ring).
  rewrite (fsqrt_factor f Hpos).
  destruct n as [|n].
  - rewrite series_std_single by (simpl; lia). reflexivity.
  - rewrite zeros_std.
    replace (fmul (Fin 0) (Fin (sqrt (IZR f)))) with (Fin 0)
      by (simpl; f_equal; ring).
    simpl. rewrite Reqb_true by reflexivity. reflexivity.
Qed.

(** C5, as stated, on the series of a single zero: the standard deviation
    and the annualized volatility returned are not a number, not zero. *)
Lemma zero_series_single_observation :
  match calculate_portfolio_statistics zero_series_1 "monthly" with
  | Ok r => std_dev r = NaN /\ annualized_volatility r = NaN /\
            std_dev r <> Fin 0
  | Raise _ => False
  end.
Proof.
  rewrite (zeros_statistics zero_series_1 "monthly" 0).
  - simpl. repeat split. discriminate.
  - reflexivity.
  - intros v [<- | []]. reflexivity.
  - right. left. reflexivity.
Qed.

(** C5 (amended): on a constant-zero series of at least two observations,
    with any recognized frequency, the mean, the annualized return, the
    standard deviation, the annualized volatility, the cumulative return and
    the maximum drawdown are 0 and the Sharpe ratio is not a number; on a
    single zero the standard deviation and the annualized volatility are not
    a number, the other fields being the same. *)
Theorem zero_series_statistics (s : Series) (interval : string) :
  s <> [] ->
  (forall v, In v (s_values s) -> v = Fin 0) ->
  recognized_frequency interval ->
  calculate_portfolio_statistics s interval =
  Ok {| mean_return := Fin 0;
        annualized_return := Fin 0;
        std_dev := if Nat.eqb (length s) 1 then NaN else Fin 0;
        annualized_volatility := if Nat.eqb (length s) 1 then NaN else Fin 0;
        sharpe_ratio := NaN;
        cumulative_return := Fin 0;
        max_drawdown := Fin 0 |}.
Proof.
  intros Hne Hz Hrec.
  destruct (length s) as [|n] eqn:Hlen.
  - destruct s; [contradiction | discriminate].
  - rewrite (zeros_statistics s interval n Hlen Hz Hrec).
    destruct n; reflexivity.
Qed.

Lemma zero_series_statistics_witness :
  calculate_portfolio_statistics zero_series_3 "Daily" =
  Ok {| mean_return := Fin 0;
        annualized_return := Fin 0;
        std_dev := Fin 0;
        annualized_volatility := Fin 0;
        sharpe_ratio := NaN;
        cumulative_return := Fin 0;
        max_drawdown := Fin 0 |}.
Proof.
  apply (zero_series_statistics zero_series_3 "Daily").
  - discriminate.
  - intros v [<- | [<- | [<- | []]]]; reflexivity.
  - left. reflexivity.
Defined.

(** *** The side-by-side comparison *)

(** C10: for two non-empty finite series and a recognized frequency,
    compare_portfolio_with_market_benchmark raises a ValueError when the two
    indices share no date; when they share one it prints the record of
    calculate_portfolio_statistics on the whole portfolio series and the
    one on the whole benchmark series: neither series is restricted to the
    common dates. *)
Theorem compare_uses_full_series (p m : Series) (interval : string) :
  statistics_preconditions p interval ->
  statistics_preconditions m interval ->
  (index_intersection (s_index p) (s_index m) = [] ->
   compare_portfolio_with_market_benchmark p m interval = Raise no_overlap_error) /\
  (index_intersection (s_index p) (s_index m) <> [] ->
   exists sp sm,
     calculate_portfolio_statistics p interval = Ok sp /\
     calculate_portfolio_statistics m interval = Ok sm /\
     compare_portfolio_with_market_benchmark p m interval =
     Ok [Printed "Minimum Variance Portfolio" sp; Printed "Market Benchmark" sm]).
Proof.
  intros (Hp & Fp & Hrec) (Hm & Fm & _).
  unfold compare_portfolio_with_market_benchmark.
  rewrite (nonempty_length p Hp), (nonempty_length m Hm), Fp, Fm.
  cbn [orb negb]. split.
  - intros ->. reflexivity.
  - intros Hi.
    destruct (recognized_factor interval Hrec) as (f & Hf & Hpos).
    pose proof (statistics_run p interval f Hp Fp Hf) as Ep.
    pose proof (statistics_run m interval f Hm Fm Hf) as Em.
    cbv zeta in Ep, Em.
    eexists. eexists. split; [exact Ep | split; [exact Em |]].
    rewrite (nonempty_length _ Hi), Hf.
    rewrite !statistics_lower, Ep, Em. reflexivity.
Qed.

Lemma two_point_preconditions :
  statistics_preconditions two_point_series "monthly".
Proof.
  split; [discriminate | split; [reflexivity |]]. right. left. reflexivity.
Qed.

Lemma late_preconditions : statistics_preconditions late_series "monthly".
Proof.
  split; [discriminate | split; [reflexivity |]]. right. left. reflexivity.
Qed.

Lemma compare_uses_full_series_witness :
  exists sp sm,
    calculate_portfolio_statistics two_point_series "monthly" = Ok sp /\
    calculate_portfolio_statistics late_series "monthly" = Ok sm /\
    compare_portfolio_with_market_benchmark two_point_series late_series "monthly" =
    Ok [Printed "Minimum Variance Portfolio" sp; Printed "Market Benchmark" sm].
Proof.
  apply (proj2 (compare_uses_full_series two_point_series late_series "monthly"
                  two_point_preconditions late_preconditions)).
  simpl. discriminate.
Defined.

(** On these two series the mean printed for the portfolio, 0.05, is the
    one of both observations; restricted to the common date it would be 0. *)
Lemma compare_not_restricted_example :
  let common := index_intersection (s_index two_point_series)
                                   (s_index late_series) in
  restrict_to common two_point_series = [(Date 2, Fin 0)] /\
  series_mean (s_values two_point_series) = Fin (1 / 20) /\
  series_mean (s_values (restrict_to common two_point_series)) = Fin 0.
Proof.
  split; [reflexivity |]. split.
  - change (s_values two_point_series) with (map Fin [1 / 10; 0]).
    rewrite series_mean_Fin by discriminate. simpl. f_equal. field.
  - change (series_mean (map Fin [0]) = Fin 0).
    rewrite series_mean_Fin by discriminate. simpl. f_equal. field.
Qed.

End StatisticsProofs.

(** ** The Factor Regression Engine *)

Module RegressionProofs.
Import StatisticsProofs.

(** Past the checks on its two series and with the factor table read,
    factor_analysis_regression is decided by the row count of the join. *)
Lemma regression_run (table : FactorTable)
    (ols_fit : list regressors -> list pyfloat -> result Series)
    (p m : Series) (log : bool) :
  regression_inputs_pass p m ->
  factor_analysis_regression (Ok table) ols_fit p m log =
  let final_df := regression_final_df p m table in
  if Nat.ltb (length final_df) 5 then ([ReadFactorData], Raise not_enough_rows_error)
  else
    match ols_fit (design_of final_df) (response_of final_df) with
    | Raise e =>
        ([ReadFactorData; FitOLS (design_of final_df) (response_of final_df)],
         Raise (Exn RuntimeError
                  ("Failed to fit OLS regression model: " ++ exn_msg e) (Some e)))
    | Ok params =>
        ([ReadFactorData; FitOLS (design_of final_df) (response_of final_df)]
           ++ (if log then [LogSummary] else []),
         Ok (filter (fun kv => negb (label_eqb (fst kv) (Str "const"))) params))
    end.
Proof.
  intros (Hp & Hm & Dp & Dm & Hi & Hn).
  unfold factor_analysis_regression.
  rewrite (nonempty_length p Hp), (nonempty_length m Hm), Dp, Dm,
    (nonempty_length _ Hi), Hn.
  reflexivity.
Qed.

(** C8: for inputs that pass the earlier checks, a join with the factor
    table of exactly 5 rows reaches the OLS fit, on the design and response
    built from those rows, and the outcome is the one of the fit; a join of
    4 rows or fewer raises the ValueError for too few data points, and no
    fit is attempted. *)
Theorem regression_row_boundary (table : FactorTable)
    (ols_fit : list regressors -> list pyfloat -> result Series)
    (p m : Series) (log : bool) :
  regression_inputs_pass p m ->
  let final_df := regression_final_df p m table in
  let run := factor_analysis_regression (Ok table) ols_fit p m log in
  (length final_df = 5%nat ->
   In (FitOLS (design_of final_df) (response_of final_df)) (fst run) /\
   snd run =
   match ols_fit (design_of final_df) (response_of final_df) with
   | Raise e =>
       Raise (Exn RuntimeError
                ("Failed to fit OLS regression model: " ++ exn_msg e) (Some e))
   | Ok params =>
       Ok (filter (fun kv => negb (label_eqb (fst kv) (Str "const"))) params)
   end) /\
  ((length final_df <= 4)%nat ->
   run = ([ReadFactorData], Raise not_enough_rows_error) /\
   forall X y, ~ In (FitOLS X y) (fst run)).
Proof.
  intros Hpass final_df run. subst run.
  rewrite (regression_run table ols_fit p m log Hpass). cbv zeta.
  fold final_df. split.
  - intros E. rewrite E. cbn [Nat.ltb Nat.leb].
    destruct (ols_fit (design_of final_df) (response_of final_df));
      split; try reflexivity; simpl; auto.
  - intros H.
    replace (Nat.ltb (length final_df) 5) with true
      by (symmetry; apply Nat.ltb_lt; lia).
    split; [reflexivity |].
    intros X y [F | []]. discriminate.
Qed.

Lemma flat_inputs_pass :
  regression_inputs_pass (flat_series 5 (1 / 100)) (flat_series 5 (2 / 100)).
Proof.
  repeat split; try discriminate; try reflexivity.
Qed.

Lemma regression_row_boundary_witness :
  (In (FitOLS (design_of (regression_final_df (flat_series 5 (1 / 100))
                            (flat_series 5 (2 / 100)) (flat_table 5)))
              (response_of (regression_final_df (flat_series 5 (1 / 100))
                              (flat_series 5 (2 / 100)) (flat_table 5))))
      (fst (factor_analysis_regression (Ok (flat_table 5)) constant_fit
              (flat_series 5 (1 / 100)) (flat_series 5 (2 / 100)) true)) /\
   snd (factor_analysis_regression (Ok (flat_table 5)) constant_fit
          (flat_series 5 (1 / 100)) (flat_series 5 (2 / 100)) true)
   = Ok [(Str "Mkt_rf", Fin 1); (Str "SMB", Fin 0);
         (Str "HML", Fin 0); (Str "Mom", Fin 0)]) /\
  factor_analysis_regression (Ok (flat_table 4)) constant_fit
    (flat_series 5 (1 / 100)) (flat_series 5 (2 / 100)) true
  = ([ReadFactorData], Raise not_enough_rows_error).
Proof.
  split.
  - exact (proj1 (regression_row_boundary (flat_table 5) constant_fit
                    (flat_series 5 (1 / 100)) (flat_series 5 (2 / 100)) true
                    flat_inputs_pass) eq_refl).
  - apply (proj2 (regression_row_boundary (flat_table 4) constant_fit
                    (flat_series 5 (1 / 100)) (flat_series 5 (2 / 100)) true
                    flat_inputs_pass)).
    simpl. lia.
Defined.

End RegressionProofs.

(** * Further properties of the sources *)

(** ** factor_analysis_regression *)

Module RegressionExtras.
Import CompositorProofs StatisticsProofs RegressionProofs.

Lemma label_mem_false (a : label) (l : list label) :
  ~ In a l -> label_mem a l = false.
Proof.
  intros H. unfold label_mem.
  destruct (existsb (label_eqb a) l) eqn:E; [| reflexivity].
  apply existsb_exists in E as (b & Hb & Eb).
  apply label_eqb_eq in Eb. subst. contradiction.
Qed.

Lemma label_mem_true (a : label) (l : list label) :
  label_mem a l = true -> In a l.
Proof.
  unfold label_mem. intros E.
  apply existsb_exists in E as (b & Hb & Eb).
  apply label_eqb_eq in Eb. subst. exact Hb.
Qed.

Lemma s_get_missing (s : Series) (a : label) :
  ~ In a (s_index s) -> s_get s a = NaN.
Proof.
  induction s as [|[b v] s IH]; simpl; intros H; [reflexivity |].
  destruct (label_eqb a b) eqn:E.
  - apply label_eqb_eq in E. subst. exfalso. apply H. left. reflexivity.
  - apply IH. intros Hin. apply H. right. exact Hin.
Qed.

Lemma in_index_union (a : label) (l1 l2 : list label) :
  In a l1 \/ In a l2 -> In a (index_union l1 l2).
Proof.
  unfold index_union. intros H. apply in_or_app.
  destruct (label_mem a l1) eqn:E.
  - left. apply label_mem_true. exact E.
  - right. apply filter_In. rewrite E. split; [| reflexivity].
    destruct H as [H | H]; [| exact H].
    apply label_mem_In in H. congruence.
Qed.

Lemma length_nonempty {A : Type} (l : list A) :
  Nat.eqb (length l) 0 = false -> l <> [].
Proof. destruct l; [discriminate | discriminate]. Qed.

(** The checks on the two series come first: when one of them fails,
    nothing outside the function has been called, the factor files have not
    been read, and the exception is a ValueError or a TypeError raised by
    the function itself. *)
Theorem regression_precheck_before_any_call
    (create_factor_dataset : result FactorTable)
    (ols_fit : list regressors -> list pyfloat -> result Series)
    (p m : Series) (log : bool) :
  ~ regression_inputs_pass p m ->
  exists e,
    factor_analysis_regression create_factor_dataset ols_fit p m log
    = ([], Raise e) /\
    (exn_cls e = ValueError \/ exn_cls e = TypeError) /\
    exn_context e = None.
Proof.
  intros Hfail. unfold factor_analysis_regression.
  destruct (Nat.eqb (length p) 0 || Nat.eqb (length m) 0) eqn:E1;
    [eexists; split; [reflexivity | split; [left; reflexivity | reflexivity]] |].
  destruct (negb (is_datetime_index (s_index p))
            || negb (is_datetime_index (s_index m))) eqn:E2;
    [eexists; split; [reflexivity | split; [right; reflexivity | reflexivity]] |].
  destruct (Nat.eqb (length (index_intersection (s_index p) (s_index m))) 0) eqn:E3;
    [eexists; split; [reflexivity | split; [left; reflexivity | reflexivity]] |].
  destruct (existsb (fun r => isnan (fst (snd r)) || isnan (snd (snd r)))
                    (concat_axis1 p m)) eqn:E4;
    [eexists; split; [reflexivity | split; [left; reflexivity | reflexivity]] |].
  exfalso. apply Hfail.
  apply orb_false_iff in E1 as [E1a E1b].
  apply orb_false_iff in E2 as [E2a E2b].
  apply negb_false_iff in E2a. apply negb_false_iff in E2b.
  repeat split; try assumption; apply length_nonempty; assumption.
Qed.

Lemma regression_precheck_before_any_call_witness :
  ~ regression_inputs_pass series_2020 series_2021 /\
  exists e,
    factor_analysis_regression (Ok (flat_table 5)) constant_fit
      series_2020 series_2021 true = ([], Raise e) /\
    (exn_cls e = ValueError \/ exn_cls e = TypeError) /\
    exn_context e = None.
Proof.
  assert (H : ~ regression_inputs_pass series_2020 series_2021).
  { intros (_ & _ & _ & _ & Hi & _). apply Hi. reflexivity. }
  split; [exact H |].
  exact (regression_precheck_before_any_call (Ok (flat_table 5)) constant_fit
           series_2020 series_2021 true H).
Defined.

(** The two series are joined on the union of their dates, so a date that
    only one of them has leaves a missing value: two non-empty datetime
    series that overlap but do not have the same dates are rejected with the
    missing-values ValueError, before the factor files are read. *)
Theorem regression_rejects_unequal_dates
    (create_factor_dataset : result FactorTable)
    (ols_fit : list regressors -> list pyfloat -> result Series)
    (p m : Series) (log : bool) (d : label) :
  p <> [] -> m <> [] ->
  is_datetime_index (s_index p) = true ->
  is_datetime_index (s_index m) = true ->
  index_intersection (s_index p) (s_index m) <> [] ->
  (In d (s_index p) /\ ~ In d (s_index m)) \/
  (In d (s_index m) /\ ~ In d (s_index p)) ->
  factor_analysis_regression create_factor_dataset ols_fit p m log
  = ([], Raise missing_values_error).
Proof.
  intros Hp Hm Dp Dm Hi Hd. unfold factor_analysis_regression.
  rewrite (nonempty_length p Hp), (nonempty_length m Hm), Dp, Dm,
    (nonempty_length _ Hi).
  cbn [orb negb].
  replace (existsb (fun r => isnan (fst (snd r)) || isnan (snd (snd r)))
                   (concat_axis1 p m)) with true; [reflexivity |].
  symmetry. apply existsb_exists.
  exists (d, (s_get p d, s_get m d)). split.
  - unfold concat_axis1.
    apply (in_map (fun d => (d, (s_get p d, s_get m d)))).
    apply in_index_union. tauto.
  - cbn [fst snd]. destruct Hd as [[_ H] | [_ H]];
      rewrite (s_get_missing _ _ H); [apply orb_true_r | reflexivity].
Qed.

Lemma regression_rejects_unequal_dates_witness :
  factor_analysis_regression (Ok (flat_table 5)) constant_fit
    (flat_series 5 (1 / 100)) (flat_series 6 (2 / 100)) true
  = ([], Raise missing_values_error).
Proof.
  apply (regression_rejects_unequal_dates _ _ _ _ _ (Date 6));
    try discriminate; try reflexivity.
  right. split.
  - simpl. tauto.
  - simpl. intuition discriminate.
Defined.

(** Past the checks on the series, a failure to build the factor table is
    passed on unchanged without any fit, and a failure of the fit on five
    rows or more is wrapped in a RuntimeError that quotes its message and
    keeps it as context; the summary is not logged then. *)
Theorem regression_failures_propagate
    (ols_fit : list regressors -> list pyfloat -> result Series)
    (p m : Series) (log : bool) :
  regression_inputs_pass p m ->
  (forall e,
      factor_analysis_regression (Raise e) ols_fit p m log
      = ([ReadFactorData], Raise e)) /\
  (forall table e,
      let final_df := regression_final_df p m table in
      (5 <= length final_df)%nat ->
      ols_fit (design_of final_df) (response_of final_df) = Raise e ->
      factor_analysis_regression (Ok table) ols_fit p m log
      = ([ReadFactorData; FitOLS (design_of final_df) (response_of final_df)],
         Raise (Exn RuntimeError
                  ("Failed to fit OLS regression model: " ++ exn_msg e)
                  (Some e)))).
Proof.
  intros Hpass. split.
  - intros e. destruct Hpass as (Hp & Hm & Dp & Dm & Hi & Hn).
    unfold factor_analysis_regression.
    rewrite (nonempty_length p Hp), (nonempty_length m Hm), Dp, Dm,
      (nonempty_length _ Hi), Hn.
    reflexivity.
  - intros table e final_df Hlen Hfit.
    rewrite (regression_run table ols_fit p m log Hpass). cbv zeta.
    fold final_df.
    replace (Nat.ltb (length final_df) 5) with false
      by (symmetry; apply Nat.ltb_ge; exact Hlen).
    rewrite Hfit. reflexivity.
Qed.

Lemma regression_failures_propagate_witness :
  factor_analysis_regression (Ok (flat_table 5)) failing_fit
    (flat_series 5 (1 / 100)) (flat_series 5 (2 / 100)) true
  = ([ReadFactorData;
      FitOLS (design_of (regression_final_df (flat_series 5 (1 / 100))
                           (flat_series 5 (2 / 100)) (flat_table 5)))
             (response_of (regression_final_df (flat_series 5 (1 / 100))
                             (flat_series 5 (2 / 100)) (flat_table 5)))],
     Raise (Exn RuntimeError
              "Failed to fit OLS regression model: SVD did not converge"
              (Some (Exn OtherError "SVD did not converge" None)))).
Proof.
  apply (proj2 (regression_failures_propagate failing_fit
                  (flat_series 5 (1 / 100)) (flat_series 5 (2 / 100)) true
                  flat_inputs_pass) (flat_table 5)
               (Exn OtherError "SVD did not converge" None)).
  - simpl. lia.
  - reflexivity.
Defined.

Lemma drop_const_id (params : Series) :
  ~ In (Str "const") (s_index params) -> drop_const params = params.
Proof.
  unfold drop_const.
  induction params as [|kv params IH]; simpl; intros Hno; [reflexivity |].
  destruct (label_eqb (fst kv) (Str "const")) eqn:E; simpl.
  - apply label_eqb_eq in E. exfalso. apply Hno. left. exact E.
  - f_equal. apply IH. intros H. apply Hno. right. exact H.
Qed.

(** With five joined rows or more and a fit that succeeds, the model is
    fitted once, the summary is logged exactly when [log] is set, and the
    betas returned are the fitted parameters in their order without the
    intercept "const"; [log] has no influence on them. *)
Theorem regression_returns_betas_without_const
    (table : FactorTable)
    (ols_fit : list regressors -> list pyfloat -> result Series)
    (p m : Series) (log : bool) (params : Series) :
  regression_inputs_pass p m ->
  let final_df := regression_final_df p m table in
  (5 <= length final_df)%nat ->
  ols_fit (design_of final_df) (response_of final_df) = Ok params ->
  factor_analysis_regression (Ok table) ols_fit p m log
  = ([ReadFactorData; FitOLS (design_of final_df) (response_of final_df)]
       ++ (if log then [LogSummary] else []),
     Ok (drop_const params)) /\
  ~ In (Str "const") (s_index (drop_const params)) /\
  (forall kv, In kv (drop_const params)
              <-> In kv params /\ fst kv <> Str "const") /\
  (~ In (Str "const") (s_index params) -> drop_const params = params).
Proof.
  intros Hpass final_df Hlen Hfit.
  split; [| split; [| split]].
  - rewrite (regression_run table ols_fit p m log Hpass). cbv zeta.
    fold final_df.
    replace (Nat.ltb (length final_df) 5) with false
      by (symmetry; apply Nat.ltb_ge; exact Hlen).
    rewrite Hfit. reflexivity.
  - unfold s_index, drop_const. intros H.
    apply in_map_iff in H as (kv & E & Hin).
    apply filter_In in Hin as [_ Hk]. rewrite E in Hk.
    discriminate.
  - intros kv. unfold drop_const. rewrite filter_In. split.
    + intros [Hin Hk]. split; [exact Hin |].
      intros E. rewrite E in Hk. discriminate.
    + intros [Hin Hk]. split; [exact Hin |].
      apply negb_true_iff. destruct (label_eqb (fst kv) (Str "const")) eqn:E;
        [| reflexivity].
      apply label_eqb_eq in E. contradiction.
  - apply drop_const_id.
Qed.

Lemma regression_returns_betas_without_const_witness :
  factor_analysis_regression (Ok (flat_table 6)) constant_fit
    (flat_series 6 (1 / 100)) (flat_series 6 (2 / 100)) false
  = ([ReadFactorData;
      FitOLS (design_of (regression_final_df (flat_series 6 (1 / 100))
                           (flat_series 6 (2 / 100)) (flat_table 6)))
             (response_of (regression_final_df (flat_series 6 (1 / 100))
                             (flat_series 6 (2 / 100)) (flat_table 6)))],
     Ok [(Str "Mkt_rf", Fin 1); (Str "SMB", Fin 0);
         (Str "HML", Fin 0); (Str "Mom", Fin 0)]).
Proof.
  assert (Hpass : regression_inputs_pass (flat_series 6 (1 / 100))
                                         (flat_series 6 (2 / 100)))
    by (repeat split; try discriminate; reflexivity).
  apply (proj1 (regression_returns_betas_without_const (flat_table 6)
                  constant_fit (flat_series 6 (1 / 100))
                  (flat_series 6 (2 / 100)) false _ Hpass
                  (le_S 5 5 (le_n 5)) eq_refl)).
Defined.

(** *** The number of joined rows *)

Lemma pass_dates_included (p m : Series) :
  regression_inputs_pass p m ->
  forall d, In d (s_index m) -> In d (s_index p).
Proof.
  intros (_ & _ & _ & _ & _ & Hn) d Hd.
  destruct (label_mem d (s_index p)) eqn:E; [apply label_mem_true; exact E |].
  exfalso.
  assert (Hin : In (d, (s_get p d, s_get m d)) (concat_axis1 p m)).
  { unfold concat_axis1.
    apply (in_map (fun d => (d, (s_get p d, s_get m d)))).
    apply in_index_union. right. exact Hd. }
  assert (Hnan : s_get p d = NaN).
  { apply s_get_missing. intros H. apply label_mem_In in H. congruence. }
  assert (Ht : existsb (fun r => isnan (fst (snd r)) || isnan (snd (snd r)))
                       (concat_axis1 p m) = true).
  { apply existsb_exists. eexists. split; [exact Hin |].
    cbn [fst snd]. rewrite Hnan. reflexivity. }
  congruence.
Qed.

Lemma index_union_included (l1 l2 : list label) :
  (forall d, In d l2 -> In d l1) -> index_union l1 l2 = l1.
Proof.
  intros H. unfold index_union.
  assert (E : forall l', incl l' l2 ->
                filter (fun a => negb (label_mem a l1)) l' = []).
  { induction l' as [|a l' IH]; intros Hi; simpl; [reflexivity |].
    rewrite (label_mem_In a l1) by (apply H, Hi; left; reflexivity). simpl.
    apply IH. intros x Hx. apply Hi. right. exact Hx. }
  rewrite (E l2 (incl_refl l2)). apply app_nil_r.
Qed.

Lemma filter_key_at_most_one (table : FactorTable) (d : label) :
  NoDup (map fst table) ->
  (length (filter (fun f => label_eqb d (fst f)) table) <= 1)%nat.
Proof.
  induction table as [|[k v] t IH]; simpl; intros Hnd; [lia |].
  inversion Hnd as [| x l Hnotin Hnd' ]; subst.
  destruct (label_eqb d k) eqn:E; simpl.
  - apply label_eqb_eq in E. subst k.
    assert (Z : filter (fun f => label_eqb d (fst f)) t = []).
    { clear IH Hnd Hnd'. induction t as [|[k v'] t IH]; simpl; [reflexivity |].
      destruct (label_eqb d k) eqn:E.
      - apply label_eqb_eq in E. subst. exfalso. apply Hnotin. left. reflexivity.
      - apply IH. intros H. apply Hnotin. right. exact H. }
    rewrite Z. simpl. lia.
  - apply IH. exact Hnd'.
Qed.

Lemma join_inner_length (joined : list (label * (pyfloat * pyfloat)))
    (table : FactorTable) :
  NoDup (map fst table) ->
  (length (join_inner joined table) <= length joined)%nat.
Proof.
  intros Hnd. unfold join_inner.
  induction joined as [|r joined IH]; simpl; [lia |].
  rewrite length_app, length_map.
  pose proof (filter_key_at_most_one table (fst r) Hnd). lia.
Qed.

(** When the factor table has one row per date, the regression never sees
    more rows than the portfolio series has observations; a portfolio series
    of fewer than five observations that passes the checks therefore always
    ends in the too-few-data-points ValueError, without a fit. *)
Theorem regression_needs_five_observations
    (table : FactorTable)
    (ols_fit : list regressors -> list pyfloat -> result Series)
    (p m : Series) (log : bool) :
  regression_inputs_pass p m ->
  NoDup (map fst table) ->
  (length (regression_final_df p m table) <= length p)%nat /\
  ((length p < 5)%nat ->
   factor_analysis_regression (Ok table) ols_fit p m log
   = ([ReadFactorData], Raise not_enough_rows_error)).
Proof.
  intros Hpass Hnd.
  assert (Hlen : (length (regression_final_df p m table) <= length p)%nat).
  { unfold regression_final_df.
    eapply Nat.le_trans; [apply join_inner_length; exact Hnd |].
    rewrite length_map. unfold concat_axis1. rewrite length_map.
    rewrite (index_union_included _ _ (pass_dates_included p m Hpass)).
    unfold s_index. rewrite length_map. lia. }
  split; [exact Hlen |].
  intros Hshort.
  rewrite (regression_run table ols_fit p m log Hpass). cbv zeta.
  replace (Nat.ltb (length (regression_final_df p m table)) 5) with true
    by (symmetry; apply Nat.ltb_lt; lia).
  reflexivity.
Qed.

Lemma regression_needs_five_observations_witness :
  factor_analysis_regression (Ok (flat_table 12)) constant_fit
    (flat_series 4 (1 / 100)) (flat_series 4 (2 / 100)) true
  = ([ReadFactorData], Raise not_enough_rows_error).
Proof.
  assert (Hpass : regression_inputs_pass (flat_series 4 (1 / 100))
                                         (flat_series 4 (2 / 100)))
    by (repeat split; try discriminate; reflexivity).
  assert (Hnd : NoDup (map fst (flat_table 12))).
  { unfold flat_table, dates_upto. rewrite map_map, map_map. simpl.
    repeat constructor; simpl; intuition discriminate. }
  apply (proj2 (regression_needs_five_observations (flat_table 12)
                  constant_fit _ _ true Hpass Hnd)).
  simpl. lia.
Defined.

End RegressionExtras.

(** ** calculate_portfolio_statistics and the comparison *)

Module StatisticsExtras.
Import StatisticsProofs.

Lemma dict_get_recognized (x : string) (f : Z) :
  dict_get valid_interval_factors x = Some f ->
  In x ["daily"%string; "monthly"%string; "yearly"%string].
Proof.
  unfold valid_interval_factors. simpl.
  destruct (String.eqb_spec x "daily"); [subst; simpl; auto |].
  destruct (String.eqb_spec x "monthly"); [subst; simpl; auto |].
  destruct (String.eqb_spec x "yearly"); [subst; simpl; auto |].
  discriminate.
Qed.

(** calculate_portfolio_statistics returns a record exactly for a non-empty
    series of finite values with a frequency that is daily, monthly or
    yearly up to case; every other call raises a ValueError of its own. *)
Theorem statistics_ok_iff (s : Series) (interval : string) :
  ((exists r, calculate_portfolio_statistics s interval = Ok r)
   <-> statistics_preconditions s interval) /\
  (forall e, calculate_portfolio_statistics s interval = Raise e ->
             exn_cls e = ValueError /\ exn_context e = None).
Proof.
  split; [split |].
  - intros [r E]. unfold calculate_portfolio_statistics in E.
    destruct (Nat.eqb (length s) 0) eqn:E1; [discriminate |].
    destruct (forallb isfinite (s_values s)) eqn:E2; [| discriminate].
    cbn [negb] in E.
    destruct (dict_get valid_interval_factors (str_lower interval)) as [f |] eqn:E3;
      [| discriminate].
    split; [| split].
    + intros ->. discriminate E1.
    + exact E2.
    + exact (dict_get_recognized _ _ E3).
  - intros (Hne & Hfin & Hrec).
    destruct (recognized_factor interval Hrec) as (f & Hf & _).
    rewrite (statistics_run s interval f Hne Hfin Hf). eexists. reflexivity.
  - intros e. unfold calculate_portfolio_statistics.
    destruct (Nat.eqb (length s) 0);
      [intros H; injection H as <-; split; reflexivity |].
    destruct (forallb isfinite (s_values s)); cbn [negb];
      [| intros H; injection H as <-; split; reflexivity].
    destruct (dict_get valid_interval_factors (str_lower interval));
      [discriminate | intros H; injection H as <-; split; reflexivity].
Qed.

(** *** The cumulative return *)

Lemma cumprod_Fin (a : R) (qs : list R) :
  cum_skipna fmul (Fin a) (map Fin qs) = map Fin (running_product a qs).
Proof.
  revert a. induction qs as [|q qs IH]; intros a; [reflexivity |].
  cbn [map cum_skipna isnan running_product]. f_equal. apply IH.
Qed.

Lemma last_running_product (a : R) (qs : list R) (d : R) :
  qs <> [] -> last (running_product a qs) d = fold_left Rmult qs a.
Proof.
  revert a. induction qs as [|q qs IH]; intros a H; [contradiction |].
  destruct qs as [|q' qs]; [reflexivity |].
  change (last (running_product (a * q) (q' :: qs)) d
          = fold_left Rmult (q' :: qs) (a * q)).
  apply IH. discriminate.
Qed.

Lemma last_map_Fin (l : list R) (d : R) :
  l <> [] -> last (map Fin l) NaN = Fin (last l d).
Proof.
  induction l as [|x l IH]; intros H; [contradiction |].
  destruct l as [|y l]; [reflexivity |].
  change (last (map Fin (y :: l)) NaN = Fin (last (y :: l) d)).
  apply IH. discriminate.
Qed.

Lemma map_fadd_one (rs : list R) :
  map (fadd (Fin 1)) (map Fin rs) = map Fin (map (Rplus 1) rs).
Proof. rewrite !map_map. reflexivity. Qed.

(** The cumulative return is the compounded return of the whole series: the
    product of the factors 1 + r over all observations, minus 1. *)
Theorem cumulative_return_compounds (s : Series) (interval : string)
    (rs : list R) :
  statistics_preconditions s interval ->
  s_values s = map Fin rs ->
  exists r,
    calculate_portfolio_statistics s interval = Ok r /\
    cumulative_return r = Fin (fold_left Rmult (map (Rplus 1) rs) 1 - 1).
Proof.
  intros (Hne & Hfin & Hrec) Ev.
  destruct (recognized_factor interval Hrec) as (f & Hf & _).
  rewrite (statistics_run s interval f Hne Hfin Hf). cbv zeta.
  eexists. split; [reflexivity |]. cbn [cumulative_return].
  assert (Hrs : map (Rplus 1) rs <> []).
  { destruct rs; [| discriminate]. destruct s; [contradiction | discriminate]. }
  unfold cumprod.
  rewrite Ev, map_fadd_one, cumprod_Fin, (last_map_Fin _ 0).
  - rewrite (last_running_product 1 _ 0 Hrs). reflexivity.
  - destruct (map (Rplus 1) rs); [contradiction | discriminate].
Qed.

Lemma cumulative_return_compounds_witness :
  exists r,
    calculate_portfolio_statistics gains_series "monthly" = Ok r /\
    cumulative_return r = Fin (132 / 100 - 1).
Proof.
  destruct (cumulative_return_compounds gains_series "monthly"
              [1 / 10; 0; 2 / 10]) as (r & E & C).
  - split; [discriminate | split; [reflexivity |]]. right. left. reflexivity.
  - reflexivity.
  - exists r. split; [exact E |]. rewrite C. f_equal. simpl. field.
Defined.

(** *** The maximum drawdown *)

Lemma drawdown_series_cons (a q : R) (M : pyfloat) (L : list pyfloat) :
  drawdown_series (Fin a) M (Fin q :: L)
  = fsub (fdiv (Fin (a * q)) (fmax M (Fin (a * q)))) (Fin 1)
    :: drawdown_series (Fin (a * q)) (fmax M (Fin (a * q))) L.
Proof. reflexivity. Qed.

Lemma fmax_running (M : pyfloat) (c : R) :
  0 < c ->
  M = NInf \/ (exists m, M = Fin m /\ 0 < m) ->
  exists m', fmax M (Fin c) = Fin m' /\ c <= m' /\ 0 < m'.
Proof.
  intros Hc [-> | (m & -> & Hm)].
  - exists c. split; [reflexivity | lra].
  - unfold fmax, fltb, Rltb. destruct (Rlt_dec m c).
    + exists c. split; [reflexivity | lra].
    + exists m. split; [reflexivity | lra].
Qed.

Lemma fmax_running_eq (M : pyfloat) (c : R) :
  M = NInf \/ (exists m, M = Fin m /\ m <= c) ->
  fmax M (Fin c) = Fin c.
Proof.
  intros [-> | (m & -> & Hm)]; [reflexivity |].
  unfold fmax, fltb, Rltb. destruct (Rlt_dec m c); [reflexivity |].
  f_equal. lra.
Qed.

Lemma drawdown_in_range (qs : list R) (a : R) (M : pyfloat) :
  0 < a ->
  M = NInf \/ (exists m, M = Fin m /\ 0 < m) ->
  (forall q, In q qs -> 0 < q) ->
  Forall (fun v => exists x, v = Fin x /\ -1 < x <= 0)
         (drawdown_series (Fin a) M (map Fin qs)).
Proof.
  revert a M. induction qs as [|q qs IH]; intros a M Ha HM Hq;
    [constructor |].
  cbn [map]. rewrite drawdown_series_cons.
  assert (Hc : 0 < a * q)
    by (apply Rmult_lt_0_compat; [exact Ha | apply Hq; left; reflexivity]).
  destruct (fmax_running M (a * q) Hc HM) as (m' & -> & Hle & Hpos).
  constructor.
  - exists (a * q / m' - 1). split.
    + rewrite fdiv_Fin by lra. reflexivity.
    + assert (0 < a * q / m') by (apply Rdiv_lt_0_compat; assumption).
      assert (a * q / m' <= 1).
      { apply (Rmult_le_reg_r m'); [exact Hpos |].
        unfold Rdiv. rewrite Rmult_assoc, Rinv_l by lra. lra. }
      lra.
  - apply IH; [exact Hc | right; exists m'; auto |].
    intros x Hx. apply Hq. right. exact Hx.
Qed.

Lemma drawdown_zero (qs : list R) (a : R) (M : pyfloat) :
  0 < a ->
  M = NInf \/ (exists m, M = Fin m /\ m <= a) ->
  (forall q, In q qs -> 1 <= q) ->
  Forall (fun v => v = Fin 0) (drawdown_series (Fin a) M (map Fin qs)).
Proof.
  revert a M. induction qs as [|q qs IH]; intros a M Ha HM Hq;
    [constructor |].
  cbn [map]. rewrite drawdown_series_cons.
  assert (H1 : 1 <= q) by (apply Hq; left; reflexivity).
  assert (Hc : a <= a * q) by nra.
  rewrite fmax_running_eq.
  - constructor.
    + rewrite fdiv_Fin by lra. simpl. f_equal. field. lra.
    + apply IH; [lra | right; exists (a * q); split; [reflexivity | lra] |].
      intros x Hx. apply Hq. right. exact Hx.
  - destruct HM as [-> | (m & -> & Hm)]; [left; reflexivity |].
    right. exists m. split; [reflexivity | lra].
Qed.

Lemma fold_fmin_In (t : list pyfloat) (x : pyfloat) :
  In (fold_left fmin t x) (x :: t).
Proof.
  revert x. induction t as [|y t IH]; intros x; [left; reflexivity |].
  cbn [fold_left]. destruct (IH (fmin x y)) as [E | H].
  - rewrite <- E. unfold fmin. destruct (fltb y x); [right; left | left]; reflexivity.
  - right. right. exact H.
Qed.

Lemma filter_notnan_id (l : list pyfloat) :
  Forall (fun v => isnan v = false) l ->
  filter (fun x => negb (isnan x)) l = l.
Proof.
  induction 1 as [|v l Hv _ IH]; [reflexivity |].
  simpl. rewrite Hv, IH. reflexivity.
Qed.

Lemma series_min_In (l : list pyfloat) :
  Forall (fun v => isnan v = false) l -> l <> [] -> In (series_min l) l.
Proof.
  intros Hf Hne. unfold series_min. rewrite (filter_notnan_id l Hf).
  destruct l as [|x t]; [contradiction |]. apply fold_fmin_In.
Qed.

Lemma series_min_Forall (P : pyfloat -> Prop) (l : list pyfloat) :
  Forall P l -> (forall v, P v -> isnan v = false) -> l <> [] ->
  P (series_min l).
Proof.
  intros HP Hn Hne.
  apply (proj1 (Forall_forall P l) HP).
  apply series_min_In; [| exact Hne].
  apply Forall_forall. intros v Hv. apply Hn.
  exact (proj1 (Forall_forall P l) HP v Hv).
Qed.

Lemma drawdown_series_nonempty (a : R) (M : pyfloat) (qs : list R) :
  qs <> [] -> drawdown_series (Fin a) M (map Fin qs) <> [].
Proof.
  destruct qs as [|q qs]; [contradiction |]. intros _.
  cbn [map]. rewrite drawdown_series_cons. discriminate.
Qed.

(** Common frame of the two statements on the drawdown. *)
Lemma max_drawdown_run (s : Series) (interval : string) (rs : list R) :
  statistics_preconditions s interval ->
  s_values s = map Fin rs ->
  rs <> [] /\
  exists r,
    calculate_portfolio_statistics s interval = Ok r /\
    max_drawdown r
    = series_min (drawdown_series (Fin 1) NInf (map Fin (map (Rplus 1) rs))).
Proof.
  intros (Hne & Hfin & Hrec) Ev. split.
  - intros ->. destruct s; [contradiction | discriminate].
  - destruct (recognized_factor interval Hrec) as (f & Hf & _).
    rewrite (statistics_run s interval f Hne Hfin Hf). cbv zeta.
    eexists. split; [reflexivity |]. cbn [max_drawdown].
    rewrite Ev, map_fadd_one. reflexivity.
Qed.

(** When no return is -100% or worse, the maximum drawdown is a finite
    number in (-1, 0]: it is never positive and never a total loss. *)
Theorem max_drawdown_in_range (s : Series) (interval : string) :
  statistics_preconditions s interval ->
  (forall x, In (Fin x) (s_values s) -> -1 < x) ->
  exists r dd,
    calculate_portfolio_statistics s interval = Ok r /\
    max_drawdown r = Fin dd /\ -1 < dd <= 0.
Proof.
  intros Hpre Hx.
  destruct (finite_values _ (proj1 (proj2 Hpre))) as [rs Ev].
  destruct (max_drawdown_run s interval rs Hpre Ev) as (Hrs & r & E & Ed).
  assert (Hq : forall q, In q (map (Rplus 1) rs) -> 0 < q).
  { intros q Hq. apply in_map_iff in Hq as (x & <- & Hin).
    assert (-1 < x) by (apply Hx; rewrite Ev; apply in_map; exact Hin). lra. }
  pose proof (series_min_Forall _ _
                (drawdown_in_range (map (Rplus 1) rs) 1 NInf Rlt_0_1
                   (or_introl eq_refl) Hq)) as Hmin.
  destruct Hmin as (dd & Edd & Hdd).
  - intros v (x & -> & _). reflexivity.
  - apply drawdown_series_nonempty. destruct rs; [contradiction | discriminate].
  - exists r, dd. rewrite Ed. auto.
Qed.

Lemma max_drawdown_in_range_witness :
  exists r dd,
    calculate_portfolio_statistics loss_series "monthly" = Ok r /\
    max_drawdown r = Fin dd /\ -1 < dd <= 0.
Proof.
  apply (max_drawdown_in_range loss_series "monthly").
  - split; [discriminate | split; [reflexivity |]]. right. left. reflexivity.
  - simpl. intros x [H | [H | [H | []]]]; apply Fin_inj in H; lra.
Defined.

(** A series without a negative return has no drawdown: the maximum
    drawdown is exactly 0. *)
Theorem no_loss_no_drawdown (s : Series) (interval : string) :
  statistics_preconditions s interval ->
  (forall x, In (Fin x) (s_values s) -> 0 <= x) ->
  exists r,
    calculate_portfolio_statistics s interval = Ok r /\
    max_drawdown r = Fin 0.
Proof.
  intros Hpre Hx.
  destruct (finite_values _ (proj1 (proj2 Hpre))) as [rs Ev].
  destruct (max_drawdown_run s interval rs Hpre Ev) as (Hrs & r & E & Ed).
  assert (Hq : forall q, In q (map (Rplus 1) rs) -> 1 <= q).
  { intros q Hq. apply in_map_iff in Hq as (x & <- & Hin).
    assert (0 <= x) by (apply Hx; rewrite Ev; apply in_map; exact Hin). lra. }
  exists r. split; [exact E |]. rewrite Ed.
  apply (series_min_Forall (fun v => v = Fin 0)).
  - apply drawdown_zero; [lra | left; reflexivity | exact Hq].
  - intros v ->. reflexivity.
  - apply drawdown_series_nonempty. destruct rs; [contradiction | discriminate].
Qed.

Lemma no_loss_no_drawdown_witness :
  exists r,
    calculate_portfolio_statistics gains_series "monthly" = Ok r /\
    max_drawdown r = Fin 0.
Proof.
  apply (no_loss_no_drawdown gains_series "monthly").
  - split; [discriminate | split; [reflexivity |]]. right. left. reflexivity.
  - simpl. intros x [H | [H | [H | []]]]; apply Fin_inj in H; lra.
Defined.

(** *** The comparison *)

Lemma compare_succeeds (p m : Series) (interval : string) :
  statistics_preconditions p interval ->
  statistics_preconditions m interval ->
  index_intersection (s_index p) (s_index m) <> [] ->
  exists sp sm,
    compare_portfolio_with_market_benchmark p m interval =
    Ok [Printed "Minimum Variance Portfolio" sp; Printed "Market Benchmark" sm].
Proof.
  intros (Hp & Fp & Hrec) (Hm & Fm & _) Hi.
  destruct (recognized_factor interval Hrec) as (f & Hf & _).
  unfold compare_portfolio_with_market_benchmark.
  rewrite (nonempty_length p Hp), (nonempty_length m Hm), Fp, Fm,
    (nonempty_length _ Hi), Hf.
  cbn [orb negb].
  rewrite !statistics_lower,
    (statistics_run p interval f Hp Fp Hf),
    (statistics_run m interval f Hm Fm Hf).
  eexists. eexists. reflexivity.
Qed.

Lemma compare_checks_passed (p m : Series) (interval : string) (f : Z) :
  Nat.eqb (length p) 0 || Nat.eqb (length m) 0 = false ->
  forallb isfinite (s_values p) = true ->
  forallb isfinite (s_values m) = true ->
  Nat.eqb (length (index_intersection (s_index p) (s_index m))) 0 = false ->
  dict_get valid_interval_factors (str_lower interval) = Some f ->
  statistics_preconditions p interval /\
  statistics_preconditions m interval /\
  index_intersection (s_index p) (s_index m) <> [].
Proof.
  intros E1 E2 E3 E4 E5.
  apply orb_false_iff in E1 as [E1a E1b].
  pose proof (dict_get_recognized _ _ E5) as Hrec.
  repeat split; try assumption.
  - intros ->. discriminate E1a.
  - intros ->. discriminate E1b.
  - intros H. rewrite H in E4. discriminate E4.
Qed.

(** compare_portfolio_with_market_benchmark prints its two blocks exactly
    when both series are non-empty and finite, share a date, and the
    frequency is recognized; in every other case it raises a ValueError of
    its own and prints nothing. *)
Theorem compare_ok_iff (p m : Series) (interval : string) :
  ((exists out, compare_portfolio_with_market_benchmark p m interval = Ok out)
   <-> statistics_preconditions p interval /\
       statistics_preconditions m interval /\
       index_intersection (s_index p) (s_index m) <> []) /\
  (forall e, compare_portfolio_with_market_benchmark p m interval = Raise e ->
             exn_cls e = ValueError /\ exn_context e = None).
Proof.
  split; [split |].
  - intros [out E]. unfold compare_portfolio_with_market_benchmark in E.
    destruct (Nat.eqb (length p) 0 || Nat.eqb (length m) 0) eqn:E1;
      [discriminate |].
    destruct (forallb isfinite (s_values p)) eqn:E2; [| discriminate].
    destruct (forallb isfinite (s_values m)) eqn:E3; [| discriminate].
    cbn [negb] in E.
    destruct (Nat.eqb (length (index_intersection (s_index p) (s_index m))) 0)
      eqn:E4; [discriminate |].
    destruct (dict_get valid_interval_factors (str_lower interval)) as [f |]
      eqn:E5; [| discriminate].
    exact (compare_checks_passed p m interval f E1 E2 E3 E4 E5).
  - intros (Hp & Hm & Hi).
    destruct (compare_succeeds p m interval Hp Hm Hi) as (sp & sm & E).
    eexists. exact E.
  - intros e. unfold compare_portfolio_with_market_benchmark.
    destruct (Nat.eqb (length p) 0 || Nat.eqb (length m) 0) eqn:E1;
      [intros H; injection H as <-; split; reflexivity |].
    destruct (forallb isfinite (s_values p)) eqn:E2; cbn [negb];
      [| intros H; injection H as <-; split; reflexivity].
    destruct (forallb isfinite (s_values m)) eqn:E3; cbn [negb];
      [| intros H; injection H as <-; split; reflexivity].
    destruct (Nat.eqb (length (index_intersection (s_index p) (s_index m))) 0)
      eqn:E4; [intros H; injection H as <-; split; reflexivity |].
    destruct (dict_get valid_interval_factors (str_lower interval)) as [f |]
      eqn:E5; [| intros H; injection H as <-; split; reflexivity].
    destruct (compare_checks_passed p m interval f E1 E2 E3 E4 E5)
      as (Hp & Hm & Hi).
    destruct Hp as (Hp & Fp & Hrec). destruct Hm as (Hm & Fm & _).
    rewrite !statistics_lower,
      (statistics_run p interval f Hp Fp E5),
      (statistics_run m interval f Hm Fm E5).
    discriminate.
Qed.

End StatisticsExtras.

(** ** calculate_mvp_weights and calculate_mvp_portfolio *)

Module OptimizerExtras.
Import Sums LinAlg OptimizerProofs CompositorProofs.

Lemma mvp_weights_ok_pre (lapack : lapack_on_singular) (df : DataFrame)
    (w : Series) :
  calculate_mvp_weights lapack df = Ok w -> optimizer_preconditions df.
Proof.
  unfold calculate_mvp_weights. intros E.
  destruct (df_empty df) eqn:E1; [discriminate |].
  destruct (df_isnull_any df) eqn:E2; [discriminate |].
  destruct (Nat.ltb (shape1 df) 2) eqn:E3; [discriminate |].
  destruct (Nat.leb (shape0 df) (shape1 df)) eqn:E4; [discriminate |].
  apply Nat.ltb_ge in E3. apply Nat.leb_gt in E4.
  repeat split; assumption.
Qed.

(** The outcomes of calculate_mvp_weights.  Weights are returned only when
    the four preconditions hold, and they are indexed by the columns; the
    preconditions together with an invertible sample covariance matrix are
    enough for weights to be returned.  Every failure is a ValueError: one
    of the four validation errors, without context, when a precondition
    fails, and past the checks only the singular-matrix error, which
    implies that the covariance matrix has no inverse. *)
Theorem mvp_weights_outcomes (lapack : lapack_on_singular) (df : DataFrame) :
  (forall w, calculate_mvp_weights lapack df = Ok w ->
     optimizer_preconditions df /\ s_index w = df_columns df) /\
  (optimizer_preconditions df -> invertible (shape1 df) (df_cov df) ->
     exists w, calculate_mvp_weights lapack df = Ok w) /\
  (forall e, calculate_mvp_weights lapack df = Raise e ->
     exn_cls e = ValueError /\
     (optimizer_preconditions df ->
      e = singular_matrix_error /\ ~ invertible (shape1 df) (df_cov df)) /\
     (~ optimizer_preconditions df -> exn_context e = None)).
Proof.
  split; [| split].
  - intros w E.
    pose proof (mvp_weights_ok_pre lapack df w E) as Hpre.
    split; [exact Hpre |].
    destruct (mvp_weights_past_checks lapack df Hpre)
      as [(w' & Ew & Hi) | (Er & _)].
    + rewrite Ew in E. injection E as <-. exact Hi.
    + rewrite Er in E. discriminate.
  - intros Hpre Hinv.
    destruct (mvp_weights_ok lapack df Hpre Hinv) as (B & d & _ & _ & _ & E).
    eexists. exact E.
  - intros e E.
    destruct (excluded_middle_informative (optimizer_preconditions df))
      as [Hpre | Hn].
    + destruct (mvp_weights_past_checks lapack df Hpre)
        as [(w & Ew & _) | (Er & e0 & E0)].
      * rewrite Ew in E. discriminate.
      * rewrite Er in E. injection E as <-.
        split; [reflexivity |].
        split; [| intros H; contradiction].
        intros _. split; [reflexivity |].
        exact (proj1 (proj2 (linalg_inv_raise _ _ _ _ E0))).
    + unfold calculate_mvp_weights in E.
      destruct (df_empty df) eqn:E1;
        [injection E as <-;
         split; [reflexivity
                | split; [intros H; contradiction | intros _; reflexivity]] |].
      destruct (df_isnull_any df) eqn:E2;
        [injection E as <-;
         split; [reflexivity
                | split; [intros H; contradiction | intros _; reflexivity]] |].
      destruct (Nat.ltb (shape1 df) 2) eqn:E3;
        [injection E as <-;
         split; [reflexivity
                | split; [intros H; contradiction | intros _; reflexivity]] |].
      destruct (Nat.leb (shape0 df) (shape1 df)) eqn:E4;
        [injection E as <-;
         split; [reflexivity
                | split; [intros H; contradiction | intros _; reflexivity]] |].
      apply Nat.ltb_ge in E3. apply Nat.leb_gt in E4.
      exfalso. apply Hn. repeat split; assumption.
Qed.

(** *** Optimality *)

Lemma sumR_minus (n : nat) (f g : nat -> R) :
  sumR n (fun i => f i - g i) = sumR n f - sumR n g.
Proof. induction n as [|n IH]; simpl; [lra | rewrite IH; lra]. Qed.

Section GramForms.

Variables (n k : nat) (X : nat -> nat -> R) (c : R).

Lemma gram_bilinear (a b : vector) :
  sumR k (fun j => a j * sumR k (fun l => gram n X c j l * b l))
  = sumR n (fun i => sumR k (fun l => X i l * a l)
                     * sumR k (fun l => X i l * b l)) / c.
Proof.
  transitivity
    (sumR k (fun j => sumR n (fun i =>
       a j * X i j * sumR k (fun l => X i l * b l) / c))).
  { apply sumR_ext. intros j _. rewrite gram_apply.
    rewrite sumR_div. unfold Rdiv. rewrite <- Rmult_assoc. f_equal.
    rewrite <- sumR_scal_l. apply sumR_ext. intros i _. ring. }
  rewrite sumR_swap, <- sumR_div.
  apply sumR_ext. intros i _.
  rewrite sumR_div. unfold Rdiv. f_equal.
  rewrite <- sumR_scal_r. apply sumR_ext. intros j _. ring.
Qed.

(** v' G v - w' G w = h' G h + 2 h' G w for h = v - w. *)
Lemma gram_variance_split (v w : vector) :
  portfolio_variance k (gram n X c) v
  = portfolio_variance k (gram n X c) w
    + 2 * sumR k (fun j => (v j - w j)
                           * sumR k (fun l => gram n X c j l * w l))
    + sumR n (fun i => sumR k (fun l => X i l * (v l - w l))
                       * sumR k (fun l => X i l * (v l - w l))) / c.
Proof.
  unfold portfolio_variance, dot, mat_vec.
  rewrite !gram_bilinear.
  unfold Rdiv. rewrite <- !Rmult_assoc, <- !Rmult_plus_distr_r. f_equal.
  rewrite <- sumR_scal_l, <- !sumR_plus.
  apply sumR_ext. intros i _.
  assert (E : sumR k (fun l => X i l * v l)
              = sumR k (fun l => X i l * w l)
                + sumR k (fun l => X i l * (v l - w l))).
  { rewrite <- sumR_plus. apply sumR_ext. intros l _. ring. }
  rewrite E. ring.
Qed.

End GramForms.

(** The weight vector of a successful run, with the facts that make it the
    minimiser: it sums to 1 and S w is the constant vector 1/d. *)
Lemma mvp_weights_vector (lapack : lapack_on_singular) (df : DataFrame) :
  optimizer_preconditions df ->
  invertible (shape1 df) (df_cov df) ->
  exists (wv : vector) (d : R) (B : matrix),
    calculate_mvp_weights lapack df
    = Ok (combine (df_columns df)
            (map (fun j => Fin (wv j)) (seq 0 (shape1 df)))) /\
    is_inverse (shape1 df) (df_cov df) B /\
    0 < d /\
    sumR (shape1 df) wv = 1 /\
    (forall j, (j < shape1 df)%nat ->
       sumR (shape1 df) (fun l => df_cov df j l * wv l) = 1 / d).
Proof.
  intros Hpre Hinv.
  destruct (mvp_weights_ok lapack df Hpre Hinv) as (B & d & HB & Ed & Hd & E).
  set (k := shape1 df) in *.
  exists (fun j => mat_vec k B ones j / d), d, B.
  split; [exact E | split; [exact HB | split; [exact Hd | split]]].
  - rewrite sumR_div.
    replace (sumR k (mat_vec k B ones)) with d; [field; lra |].
    rewrite Ed, total_of_inverse. rewrite <- total_of_inverse'.
    unfold dot, ones. apply sumR_ext. intros i _. ring.
  - intros j Hj.
    transitivity (sumR k (fun l => df_cov df j l * mat_vec k B ones l) / d).
    { rewrite <- sumR_div. apply sumR_ext. intros l _. unfold Rdiv. ring. }
    f_equal.
    unfold mat_vec, ones.
    transitivity (sumR k (fun l => sumR k (fun m => df_cov df j l * B l m))).
    { apply sumR_ext. intros l _. rewrite <- sumR_scal_l.
      apply sumR_ext. intros m _. ring. }
    rewrite sumR_swap.
    transitivity (sumR k (fun m => identity j m * 1)).
    { apply sumR_ext. intros m Hm.
      destruct (HB j m Hj Hm) as [E1 _]. rewrite <- E1.
      unfold mat_mul. ring. }
    apply (sumR_identity_l k j (fun _ => 1) Hj).
Qed.

(** The weights returned are the minimum-variance portfolio: they sum to 1,
    no vector of weights summing to 1 has a smaller sample variance v' S v,
    and a vector that reaches the same variance has the same weights. *)
Theorem mvp_weights_minimise_variance (lapack : lapack_on_singular)
    (df : DataFrame) :
  optimizer_preconditions df ->
  invertible (shape1 df) (df_cov df) ->
  exists w wv,
    calculate_mvp_weights lapack df = Ok w /\
    s_values w = map (fun j => Fin (wv j)) (seq 0 (shape1 df)) /\
    sumR (shape1 df) wv = 1 /\
    forall v : vector,
      sumR (shape1 df) v = 1 ->
      portfolio_variance (shape1 df) (df_cov df) wv
      <= portfolio_variance (shape1 df) (df_cov df) v /\
      (portfolio_variance (shape1 df) (df_cov df) v
       = portfolio_variance (shape1 df) (df_cov df) wv ->
       forall j, (j < shape1 df)%nat -> v j = wv j).
Proof.
  intros Hpre Hinv.
  destruct (mvp_weights_vector lapack df Hpre Hinv) as (wv & d & B & E & HB & Hd & H1 & HS).
  eexists. exists wv. split; [exact E |]. split.
  { unfold s_values. apply map_snd_combine.
    rewrite length_weights. reflexivity. }
  split; [exact H1 |].
  intros v Hv.
  change (df_cov df) with (gram (shape0 df) (centred df) (INR (shape0 df - 1))).
  rewrite (gram_variance_split (shape0 df) (shape1 df) (centred df)
             (INR (shape0 df - 1)) v wv).
  assert (Hc : 0 < INR (shape0 df - 1)).
  { destruct Hpre as (_ & _ & Hk & Hr). apply lt_0_INR. lia. }
  assert (Hcross :
    sumR (shape1 df)
      (fun j => (v j - wv j)
                * sumR (shape1 df)
                    (fun l => gram (shape0 df) (centred df)
                                (INR (shape0 df - 1)) j l * wv l)) = 0).
  { transitivity (sumR (shape1 df) (fun j => (v j - wv j) * (1 / d))).
    { apply sumR_ext. intros j Hj. f_equal. exact (HS j Hj). }
    rewrite sumR_scal_r.
    rewrite sumR_minus, Hv, H1. ring. }
  rewrite Hcross.
  assert (Hsq : 0 <= sumR (shape0 df)
                  (fun i => sumR (shape1 df)
                              (fun l => centred df i l * (v l - wv l))
                            * sumR (shape1 df)
                                (fun l => centred df i l * (v l - wv l)))
                / INR (shape0 df - 1)).
  { apply Rmult_le_pos.
    - apply sumR_nonneg. intros i _. apply Rle_0_sqr.
    - apply Rlt_le, Rinv_0_lt_compat. exact Hc. }
  split; [lra |].
  intros Heq j Hj.
  match type of Hsq with 0 <= ?Q / _ => set (Qs := Q) in * end.
  assert (Hq0 : Qs = 0).
  { assert (Hq : Qs / INR (shape0 df - 1) = 0) by lra.
    unfold Rdiv in Hq. apply Rmult_integral in Hq as [Hq | Hq]; [exact Hq |].
    exfalso. apply (Rinv_neq_0_compat (INR (shape0 df - 1))); [lra | exact Hq]. }
  set (h := fun l => v l - wv l).
  set (z := fun i => sumR (shape1 df) (fun l => centred df i l * h l)).
  assert (Hz0 : sumR (shape0 df) (fun i => z i * z i) = 0) by exact Hq0.
  assert (Hz : forall i, (i < shape0 df)%nat -> z i = 0).
  { intros i Hi. apply Rsqr_0_uniq.
    apply (sumR_nonneg_zero (shape0 df) (fun i => z i * z i));
      [intros i' _; apply Rle_0_sqr | exact Hz0 | exact Hi]. }
  assert (HSh : forall l, sumR (shape1 df)
                  (fun m => gram (shape0 df) (centred df)
                              (INR (shape0 df - 1)) l m * h m) = 0).
  { intros l. rewrite gram_apply.
    replace (sumR (shape0 df)
               (fun i => centred df i l
                         * sumR (shape1 df) (fun l0 => centred df i l0 * h l0)))
      with 0; [unfold Rdiv; ring |].
    symmetry. apply sumR_zero. intros i Hi.
    change (centred df i l * z i = 0). rewrite (Hz i Hi). ring. }
  assert (Hh : h j = 0).
  { rewrite <- (sumR_identity_l (shape1 df) j h Hj).
    transitivity (sumR (shape1 df) (fun m => sumR (shape1 df)
                    (fun l => B j l * (df_cov df l m * h m)))).
    { apply sumR_ext. intros m Hm.
      destruct (HB j m Hj Hm) as [_ E2]. rewrite <- E2. unfold mat_mul.
      rewrite <- sumR_scal_r. apply sumR_ext. intros l _. ring. }
    rewrite sumR_swap. apply sumR_zero. intros l _.
    rewrite sumR_scal_l.
    change (df_cov df) with (gram (shape0 df) (centred df) (INR (shape0 df - 1))).
    rewrite HSh. ring. }
  unfold h in Hh. lra.
Qed.

Lemma mvp_weights_minimise_variance_witness :
  exists w wv,
    calculate_mvp_weights zero_pivot_met sample_df = Ok w /\
    s_values w = map (fun j => Fin (wv j)) (seq 0 (shape1 sample_df)) /\
    sumR (shape1 sample_df) wv = 1 /\
    forall v : vector,
      sumR (shape1 sample_df) v = 1 ->
      portfolio_variance (shape1 sample_df) (df_cov sample_df) wv
      <= portfolio_variance (shape1 sample_df) (df_cov sample_df) v /\
      (portfolio_variance (shape1 sample_df) (df_cov sample_df) v
       = portfolio_variance (shape1 sample_df) (df_cov sample_df) wv ->
       forall j, (j < shape1 sample_df)%nat -> v j = wv j).
Proof.
  exact (mvp_weights_minimise_variance zero_pivot_met sample_df
           sample_df_preconditions
           sample_df_invertible).
Defined.

(** *** The portfolio return series *)

Lemma cell_float_real (df : DataFrame) (i j : nat) :
  df_isnull_any df = false ->
  (i < shape0 df)%nat -> (j < shape1 df)%nat ->
  cell_float df i j = Fin (cell_real df i j).
Proof.
  intros Hn Hi Hj. unfold cell_float, cell_real.
  destruct (df_values df i j) as [r |] eqn:E; [reflexivity |].
  exfalso.
  assert (Ht : df_isnull_any df = true).
  { unfold df_isnull_any. apply existsb_exists. exists i. split.
    - apply in_seq. lia.
    - apply existsb_exists. exists j. split; [apply in_seq; lia |].
      rewrite E. reflexivity. }
  congruence.
Qed.

Lemma label_eqb_refl (a : label) : label_eqb a a = true.
Proof. apply label_eqb_eq. reflexivity. Qed.

Lemma label_eqb_neq (a b : label) : a <> b -> label_eqb a b = false.
Proof.
  intros H. destruct (label_eqb a b) eqn:E; [| reflexivity].
  apply label_eqb_eq in E. contradiction.
Qed.

Lemma col_pos_nth (cols : list label) (j : nat) (d : label) :
  NoDup cols -> (j < length cols)%nat ->
  col_pos cols (nth j cols d) = Some j.
Proof.
  intros Hnd. revert j.
  induction Hnd as [|b t Hb Hnd IH]; intros j Hj; [simpl in Hj; lia |].
  destruct j as [|j]; simpl.
  - rewrite label_eqb_refl. reflexivity.
  - simpl in Hj.
    rewrite label_eqb_neq.
    + rewrite IH by lia. reflexivity.
    + intros E. apply Hb. rewrite <- E. apply nth_In. lia.
Qed.

Lemma s_get_combine_nth (cols : list label) (vals : list pyfloat)
    (j : nat) (d : label) :
  NoDup cols -> (j < length cols)%nat -> length vals = length cols ->
  s_get (combine cols vals) (nth j cols d) = nth j vals NaN.
Proof.
  intros Hnd. revert j vals.
  induction Hnd as [|b t Hb Hnd IH]; intros j vals Hj Hl; [simpl in Hj; lia |].
  destruct vals as [|v vals]; [discriminate |].
  destruct j as [|j]; simpl.
  - rewrite label_eqb_refl. reflexivity.
  - simpl in Hj, Hl.
    rewrite label_eqb_neq.
    + apply IH; lia.
    + intros E. apply Hb. rewrite <- E. apply nth_In. lia.
Qed.

Lemma list_as_map_nth {A : Type} (l : list A) (d : A) :
  l = map (fun j => nth j l d) (seq 0 (length l)).
Proof.
  apply (nth_ext _ _ d d).
  - rewrite length_map, length_seq. reflexivity.
  - intros i Hi. symmetry.
    rewrite (nth_indep (map (fun j => nth j l d) (seq 0 (length l))) d
               ((fun j => nth j l d) O))
      by (rewrite length_map, length_seq; exact Hi).
    rewrite (map_nth (fun j => nth j l d) (seq 0 (length l)) O i).
    rewrite seq_nth by exact Hi. reflexivity.
Qed.

Lemma nth_map_seq (k j : nat) (f : nat -> pyfloat) :
  (j < k)%nat -> nth j (map f (seq 0 k)) NaN = f j.
Proof.
  intros Hj.
  rewrite (nth_indep _ NaN (f O)) by (rewrite length_map, length_seq; exact Hj).
  rewrite map_nth, seq_nth by exact Hj. reflexivity.
Qed.

(** The row-by-weights product for weights indexed by the distinct columns
    of the frame. *)
Lemma df_dot_weights (df : DataFrame) (wv : vector) :
  df_isnull_any df = false ->
  NoDup (df_columns df) ->
  df_dot df (combine (df_columns df)
                     (map (fun j => Fin (wv j)) (seq 0 (shape1 df))))
  = Ok (combine (df_index df)
          (map (fun i => Fin (sumR (shape1 df)
                                   (fun j => cell_real df i j * wv j)))
               (seq 0 (shape0 df)))).
Proof.
  intros Hn Hnd. unfold df_dot.
  assert (Ei : s_index (combine (df_columns df)
                          (map (fun j => Fin (wv j)) (seq 0 (shape1 df))))
               = df_columns df).
  { apply map_fst_combine. rewrite length_weights. reflexivity. }
  rewrite Ei, index_union_self, Nat.ltb_irrefl. cbn [orb].
  do 2 f_equal. apply map_ext_in. intros i Hi. apply in_seq in Hi.
  set (w := combine (df_columns df)
              (map (fun j => Fin (wv j)) (seq 0 (shape1 df)))).
  set (F := fun a => fmul (df_get df i a) (s_get w a)).
  rewrite (list_as_map_nth (df_columns df) (Str "")) at 1.
  rewrite map_map. fold (shape1 df).
  rewrite <- fsum_Fin_seq. f_equal.
  apply map_ext_in. intros j Hj. apply in_seq in Hj.
  unfold F, df_get, w.
  rewrite col_pos_nth by (try exact Hnd; unfold shape1 in Hj; lia).
  rewrite s_get_combine_nth
    by (try exact Hnd; try (rewrite length_weights; reflexivity);
        unfold shape1 in Hj; lia).
  rewrite nth_map_seq by lia.
  rewrite cell_float_real by (try exact Hn; lia).
  reflexivity.
Qed.

(** With distinct column labels, a valid matrix and an invertible
    covariance matrix, the return of the portfolio on each date is the sum
    over the assets of the asset's return on that date times its weight, the
    weights being those of calculate_mvp_weights; there is one return per
    row, under the row's date. *)
Theorem portfolio_returns_are_weighted_sums (lapack : lapack_on_singular)
    (df : DataFrame) :
  optimizer_preconditions df ->
  invertible (shape1 df) (df_cov df) ->
  NoDup (df_columns df) ->
  exists w wv s,
    calculate_mvp_weights lapack df = Ok w /\
    s_values w = map (fun j => Fin (wv j)) (seq 0 (shape1 df)) /\
    calculate_mvp_portfolio lapack df = Ok s /\
    s = combine (df_index df)
          (map (fun i => Fin (sumR (shape1 df)
                                   (fun j => cell_real df i j * wv j)))
               (seq 0 (shape0 df))) /\
    length s = shape0 df.
Proof.
  intros Hpre Hinv Hnd.
  destruct (mvp_weights_vector lapack df Hpre Hinv) as (wv & d & B & E & _).
  eexists. exists wv. eexists.
  split; [exact E |]. split.
  { unfold s_values. apply map_snd_combine.
    rewrite length_weights. reflexivity. }
  assert (Hn : df_isnull_any df = false) by exact (proj1 (proj2 Hpre)).
  split.
  - unfold calculate_mvp_portfolio.
    rewrite (portfolio_run lapack df_dot df _ E), (df_dot_weights df wv Hn Hnd).
    replace (index_equals (df_index df) _) with true; [reflexivity |].
    symmetry. apply index_equals_eq. symmetry.
    apply map_fst_combine. rewrite length_map, length_seq. reflexivity.
  - split; [reflexivity |].
    rewrite length_combine, length_map, length_seq.
    unfold shape0. apply Nat.min_id.
Qed.

Lemma portfolio_returns_are_weighted_sums_witness :
  exists w wv s,
    calculate_mvp_weights zero_pivot_met sample_df = Ok w /\
    s_values w = map (fun j => Fin (wv j)) (seq 0 (shape1 sample_df)) /\
    calculate_mvp_portfolio zero_pivot_met sample_df = Ok s /\
    s = [(Date 1, Fin (1 * wv 0%nat + 0 * wv 1%nat));
         (Date 2, Fin (0 * wv 0%nat + 1 * wv 1%nat));
         (Date 3, Fin (0 * wv 0%nat + 0 * wv 1%nat))] /\
    length s = 3%nat.
Proof.
  assert (Hnd : NoDup (df_columns sample_df)).
  { simpl. repeat constructor; simpl; intuition discriminate. }
  destruct (portfolio_returns_are_weighted_sums zero_pivot_met sample_df
              sample_df_preconditions sample_df_invertible Hnd)
    as (w & wv & s & Ew & Ev & Es & Eq & El).
  exists w, wv, s. repeat split; try assumption.
  rewrite Eq. simpl. unfold cell_real. simpl.
  repeat (apply f_equal2; [apply f_equal2; [reflexivity | apply f_equal; ring] |]).
  reflexivity.
Defined.

Lemma portfolio_ok_of_weights (lapack : lapack_on_singular)
    (df : DataFrame) (w : Series) :
  calculate_mvp_weights lapack df = Ok w ->
  exists s, calculate_mvp_portfolio lapack df = Ok s /\
            s_index s = df_index df.
Proof.
  intros E.
  assert (Hw : s_index w = df_columns df).
  { destruct (mvp_weights_past_checks lapack df
                (mvp_weights_ok_pre lapack df w E))
      as [(w' & Ew & Hi) | (Er & _)].
    - rewrite Ew in E. injection E as <-. exact Hi.
    - rewrite Er in E. discriminate. }
  destruct (df_dot_index df w Hw) as (r & Er & Ei).
  exists r. split; [| exact Ei].
  unfold calculate_mvp_portfolio.
  rewrite (portfolio_run lapack df_dot df _ E), Er.
  replace (index_equals (df_index df) (s_index r)) with true; [reflexivity |].
  symmetry. apply index_equals_eq. symmetry. exact Ei.
Qed.

Lemma portfolio_raise_of_weights (lapack : lapack_on_singular)
    (df : DataFrame) (e : pyexn) :
  calculate_mvp_weights lapack df = Raise e ->
  calculate_mvp_portfolio lapack df
  = Raise (if negb (df_empty df) && df_isnull_any df
           then nan_first_error else e).
Proof.
  intros E. unfold calculate_mvp_portfolio, calculate_mvp_portfolio_with.
  unfold calculate_mvp_weights in E.
  destruct (df_empty df) eqn:E1.
  - injection E as <-. reflexivity.
  - destruct (df_isnull_any df) eqn:E2; [reflexivity |].
    assert (E' : calculate_mvp_weights lapack df = Raise e).
    { unfold calculate_mvp_weights. rewrite E1, E2. exact E. }
    rewrite E'. reflexivity.
Qed.

(** calculate_mvp_portfolio succeeds exactly when calculate_mvp_weights
    does and fails with the same ValueError (its own wording when a value is
    missing): the alignment error of the matrix product and the
    index-mismatch error never occur. *)
Theorem portfolio_fails_as_weights (lapack : lapack_on_singular)
    (df : DataFrame) :
  (forall w, calculate_mvp_weights lapack df = Ok w ->
     exists s, calculate_mvp_portfolio lapack df = Ok s /\
               s_index s = df_index df) /\
  (forall e, calculate_mvp_weights lapack df = Raise e ->
     calculate_mvp_portfolio lapack df
     = Raise (if negb (df_empty df) && df_isnull_any df
              then nan_first_error else e)) /\
  (forall e, calculate_mvp_portfolio lapack df = Raise e ->
     exn_cls e = ValueError /\
     e <> index_mismatch_error /\
     exn_msg e <> "matrices are not aligned"%string).
Proof.
  split; [exact (portfolio_ok_of_weights lapack df) |].
  split; [exact (portfolio_raise_of_weights lapack df) |].
  intros e E.
  destruct (calculate_mvp_weights lapack df) as [w | e'] eqn:Ew.
  - destruct (portfolio_ok_of_weights lapack df w Ew) as (s & Es & _).
    rewrite Es in E. discriminate.
  - rewrite (portfolio_raise_of_weights lapack df e' Ew) in E. injection E as <-.
    destruct (negb (df_empty df) && df_isnull_any df).
    + repeat split; discriminate.
    + unfold calculate_mvp_weights in Ew.
      destruct (df_empty df);
        [injection Ew as <-; repeat split; discriminate |].
      destruct (df_isnull_any df);
        [injection Ew as <-; repeat split; discriminate |].
      destruct (Nat.ltb (shape1 df) 2);
        [injection Ew as <-; repeat split; discriminate |].
      destruct (Nat.leb (shape0 df) (shape1 df));
        [injection Ew as <-; repeat split; discriminate |].
      destruct (linalg_inv lapack (shape1 df) (df_cov df));
        [discriminate | injection Ew as <-; repeat split; discriminate].
Qed.

(** *** Invariance under a change of unit and level *)

Lemma sumR_const (n : nat) (c : R) : sumR n (fun _ => c) = INR n * c.
Proof.
  induction n as [|n IH]; [simpl; ring |].
  cbn [sumR]. rewrite IH, S_INR. ring.
Qed.

Section Affine.

Variables (df df' : DataFrame) (lam : R) (shift : nat -> R).

Hypothesis Hrows : shape0 df' = shape0 df.
Hypothesis Hcols : df_columns df' = df_columns df.
Hypothesis Hlam : lam <> 0.
Hypothesis Hpre : optimizer_preconditions df.
Hypothesis Hcell :
  forall i j, (i < shape0 df)%nat -> (j < shape1 df)%nat ->
    cell_real df' i j = lam * cell_real df i j + shift j.

Lemma affine_shape1 : shape1 df' = shape1 df.
Proof. unfold shape1. rewrite Hcols. reflexivity. Qed.

Lemma affine_centred (i j : nat) :
  (i < shape0 df)%nat -> (j < shape1 df)%nat ->
  cell_real df' i j - col_mean df' j
  = lam * (cell_real df i j - col_mean df j).
Proof.
  intros Hi Hj.
  assert (Hn : INR (shape0 df) <> 0).
  { apply not_0_INR. destruct Hpre as (_ & _ & Hk & Hr). lia. }
  assert (Em : col_mean df' j = lam * col_mean df j + shift j).
  { unfold col_mean. rewrite Hrows.
    rewrite (sumR_ext _ _ (fun i => lam * cell_real df i j + shift j))
      by (intros i' Hi'; apply Hcell; assumption).
    rewrite sumR_plus, sumR_scal_l, sumR_const. field. exact Hn. }
  rewrite Em, (Hcell i j Hi Hj). ring.
Qed.

Lemma affine_cov (j l : nat) :
  (j < shape1 df)%nat -> (l < shape1 df)%nat ->
  df_cov df' j l = lam * lam * df_cov df j l.
Proof.
  intros Hj Hl. unfold df_cov. rewrite Hrows.
  unfold Rdiv. rewrite <- Rmult_assoc. f_equal.
  rewrite <- sumR_scal_l. apply sumR_ext. intros i Hi.
  rewrite (affine_centred i j Hi Hj), (affine_centred i l Hi Hl). ring.
Qed.

Lemma affine_inverse (B : matrix) :
  is_inverse (shape1 df) (df_cov df) B ->
  is_inverse (shape1 df') (df_cov df') (fun i j => B i j / (lam * lam)).
Proof.
  intros HB i j Hi Hj. rewrite affine_shape1 in *.
  destruct (HB i j Hi Hj) as [E1 E2]. split.
  - rewrite <- E1. unfold mat_mul. apply sumR_ext. intros l Hl.
    rewrite (affine_cov i l Hi Hl). field. exact Hlam.
  - rewrite <- E2. unfold mat_mul. apply sumR_ext. intros l Hl.
    rewrite (affine_cov l j Hl Hj). field. exact Hlam.
Qed.

End Affine.

(** The weights do not depend on the unit or the level of the returns:
    multiplying every return by the same non-zero factor (percent instead of
    fractions) and adding a constant to all returns of an asset leaves the
    result of calculate_mvp_weights unchanged. *)
Theorem mvp_weights_affine_invariant (lapack : lapack_on_singular)
    (df df' : DataFrame) (lam : R) (shift : nat -> R) :
  optimizer_preconditions df ->
  invertible (shape1 df) (df_cov df) ->
  shape0 df' = shape0 df ->
  df_columns df' = df_columns df ->
  df_isnull_any df' = false ->
  lam <> 0 ->
  (forall i j, (i < shape0 df)%nat -> (j < shape1 df)%nat ->
     cell_real df' i j = lam * cell_real df i j + shift j) ->
  calculate_mvp_weights lapack df' = calculate_mvp_weights lapack df.
Proof.
  intros Hpre Hinv Hrows Hcols Hnull Hlam Hcell.
  pose proof (affine_shape1 df df' Hcols) as Hk.
  assert (Hpre' : optimizer_preconditions df').
  { destruct Hpre as (He & _ & H2 & Hr).
    repeat split; try assumption; try lia.
    unfold df_empty in *. rewrite Hk, Hrows. exact He. }
  destruct (mvp_weights_ok lapack df Hpre Hinv) as (B & d & HB & Ed & Hd & E).
  pose proof (affine_inverse df df' lam shift Hrows Hcols Hlam Hpre Hcell B HB)
    as HB'.
  assert (Hinv' : invertible (shape1 df') (df_cov df'))
    by (eexists; exact HB').
  destruct (mvp_weights_ok lapack df' Hpre' Hinv')
    as (B1 & d1 & HB1 & Ed1 & Hd1 & E1).
  rewrite E, E1, Hcols, Hk. do 2 f_equal.
  apply map_ext_in. intros i Hi. apply in_seq in Hi. f_equal.
  assert (U : forall a b, (a < shape1 df)%nat -> (b < shape1 df)%nat ->
                          B1 a b = B a b / (lam * lam)).
  { intros a b Ha Hb.
    apply (inverse_unique _ _ _ _ HB1 HB'); rewrite Hk; assumption. }
  assert (Ev : forall a, (a < shape1 df)%nat ->
                 mat_vec (shape1 df) B1 ones a
                 = mat_vec (shape1 df) B ones a / (lam * lam)).
  { intros a Ha. unfold mat_vec. rewrite <- sumR_div.
    apply sumR_ext. intros b Hb. rewrite (U a b Ha Hb). unfold Rdiv. ring. }
  assert (Edd : d1 = d / (lam * lam)).
  { rewrite Ed1, Ed, Hk, !total_of_inverse. rewrite <- sumR_div.
    apply sumR_ext. intros a Ha. rewrite <- sumR_div.
    apply sumR_ext. intros b Hb. apply U; assumption. }
  rewrite (Ev i) by lia. rewrite Edd. field. split; [lra | exact Hlam].
Qed.

Lemma sample_df_percent_cells (i j : nat) :
  (i < shape0 sample_df)%nat -> (j < shape1 sample_df)%nat ->
  cell_real sample_df_percent i j
  = 100 * cell_real sample_df i j + (if Nat.eqb j 0 then 1 else 2).
Proof.
  unfold shape0, shape1. simpl. intros Hi Hj.
  destruct i as [|[|[|i]]]; try lia; destruct j as [|[|j]]; try lia;
    unfold cell_real; simpl; ring.
Qed.

Lemma mvp_weights_affine_invariant_witness :
  calculate_mvp_weights zero_pivot_met sample_df_percent
  = calculate_mvp_weights zero_pivot_met sample_df.
Proof.
  apply (mvp_weights_affine_invariant zero_pivot_met sample_df
           sample_df_percent 100
           (fun j => if Nat.eqb j 0 then 1 else 2)).
  - exact sample_df_preconditions.
  - exact sample_df_invertible.
  - reflexivity.
  - reflexivity.
  - reflexivity.
  - lra.
  - exact sample_df_percent_cells.
Defined.

End OptimizerExtras.

(** ** The statistics of the minimum-variance portfolio *)

Module PipelineExtras.
Import Sums LinAlg OptimizerProofs CompositorProofs StatisticsProofs
       OptimizerExtras.

Lemma series_std_value (rs : list R) :
  (2 <= length rs)%nat ->
  let avg := fold_left Rplus rs 0 / INR (length rs) in
  series_std (map Fin rs)
  = Fin (sqrt (fold_left Rplus (map (fun r => (avg + - r) * (avg + - r)) rs) 0
               / (INR (length rs) - 1))).
Proof.
  intros H avg. unfold series_std. rewrite length_map.
  replace (Nat.leb (length rs) 1) with false
    by (symmetry; apply Nat.leb_gt; lia).
  assert (Hne : rs <> []) by (destruct rs; [simpl in H; lia | discriminate]).
  rewrite (series_mean_Fin rs Hne). fold avg.
  rewrite map_map. cbn [fsub fneg fadd fmul].
  rewrite <- (map_map (fun r => (avg + - r) * (avg + - r)) Fin).
  unfold fsum. rewrite fold_fadd_Fin.
  set (ss := fold_left Rplus (map (fun r => (avg + - r) * (avg + - r)) rs) 0).
  assert (Hss : 0 <= ss).
  { apply fold_Rplus_nonneg; [lra |].
    intros r Hr. apply in_map_iff in Hr as (x & <- & _). apply Rle_0_sqr. }
  assert (Hn : 1 < INR (length rs)).
  { replace 1 with (INR 1) by reflexivity. apply lt_INR. lia. }
  rewrite fdiv_Fin by lra. cbn [fsqrt].
  rewrite Rltb_false; [reflexivity |].
  apply Rle_not_lt. apply Rmult_le_pos; [exact Hss |].
  apply Rlt_le, Rinv_0_lt_compat. lra.
Qed.

Lemma fold_Rplus_seq (n : nat) (g : nat -> R) :
  fold_left Rplus (map g (seq 0 n)) 0 = sumR n g.
Proof.
  induction n as [|n IH]; [reflexivity |].
  rewrite seq_S, map_app, fold_left_app, IH. reflexivity.
Qed.

Lemma forallb_isfinite_Fin (l : list R) : forallb isfinite (map Fin l) = true.
Proof. induction l as [|x l IH]; [reflexivity | exact IH]. Qed.

(** The sample variance of the row-by-weights series is v' S v. *)
Lemma weighted_series_variance (df : DataFrame) (wv : vector) :
  (2 <= shape0 df)%nat ->
  let ys := map (fun i => sumR (shape1 df) (fun j => cell_real df i j * wv j))
                (seq 0 (shape0 df)) in
  let avg := fold_left Rplus ys 0 / INR (length ys) in
  fold_left Rplus (map (fun r => (avg + - r) * (avg + - r)) ys) 0
  / (INR (length ys) - 1)
  = portfolio_variance (shape1 df) (df_cov df) wv.
Proof.
  intros Hn ys avg.
  assert (Hlen : length ys = shape0 df)
    by (unfold ys; rewrite length_map, length_seq; reflexivity).
  assert (Hn0 : INR (shape0 df) <> 0) by (apply not_0_INR; lia).
  set (y := fun i => sumR (shape1 df) (fun j => cell_real df i j * wv j)).
  set (z := fun i => sumR (shape1 df) (fun l => centred df i l * wv l)).
  assert (Eavg : avg = sumR (shape1 df) (fun j => col_mean df j * wv j)).
  { unfold avg. rewrite Hlen. unfold ys. rewrite fold_Rplus_seq.
    rewrite sumR_swap. rewrite <- sumR_div.
    apply sumR_ext. intros j _. unfold col_mean.
    rewrite sumR_scal_r. unfold Rdiv. ring. }
  assert (Ez : forall i, avg + - y i = - z i).
  { intros i. rewrite Eavg. unfold y, z, centred.
    replace (- sumR (shape1 df)
                (fun l => (cell_real df i l - col_mean df l) * wv l))
      with (sumR (shape1 df) (fun j => col_mean df j * wv j)
            - sumR (shape1 df) (fun j => cell_real df i j * wv j)).
    - ring.
    - rewrite <- sumR_minus.
      rewrite <- (Rmult_1_l (sumR _ (fun l => (_ - _) * _))) at 1.
      replace (- (1 * sumR (shape1 df)
                    (fun l => (cell_real df i l - col_mean df l) * wv l)))
        with ((-1) * sumR (shape1 df)
                    (fun l => (cell_real df i l - col_mean df l) * wv l))
        by ring.
      rewrite <- sumR_scal_l. apply sumR_ext. intros l _. ring. }
  unfold ys at 1. rewrite map_map, fold_Rplus_seq, Hlen.
  rewrite (sumR_ext _ _ (fun i => z i * z i))
    by (intros i _; fold (y i); rewrite (Ez i); ring).
  replace (INR (shape0 df) - 1) with (INR (shape0 df - 1))
    by (rewrite minus_INR by lia; reflexivity).
  unfold portfolio_variance, dot, mat_vec.
  change (df_cov df) with (gram (shape0 df) (centred df) (INR (shape0 df - 1))).
  rewrite gram_quadratic. reflexivity.
Qed.

(** The pipeline of main: the standard deviation that
    calculate_portfolio_statistics reports for the series returned by
    calculate_mvp_portfolio is the square root of w' S w, the sample variance
    of the portfolio under the weights of calculate_mvp_weights, which those
    weights minimise. *)
Theorem mvp_portfolio_volatility (lapack : lapack_on_singular)
    (df : DataFrame) (interval : string) :
  optimizer_preconditions df ->
  invertible (shape1 df) (df_cov df) ->
  NoDup (df_columns df) ->
  recognized_frequency interval ->
  exists w wv s r sd,
    calculate_mvp_weights lapack df = Ok w /\
    s_values w = map (fun j => Fin (wv j)) (seq 0 (shape1 df)) /\
    calculate_mvp_portfolio lapack df = Ok s /\
    calculate_portfolio_statistics s interval = Ok r /\
    std_dev r = Fin sd /\
    0 <= sd /\
    sd * sd = portfolio_variance (shape1 df) (df_cov df) wv.
Proof.
  intros Hpre Hinv Hnd Hrec.
  destruct (mvp_weights_vector lapack df Hpre Hinv) as (wv & d & B & E & _).
  assert (Hnull : df_isnull_any df = false) by exact (proj1 (proj2 Hpre)).
  assert (Hrows : (3 <= shape0 df)%nat)
    by (destruct Hpre as (_ & _ & Hk & Hr); lia).
  set (ys := map (fun i => sumR (shape1 df) (fun j => cell_real df i j * wv j))
                 (seq 0 (shape0 df))).
  set (s := combine (df_index df) (map Fin ys)).
  assert (Es : calculate_mvp_portfolio lapack df = Ok s).
  { unfold calculate_mvp_portfolio.
    rewrite (portfolio_run lapack df_dot df _ E), (df_dot_weights df wv Hnull Hnd).
    unfold s, ys. rewrite map_map.
    replace (index_equals (df_index df) _) with true; [reflexivity |].
    symmetry. apply index_equals_eq. symmetry.
    apply map_fst_combine. rewrite length_map, length_seq. reflexivity. }
  assert (Hlen : length ys = shape0 df)
    by (unfold ys; rewrite length_map, length_seq; reflexivity).
  assert (Ev : s_values s = map Fin ys).
  { unfold s_values, s. apply map_snd_combine.
    rewrite length_map, Hlen. reflexivity. }
  assert (Hne : s <> []).
  { intros H. assert (L : length (s_values s) = 0%nat) by (rewrite H; reflexivity).
    rewrite Ev, length_map, Hlen in L. lia. }
  assert (Hfin : forallb isfinite (s_values s) = true)
    by (rewrite Ev; apply forallb_isfinite_Fin).
  destruct (recognized_factor interval Hrec) as (f & Hf & _).
  assert (Hlen2 : (2 <= length ys)%nat) by lia.
  pose proof (series_std_value ys Hlen2) as Hstd. cbv zeta in Hstd.
  match type of Hstd with
  | _ = Fin (sqrt ?v) =>
      assert (HV : v = portfolio_variance (shape1 df) (df_cov df) wv)
        by (apply (weighted_series_variance df wv); lia);
      assert (Hpos : 0 <= v)
  end.
  { apply Rmult_le_pos.
    - apply fold_Rplus_nonneg; [lra |].
      intros x Hx. apply in_map_iff in Hx as (u & <- & _). apply Rle_0_sqr.
    - apply Rlt_le, Rinv_0_lt_compat.
      assert (1 < INR (length ys)).
      { replace 1 with (INR 1) by reflexivity. apply lt_INR. lia. }
      lra. }
  eexists. exists wv, s. eexists. eexists.
  split; [exact E |]. split.
  { unfold s_values. apply map_snd_combine.
    rewrite length_weights. reflexivity. }
  split; [exact Es |].
  rewrite (statistics_run s interval f Hne Hfin Hf). cbv zeta.
  split; [reflexivity |]. cbn [std_dev].
  rewrite Ev. split; [exact Hstd |].
  split; [apply sqrt_pos |].
  rewrite <- HV. apply sqrt_sqrt. exact Hpos.
Qed.

Lemma mvp_portfolio_volatility_witness :
  exists w wv s r sd,
    calculate_mvp_weights zero_pivot_met sample_df = Ok w /\
    s_values w = map (fun j => Fin (wv j)) (seq 0 (shape1 sample_df)) /\
    calculate_mvp_portfolio zero_pivot_met sample_df = Ok s /\
    calculate_portfolio_statistics s "monthly" = Ok r /\
    std_dev r = Fin sd /\
    0 <= sd /\
    sd * sd = portfolio_variance (shape1 sample_df) (df_cov sample_df) wv.
Proof.
  apply (mvp_portfolio_volatility zero_pivot_met sample_df "monthly"
           sample_df_preconditions sample_df_invertible).
  - simpl. repeat constructor; simpl; intuition discriminate.
  - right. left. reflexivity.
Defined.

End PipelineExtras.

(** ** analyze_factor_exposures *)

Module ChartProofs.
Import FactorExposureChart.

Lemma Zfloor_IZR (z : Z) : Zfloor (IZR z) = z.
Proof. apply Zfloor_eq. lra. Qed.

Lemma Rtrunc_IZR (z : Z) : Rtrunc (IZR z) = z.
Proof.
  unfold Rtrunc, Rltb. destruct (Rlt_dec (IZR z) 0) as [H | H].
  - rewrite <- opp_IZR, Zfloor_IZR. lia.
  - apply Zfloor_IZR.
Qed.

Lemma Rtrunc_bounds (x : R) (m : Z) :
  - IZR m <= x <= IZR m ->
  (- m <= Rtrunc x <= m)%Z /\
  (0 <= x -> (0 <= Rtrunc x)%Z) /\
  (x <= 0 -> (Rtrunc x <= 0)%Z).
Proof.
  intros [Hlo Hhi]. unfold Rtrunc, Rltb.
  destruct (Rlt_dec x 0) as [H | H].
  - assert (H0 : (0 <= Zfloor (- x))%Z) by (apply Zfloor_lub; simpl; lra).
    assert (H1 : (Zfloor (- x) <= m)%Z).
    { rewrite <- (Zfloor_IZR m). apply Zfloor_le. lra. }
    repeat split; try lia. intros Hx. lra.
  - assert (H0 : (0 <= Zfloor x)%Z) by (apply Zfloor_lub; simpl; lra).
    assert (H1 : (Zfloor x <= m)%Z).
    { rewrite <- (Zfloor_IZR m). apply Zfloor_le. lra. }
    repeat split; try lia. intros Hx.
    assert (x = 0) by lra. subst. change 0 with (IZR 0).
    rewrite Zfloor_IZR. lia.
Qed.

(** The clamped and scaled bar length of one value. *)
Lemma scaled_length (v sc : R) (mid : Z) :
  0 < sc -> (0 <= mid)%Z ->
  exists k,
    py_int (fmul (fdiv (fmax (fmin (Fin v) (Fin sc)) (fneg (Fin sc))) (Fin sc))
                 (Fin (IZR mid))) = Ok k /\
    (- mid <= k <= mid)%Z /\
    (sc <= v -> k = mid) /\
    (v <= - sc -> k = (- mid)%Z) /\
    (0 <= v -> (0 <= k)%Z) /\
    (v <= 0 -> (k <= 0)%Z).
Proof.
  intros Hsc Hmid.
  assert (Hm : 0 <= IZR mid) by (apply IZR_le; exact Hmid).
  assert (Hcl : exists b,
    fmax (fmin (Fin v) (Fin sc)) (fneg (Fin sc)) = Fin b /\
    - sc <= b <= sc /\ (sc <= v -> b = sc) /\ (v <= - sc -> b = - sc) /\
    (0 <= v -> 0 <= b) /\ (v <= 0 -> b <= 0)).
  { unfold fmin, fmax, fneg, fltb, Rltb.
    destruct (Rlt_dec sc v); destruct (Rlt_dec _ (- sc));
      eexists; (split; [reflexivity |]); repeat split; intros; lra. }
  destruct Hcl as (b & -> & Hb & Hhi & Hlo & Hp & Hn).
  rewrite fdiv_Fin by lra. cbn [fmul py_int].
  exists (Rtrunc (b / sc * IZR mid)).
  split; [reflexivity |].
  assert (Hr : -1 <= b / sc <= 1).
  { split.
    - apply (Rmult_le_reg_r sc); [exact Hsc |].
      unfold Rdiv. rewrite Rmult_assoc, Rinv_l by lra. lra.
    - apply (Rmult_le_reg_r sc); [exact Hsc |].
      unfold Rdiv. rewrite Rmult_assoc, Rinv_l by lra. lra. }
  assert (Hx : - IZR mid <= b / sc * IZR mid <= IZR mid) by nra.
  destruct (Rtrunc_bounds _ mid Hx) as (B1 & B2 & B3).
  split; [exact B1 |]. repeat split.
  - intros H. rewrite (Hhi H).
    replace (sc / sc * IZR mid) with (IZR mid) by (field; lra).
    apply Rtrunc_IZR.
  - intros H. rewrite (Hlo H).
    replace (- sc / sc * IZR mid) with (IZR (- mid))
      by (rewrite opp_IZR; field; lra).
    apply Rtrunc_IZR.
  - intros H. apply B2.
    assert (0 <= b / sc).
    { apply (Rmult_le_reg_r sc); [exact Hsc |].
      unfold Rdiv. rewrite Rmult_assoc, Rinv_l by lra. specialize (Hp H). lra. }
    nra.
  - intros H. apply B3.
    assert (b / sc <= 0).
    { apply (Rmult_le_reg_r sc); [exact Hsc |].
      unfold Rdiv. rewrite Rmult_assoc, Rinv_l by lra. specialize (Hn H). lra. }
    nra.
Qed.

Lemma count_full_app (a b : list glyph) :
  count_full (a ++ b) = (count_full a + count_full b)%nat.
Proof.
  induction a as [|[|] a IH]; simpl; [reflexivity | exact IH | rewrite IH; reflexivity].
Qed.

Lemma count_full_low (n : Z) : count_full (glyphs Low n) = 0%nat.
Proof. unfold glyphs. induction (Z.to_nat n); [reflexivity | exact IHn0]. Qed.

Lemma count_full_full (n : Z) : count_full (glyphs Full n) = Z.to_nat n.
Proof.
  unfold glyphs. induction (Z.to_nat n) as [|m IH]; [reflexivity |].
  simpl. rewrite IH. reflexivity.
Qed.

Lemma length_glyphs (c : glyph) (n : Z) : length (glyphs c n) = Z.to_nat n.
Proof. apply repeat_length. Qed.

(** A bar holds |scaled| full blocks; it is [width] long when flat and twice
    the midpoint otherwise. *)
Lemma build_bar_shape (width mid k : Z) :
  (0 <= mid)%Z -> (- mid <= k <= mid)%Z ->
  count_full (build_bar width mid k) = Z.to_nat (Z.abs k) /\
  length (build_bar width mid k)
  = (if Z.eqb k 0 then Z.to_nat width else 2 * Z.to_nat mid)%nat.
Proof.
  intros Hmid Hk. unfold build_bar.
  destruct (Z.ltb_spec 0 k) as [Hp | Hp].
  - rewrite !count_full_app, !count_full_low, count_full_full.
    rewrite !length_app, !length_glyphs.
    replace (Z.eqb k 0) with false by (symmetry; apply Z.eqb_neq; lia).
    split; lia.
  - destruct (Z.ltb_spec k 0) as [Hn | Hn].
    + rewrite !count_full_app, !count_full_low, count_full_full.
      rewrite !length_app, !length_glyphs.
      replace (Z.eqb k 0) with false by (symmetry; apply Z.eqb_neq; lia).
      split; lia.
    + assert (k = 0%Z) by lia. subst.
      rewrite count_full_low, length_glyphs. split; reflexivity.
Qed.

Lemma interpret_exposure_float (x : pyfloat) :
  exists l, PortfolioAnalyzer.interpret_exposure (PortfolioAnalyzer.PyFloat x) = Ok l.
Proof.
  unfold PortfolioAnalyzer.interpret_exposure.
  repeat match goal with
         | |- context [if ?c then _ else _] => destruct c
         end; eexists; reflexivity.
Qed.

Lemma chart_lines_fit (betas : list (string * pyfloat)) (width : Z) (sc : R) :
  forallb isfinite (map snd betas) = true ->
  (1 <= width)%Z -> 0 < sc ->
  exists lines,
    chart_lines betas width (Fin sc) (width / 2) = (lines, Ok tt) /\
    Forall2 (chart_line_fits width) betas lines.
Proof.
  intros Hfin Hw Hsc.
  assert (Hmid : (0 <= width / 2)%Z) by (apply Z.div_pos; lia).
  induction betas as [|[factor value] betas IH].
  - exists []. split; [reflexivity | constructor].
  - simpl in Hfin. apply andb_true_iff in Hfin as [Hv Hrest].
    destruct value as [v | | |]; try discriminate.
    destruct (IH Hrest) as (lines & El & Hl).
    destruct (scaled_length v sc (width / 2) Hsc Hmid) as (k & Ek & Hk & _).
    destruct (interpret_exposure_float (Fin v)) as [lab Elab].
    cbn [chart_lines]. rewrite Ek, Elab, El.
    eexists. split; [reflexivity |].
    constructor; [| exact Hl].
    exists (build_bar width (width / 2) k), lab.
    destruct (build_bar_shape width (width / 2) k Hmid Hk) as [Hc Hlen].
    split; [reflexivity |]. split; [exact Elab |].
    rewrite Hc, Hlen. split; [lia |].
    destruct (Z.eqb_spec k 0) as [-> | Hne]; [left; split; reflexivity |].
    right. split; lia.
Qed.

Lemma fits_even_width (width : Z) (betas : list (string * pyfloat))
    (lines : list chart_event) :
  Forall2 (chart_line_fits width) betas lines ->
  (2 * Z.to_nat (width / 2) = Z.to_nat width)%nat ->
  forall factor bar value exposure,
    In (ChartLine factor bar value exposure) lines ->
    length bar = Z.to_nat width.
Proof.
  intros H E2. induction H as [|b ev betas' lines' Hb Hl IH];
    intros factor bar value exposure Hin; [contradiction |].
  destruct Hin as [Heq | Hin]; [| exact (IH _ _ _ _ Hin)].
  destruct Hb as (bar' & exposure' & Eev & _ & _ & Hshape).
  rewrite Heq in Eev. inversion Eev; subst.
  destruct Hshape as [[_ H] | [_ H]]; lia.
Qed.

(** For non-empty finite betas, a width between 1 and 40 and a positive
    finite scale, analyze_factor_exposures prints the header and one line per
    factor in order, with the factor's value and the label of
    interpret_exposure; a bar never holds more full blocks than half the
    width, a bar with a block is twice the midpoint long and a flat bar is
    [width] long, so that bars of an even width all have that width and bars
    of an odd width differ by one character. *)
Theorem chart_bars_fit (betas : list (string * pyfloat)) (width : Z) (sc : R) :
  betas <> [] ->
  forallb isfinite (map snd betas) = true ->
  (1 <= width <= 40)%Z ->
  0 < sc ->
  exists lines,
    analyze_factor_exposures betas width (Fin sc)
    = (ChartHeader :: lines, Ok tt) /\
    Forall2 (chart_line_fits width) betas lines /\
    (Z.even width = true ->
     forall factor bar value exposure,
       In (ChartLine factor bar value exposure) lines ->
       length bar = Z.to_nat width).
Proof.
  intros Hne Hfin Hw Hsc.
  destruct (chart_lines_fit betas width sc Hfin (proj1 Hw) Hsc)
    as (lines & El & Hl).
  exists lines. split; [| split; [exact Hl |]].
  - unfold analyze_factor_exposures.
    rewrite (StatisticsProofs.nonempty_length betas Hne), Hfin.
    replace ((width <=? 0)%Z || (40 <? width)%Z) with false
      by (symmetry; apply orb_false_iff; split;
          [apply Z.leb_gt | apply Z.ltb_ge]; lia).
    replace (fleb0 (Fin sc)) with false.
    + cbn [negb]. rewrite El. reflexivity.
    + unfold fleb0, fltb, feqb. rewrite Rltb_false, Reqb_false by lra.
      reflexivity.
  - intros Hev factor bar value exposure Hin.
    assert (E2 : (2 * Z.to_nat (width / 2) = Z.to_nat width)%nat).
    { destruct (Z.even_spec width) as [He _].
      destruct (He Hev) as [q Eq]. subst width.
      rewrite Z.mul_comm, Z.div_mul by lia. lia. }
    exact (fits_even_width width betas lines Hl E2 factor bar value exposure Hin).
Qed.

Lemma chart_bars_fit_witness :
  exists lines,
    analyze_factor_exposures sample_betas 20 (Fin 1)
    = (ChartHeader :: lines, Ok tt) /\
    Forall2 (chart_line_fits 20) sample_betas lines /\
    (Z.even 20 = true ->
     forall factor bar value exposure,
       In (ChartLine factor bar value exposure) lines ->
       length bar = Z.to_nat 20).
Proof.
  apply (chart_bars_fit sample_betas 20 1).
  - discriminate.
  - reflexivity.
  - lia.
  - lra.
Defined.

(** *** Direction and saturation of a bar *)

Lemma analyze_valid_run (betas : list (string * pyfloat)) (width : Z)
    (scale : pyfloat) :
  betas <> [] ->
  forallb isfinite (map snd betas) = true ->
  (1 <= width <= 40)%Z ->
  fleb0 scale = false ->
  analyze_factor_exposures betas width scale
  = (ChartHeader :: fst (chart_lines betas width scale (width / 2)),
     snd (chart_lines betas width scale (width / 2))).
Proof.
  intros Hne Hfin Hw Hs. unfold analyze_factor_exposures.
  rewrite (StatisticsProofs.nonempty_length betas Hne), Hfin, Hs.
  replace ((width <=? 0)%Z || (40 <? width)%Z) with false
    by (symmetry; apply orb_false_iff; split;
        [apply Z.leb_gt | apply Z.ltb_ge]; lia).
  cbn [negb]. destruct (chart_lines betas width scale (width / 2)). reflexivity.
Qed.

Lemma fleb0_positive (sc : R) : 0 < sc -> fleb0 (Fin sc) = false.
Proof.
  intros H. unfold fleb0, fltb, feqb.
  rewrite Rltb_false, Reqb_false by lra. reflexivity.
Qed.

Lemma chart_lines_In (betas : list (string * pyfloat)) (width : Z) (sc : R)
    (lines : list chart_event) (factor : string) (v : R) (k : Z) :
  chart_lines betas width (Fin sc) (width / 2) = (lines, Ok tt) ->
  In (factor, Fin v) betas ->
  py_int (fmul (fdiv (fmax (fmin (Fin v) (Fin sc)) (fneg (Fin sc))) (Fin sc))
               (Fin (IZR (width / 2)))) = Ok k ->
  exists exposure,
    In (ChartLine factor (build_bar width (width / 2) k) (Fin v) exposure) lines.
Proof.
  revert lines. induction betas as [|[f x] betas IH]; intros lines E Hin Hk;
    [contradiction |].
  cbn [chart_lines] in E.
  destruct (py_int (fmul (fdiv (fmax (fmin x (Fin sc)) (fneg (Fin sc))) (Fin sc))
                         (Fin (IZR (width / 2))))) as [k' |] eqn:Ek';
    [| discriminate].
  destruct (PortfolioAnalyzer.interpret_exposure (PortfolioAnalyzer.PyFloat x))
    as [lab |] eqn:Elab; [| discriminate].
  destruct (chart_lines betas width (Fin sc) (width / 2)) as [out r] eqn:Er.
  injection E as <- ->.
  destruct Hin as [Heq | Hin].
  - injection Heq as -> ->. rewrite Hk in Ek'. injection Ek' as <-.
    exists lab. left. reflexivity.
  - destruct (IH out eq_refl Hin Hk) as [exposure He].
    exists exposure. right. exact He.
Qed.

(** Under the same conditions and a width of at least 2, a value at or
    above the scale fills the whole right half of its bar, a value at or
    below minus the scale fills the whole left half, and a value of 0 gives
    the flat bar. *)
Theorem chart_bar_saturates (betas : list (string * pyfloat)) (width : Z)
    (sc : R) (factor : string) (v : R) :
  forallb isfinite (map snd betas) = true ->
  (2 <= width <= 40)%Z ->
  0 < sc ->
  In (factor, Fin v) betas ->
  exists lines,
    analyze_factor_exposures betas width (Fin sc)
    = (ChartHeader :: lines, Ok tt) /\
    (sc <= v ->
     exists exposure,
       In (ChartLine factor
             (glyphs Low (width / 2) ++ glyphs Full (width / 2))
             (Fin v) exposure) lines) /\
    (v <= - sc ->
     exists exposure,
       In (ChartLine factor
             (glyphs Full (width / 2) ++ glyphs Low (width / 2))
             (Fin v) exposure) lines) /\
    (v = 0 ->
     exists exposure,
       In (ChartLine factor (glyphs Low width) (Fin v) exposure) lines).
Proof.
  intros Hfin Hw Hsc Hin.
  assert (Hne : betas <> []) by (intros ->; contradiction).
  assert (Hw1 : (1 <= width)%Z) by lia.
  assert (Hmid : (1 <= width / 2)%Z)
    by (apply Z.div_le_lower_bound; lia).
  destruct (chart_lines_fit betas width sc Hfin Hw1 Hsc) as (lines & El & _).
  exists lines. split.
  { rewrite (analyze_valid_run betas width (Fin sc) Hne Hfin)
      by (try apply fleb0_positive; try lia; exact Hsc).
    rewrite El. reflexivity. }
  destruct (scaled_length v sc (width / 2) Hsc) as (k & Ek & Hk & Hhi & Hlo & Hp & Hn);
    [lia |].
  destruct (chart_lines_In betas width sc lines factor v k El Hin Ek)
    as [exposure He].
  repeat split; intros H; exists exposure.
  - rewrite (Hhi H) in He. unfold build_bar in He.
    replace (0 <? width / 2)%Z with true in He
      by (symmetry; apply Z.ltb_lt; lia).
    rewrite Z.sub_diag in He. cbn [glyphs Z.to_nat repeat] in He.
    rewrite app_nil_r in He. exact He.
  - rewrite (Hlo H) in He. unfold build_bar in He.
    replace (0 <? - (width / 2))%Z with false in He
      by (symmetry; apply Z.ltb_ge; lia).
    replace (- (width / 2) <? 0)%Z with true in He
      by (symmetry; apply Z.ltb_lt; lia).
    replace (Z.abs (- (width / 2))) with (width / 2)%Z in He by lia.
    rewrite Z.sub_diag in He. cbn [glyphs Z.to_nat repeat app] in He.
    exact He.
  - assert (k = 0%Z).
    { assert ((0 <= k)%Z) by (apply Hp; lra).
      assert ((k <= 0)%Z) by (apply Hn; lra). lia. }
    subst k. exact He.
Qed.

Lemma chart_bar_saturates_witness :
  exists lines,
    analyze_factor_exposures sample_betas 20 (Fin 1)
    = (ChartHeader :: lines, Ok tt) /\
    exists exposure,
      In (ChartLine "Mom" (glyphs Low 10 ++ glyphs Full 10) (Fin 2) exposure)
         lines.
Proof.
  destruct (chart_bar_saturates sample_betas 20 1 "Mom" 2)
    as (lines & E & Hhi & _).
  - reflexivity.
  - lia.
  - lra.
  - simpl. auto.
  - exists lines. split; [exact E |]. apply Hhi. lra.
Defined.

(** *** Scales that are not positive finite numbers *)

Lemma chart_lines_nan (betas : list (string * pyfloat)) (width mid : Z) :
  betas <> [] ->
  forallb isfinite (map snd betas) = true ->
  chart_lines betas width NaN mid
  = ([], Raise (Exn ValueError "cannot convert float NaN to integer" None)).
Proof.
  intros Hne Hfin. destruct betas as [|[f x] betas]; [contradiction |].
  simpl in Hfin. apply andb_true_iff in Hfin as [Hx _].
  destruct x as [v | | |]; try discriminate. reflexivity.
Qed.

Lemma chart_lines_inf (betas : list (string * pyfloat)) (width mid : Z) :
  forallb isfinite (map snd betas) = true ->
  exists lines,
    chart_lines betas width PInf mid = (lines, Ok tt) /\
    Forall2 (fun b ev => exists exposure,
               ev = ChartLine (fst b) (glyphs Low width) (snd b) exposure)
            betas lines.
Proof.
  intros Hfin. induction betas as [|[f x] betas IH].
  - exists []. split; [reflexivity | constructor].
  - simpl in Hfin. apply andb_true_iff in Hfin as [Hx Hrest].
    destruct x as [v | | |]; try discriminate.
    destruct (IH Hrest) as (lines & El & Hl).
    destruct (interpret_exposure_float (Fin v)) as [lab Elab].
    cbn [chart_lines fmin fmax fneg fltb fdiv fmul py_int].
    replace (Rtrunc (0 * IZR mid)) with 0%Z
      by (rewrite Rmult_0_l; change 0 with (IZR 0); rewrite Rtrunc_IZR; reflexivity).
    rewrite Elab, El. eexists. split; [reflexivity |].
    constructor; [| exact Hl]. exists lab. reflexivity.
Qed.

(** The check on the scale rejects zero and negative numbers but lets the
    other non-numbers through: with a NaN scale the header is printed and
    the first factor then fails with the ValueError of int(); with an
    infinite scale every bar is flat. *)
Theorem chart_scale_edges (betas : list (string * pyfloat)) (width : Z) :
  betas <> [] ->
  forallb isfinite (map snd betas) = true ->
  (1 <= width <= 40)%Z ->
  (forall sc, sc <= 0 ->
     analyze_factor_exposures betas width (Fin sc)
     = ([], Raise (Exn ValueError
                     "Scale must be a positive floating point number." None))) /\
  analyze_factor_exposures betas width NaN
  = ([ChartHeader],
     Raise (Exn ValueError "cannot convert float NaN to integer" None)) /\
  exists lines,
    analyze_factor_exposures betas width PInf = (ChartHeader :: lines, Ok tt) /\
    Forall2 (fun b ev => exists exposure,
               ev = ChartLine (fst b) (glyphs Low width) (snd b) exposure)
            betas lines.
Proof.
  intros Hne Hfin Hw. split; [| split].
  - intros sc Hsc. unfold analyze_factor_exposures.
    rewrite (StatisticsProofs.nonempty_length betas Hne), Hfin.
    replace ((width <=? 0)%Z || (40 <? width)%Z) with false
      by (symmetry; apply orb_false_iff; split;
          [apply Z.leb_gt | apply Z.ltb_ge]; lia).
    replace (fleb0 (Fin sc)) with true; [reflexivity |].
    unfold fleb0, fltb, feqb. symmetry. apply orb_true_iff.
    destruct (Req_dec_T sc 0) as [-> | Hn];
      [right; apply Reqb_true; reflexivity | left; apply Rltb_true; lra].
  - rewrite (analyze_valid_run betas width NaN Hne Hfin Hw eq_refl).
    rewrite (chart_lines_nan betas width (width / 2) Hne Hfin). reflexivity.
  - destruct (chart_lines_inf betas width (width / 2) Hfin) as (lines & El & Hl).
    exists lines. split; [| exact Hl].
    rewrite (analyze_valid_run betas width PInf Hne Hfin Hw eq_refl), El.
    reflexivity.
Qed.

Lemma chart_scale_edges_witness :
  analyze_factor_exposures sample_betas 20 NaN
  = ([ChartHeader],
     Raise (Exn ValueError "cannot convert float NaN to integer" None)).
Proof.
  apply (proj1 (proj2 (chart_scale_edges sample_betas 20
                         ltac:(discriminate) eq_refl ltac:(lia)))).
Defined.

End ChartProofs.

(** ** print_portfolio_statistics *)

Module PrinterProofs.
Import PortfolioAnalyzer StatisticsPrinter.






End PrinterProofs.

(** ** check_validity_tickers *)

Module TickerProofs.
Import ValidityInputCheck.

Lemma ascii_text_check (s : string) :
  forallb (fun c => Nat.ltb (nat_of_ascii c) 128) (list_ascii_of_string s) = true ->
  ascii_text s.
Proof.
  intros H. apply Forall_forall. intros c Hc.
  apply Nat.ltb_lt. exact (proj1 (forallb_forall _ _) H c Hc).
Qed.

Lemma ticker_char_not_space (c : ascii) : ticker_char c = true -> is_space c = false.
Proof.
  destruct c as [[] [] [] [] [] [] [] []]; intros H;
    first [ reflexivity | discriminate H ].
Qed.

Lemma drop_spaces_word (l : list ascii) :
  forallb ticker_char l = true -> drop_spaces l = l.
Proof.
  destruct l as [|c l]; [reflexivity |]. simpl. intros H.
  apply andb_true_iff in H as [Hc _].
  rewrite (ticker_char_not_space c Hc). reflexivity.
Qed.

Lemma forallb_rev {A : Type} (p : A -> bool) (l : list A) :
  forallb p (rev l) = forallb p l.
Proof.
  destruct (forallb p l) eqn:E.
  - apply forallb_forall. intros x Hx. apply in_rev in Hx.
    exact (proj1 (forallb_forall p l) E x Hx).
  - destruct (forallb p (rev l)) eqn:E'; [| reflexivity].
    rewrite <- E. symmetry. apply forallb_forall. intros x Hx.
    apply (proj1 (forallb_forall p (rev l)) E'). apply in_rev.
    rewrite rev_involutive. exact Hx.
Qed.

(** A word of the ticker class is its own strip. *)
Lemma strip_word (s : string) :
  forallb ticker_char (list_ascii_of_string s) = true -> strip s = s.
Proof.
  intros H. unfold strip.
  rewrite (drop_spaces_word _ H).
  rewrite drop_spaces_word by (rewrite forallb_rev; exact H).
  rewrite rev_involutive. apply string_of_list_ascii_of_string.
Qed.

Lemma drop_spaces_head (l : list ascii) :
  match drop_spaces l with
  | [] => True
  | c :: _ => is_space c = false
  end.
Proof.
  induction l as [|c l IH]; simpl; [exact I |].
  destruct (is_space c) eqn:E; [exact IH | exact E].
Qed.

(** A stripped string does not end with a newline, so the pattern matches
    it exactly when it is a non-empty word of the class. *)
Lemma pattern_match_strip (t : string) :
  pattern_match (strip t) = true <-> well_formed_ticker t.
Proof.
  unfold pattern_match, well_formed_ticker, strip.
  rewrite list_ascii_of_string_of_list_ascii.
  set (l := rev (drop_spaces (list_ascii_of_string t))).
  rewrite rev_involutive.
  pose proof (drop_spaces_head l) as Hh.
  destruct (drop_spaces l) as [|c r] eqn:E.
  - simpl. split; [discriminate |]. intros [H _]. contradiction H. reflexivity.
  - assert (Hc : Nat.eqb (nat_of_ascii c) 10 = false).
    { destruct (Nat.eqb_spec (nat_of_ascii c) 10) as [H10 | H10]; [| reflexivity].
      unfold is_space, code_between in Hh. rewrite H10 in Hh. discriminate. }
    rewrite Hc. split.
    + intros H. apply andb_true_iff in H as [_ H]. split; [| exact H].
      intros Hs.
      assert (L : length (list_ascii_of_string
                            (string_of_list_ascii (rev (c :: r)))) = 0%nat)
        by (rewrite Hs; reflexivity).
      rewrite list_ascii_of_string_of_list_ascii, length_rev in L. discriminate.
    + intros [_ H]. apply andb_true_iff. split; [| exact H].
      rewrite length_rev. reflexivity.
Qed.

Section API.

Variable ticker_info : string -> result (option nat).

Lemma check_one_word (s : string) :
  s <> ""%string ->
  forallb ticker_char (list_ascii_of_string s) = true ->
  check_valid_ticker_with_API ticker_info s
  = ([s], match ticker_info s with
          | Raise _ => Ok false
          | Ok None => Ok false
          | Ok (Some n) => Ok (Nat.ltb 0 n)
          end).
Proof.
  intros Hne Hw. unfold check_valid_ticker_with_API.
  rewrite (strip_word s Hw).
  destruct (String.eqb_spec s ""); [contradiction | reflexivity].
Qed.

Lemma check_each_words (ts : list string) :
  (forall t, In t ts -> well_formed_ticker t) ->
  let r := check_each ticker_info (map strip ts) in
  (snd r = true <-> forall t, In t ts -> known_ticker ticker_info t) /\
  (snd r = true -> fst r = map strip ts) /\
  (forall q, In q (fst r) -> In q (map strip ts)).
Proof.
  induction ts as [|t ts IH]; intros Hw; cbv zeta.
  - simpl. split; [split; [intros _ t [] | reflexivity] |].
    split; [reflexivity | intros q []].
  - assert (Hwt : well_formed_ticker t) by (apply Hw; left; reflexivity).
    destruct Hwt as [Hne Hword].
    specialize (IH (fun x Hx => Hw x (or_intror Hx))).
    cbv zeta in IH. destruct IH as (IH1 & IH2 & IH3).
    cbn [map check_each]. rewrite (check_one_word (strip t) Hne Hword).
    destruct (ticker_info (strip t)) as [[n |] | e] eqn:Ei.
    + destruct (Nat.ltb_spec 0 n) as [Hn | Hn].
      * destruct (check_each ticker_info (map strip ts)) as [q' b] eqn:Er.
        cbn [fst snd] in *. repeat split.
        -- intros Hb x [<- | Hx]; [exists n; auto | apply IH1; assumption].
        -- intros H. apply IH1. intros x Hx. apply H. right. exact Hx.
        -- intros Hb. simpl. f_equal. apply IH2. exact Hb.
        -- intros q [<- | Hq]; [left; reflexivity | right; apply IH3; exact Hq].
      * cbn [fst snd]. repeat split.
        -- discriminate.
        -- intros H. destruct (H t (or_introl eq_refl)) as (n' & En & Hn').
           rewrite Ei in En. injection En as <-. lia.
        -- discriminate.
        -- intros q [<- | []]. left. reflexivity.
    + cbn [fst snd]. repeat split.
      * discriminate.
      * intros H. destruct (H t (or_introl eq_refl)) as (n' & En & _).
        rewrite Ei in En. discriminate.
      * discriminate.
      * intros q [<- | []]. left. reflexivity.
    + cbn [fst snd]. repeat split.
      * discriminate.
      * intros H. destruct (H t (or_introl eq_refl)) as (n' & En & _).
        rewrite Ei in En. discriminate.
      * discriminate.
      * intros q [<- | []]. left. reflexivity.
Qed.

Lemma syntax_checks (ts : list string) :
  (forallb (fun ticker => Nat.leb 1 (String.length ticker)) (map strip ts)
   && forallb pattern_match (map strip ts) = true)
  <-> forall t, In t ts -> well_formed_ticker t.
Proof.
  split.
  - intros H t Ht. apply andb_true_iff in H as [_ H].
    apply pattern_match_strip.
    apply (proj1 (forallb_forall _ _) H). apply in_map. exact Ht.
  - intros H. apply andb_true_iff. split; apply forallb_forall;
      intros s Hs; apply in_map_iff in Hs as (t & <- & Ht).
    + destruct (H t Ht) as [Hne _].
      destruct (strip t); [contradiction Hne; reflexivity | reflexivity].
    + apply pattern_match_strip. exact (H t Ht).
Qed.

(** check_validity_tickers accepts a list exactly when it is not empty,
    every ticker, stripped of surrounding whitespace, is a non-empty word of
    letters, digits, '-', '.' and '^', and the service returns a non-empty
    record for each stripped ticker; a lookup that raises or returns nothing
    makes the answer False. *)
Theorem tickers_valid_iff (tickers : list string) :
  Forall ascii_text tickers ->
  (snd (check_validity_tickers ticker_info tickers) = true
   <-> tickers <> [] /\
       (forall t, In t tickers -> well_formed_ticker t) /\
       (forall t, In t tickers -> known_ticker ticker_info t)).
Proof.
  intros _. unfold check_validity_tickers.
  destruct tickers as [|t0 ts] eqn:Et.
  - simpl. split; [discriminate | intros [H _]; contradiction H; reflexivity].
  - rewrite <- Et. replace (Nat.eqb (length tickers) 0) with false
      by (rewrite Et; reflexivity).
    destruct (forallb (fun ticker => Nat.leb 1 (String.length ticker))
                      (map strip tickers)) eqn:E1;
      destruct (forallb pattern_match (map strip tickers)) eqn:E2;
      cbn [negb].
    2-4: split; [discriminate |]; intros (_ & Hw & _);
         apply syntax_checks in Hw; rewrite E1, E2 in Hw; discriminate.
    assert (Hw : forall t, In t tickers -> well_formed_ticker t)
      by (apply syntax_checks; rewrite E1, E2; reflexivity).
    destruct (check_each_words tickers Hw) as (H1 & _ & _).
    split.
    + intros H. split; [rewrite Et; discriminate |]. split; [exact Hw |].
      apply H1. exact H.
    + intros (_ & _ & Hk). apply H1. exact Hk.
Qed.

(** The service is consulted only after every ticker has passed the
    syntactic checks, and only with stripped tickers of the list: a list
    with a malformed ticker causes no lookup at all, and an accepted list
    causes exactly one lookup per ticker, in order. *)
Theorem tickers_lookups (tickers : list string) :
  Forall ascii_text tickers ->
  ((exists t, In t tickers /\ ~ well_formed_ticker t) ->
   check_validity_tickers ticker_info tickers = ([], false)) /\
  (snd (check_validity_tickers ticker_info tickers) = true ->
   fst (check_validity_tickers ticker_info tickers) = map strip tickers) /\
  (forall q, In q (fst (check_validity_tickers ticker_info tickers)) ->
             In q (map strip tickers)).
Proof.
  intros _. unfold check_validity_tickers.
  destruct (Nat.eqb (length tickers) 0) eqn:E0.
  { repeat split; [discriminate | intros q []]. }
  destruct (forallb (fun ticker => Nat.leb 1 (String.length ticker))
                    (map strip tickers)) eqn:E1;
    destruct (forallb pattern_match (map strip tickers)) eqn:E2;
    cbn [negb].
  2-4: repeat split; [discriminate | intros q []].
  assert (Hw : forall t, In t tickers -> well_formed_ticker t)
    by (apply syntax_checks; rewrite E1, E2; reflexivity).
  destruct (check_each_words tickers Hw) as (_ & H2 & H3).
  split; [| split; [exact H2 | exact H3]].
  intros (t & Ht & Hbad). exfalso. apply Hbad. exact (Hw t Ht).
Qed.

End API.

Lemma tickers_valid_iff_witness :
  snd (check_validity_tickers two_ticker_service [" AAPL"; "^GSPC "]%string)
  = true.
Proof.
  apply (tickers_valid_iff two_ticker_service).
  - repeat (constructor; [apply ascii_text_check; reflexivity |]); constructor.
  - split; [discriminate |]. split.
    + intros t [<- | [<- | []]]; split; try discriminate; reflexivity.
    + intros t [<- | [<- | []]]; eexists; (split; [reflexivity | lia]).
Defined.

Lemma tickers_lookups_witness :
  check_validity_tickers two_ticker_service ["AAPL"; "GO OG"]%string
  = ([], false).
Proof.
  apply (proj1 (tickers_lookups two_ticker_service ["AAPL"; "GO OG"]%string
                  ltac:(repeat (constructor; [apply ascii_text_check; reflexivity |]); constructor))).
  exists "GO OG"%string. split; [simpl; auto |].
  intros [_ H]. discriminate H.
Defined.

End TickerProofs.

(** ** get_start_date and fetch_benchmark_returns *)

Module FetcherProofs.
Import DataFetcher.

Lemma existsb_eqb_In (t : string) (l : list string) :
  existsb (String.eqb t) l = true <-> In t l.
Proof.
  rewrite existsb_exists. split.
  - intros (x & Hx & E). apply String.eqb_eq in E. subst x. exact Hx.
  - intros H. exists t. split; [exact H | apply String.eqb_refl].
Qed.

Section Dates.

Variable Timestamp : Type.
Variable to_datetime : string -> result Timestamp.
Variable minus_years minus_months minus_days : Timestamp -> N -> result Timestamp.
Variable strftime : Timestamp -> result string.

(** get_start_date reads the period by filtering: the number is made of
    the digits of the string and the unit of its letters, wherever they
    stand and whatever else stands between them.  Two periods with the same
    digits and the same letters (at least one of each) give the same
    outcome; a start date is returned only if the end date parses, the
    period has a digit and its letters spell y, mo or d; and an end date
    that does not parse is reported as a ValueError that keeps the parser's
    exception as context, whatever the period. *)
Theorem start_date_period_parse (in_end p p' : string) :
  ascii_text p -> ascii_text p' ->
  (length (digits_of p) <= 4300)%nat ->
  (digits_of p = digits_of p' -> letters_of p = letters_of p' ->
   digits_of p <> [] -> letters_of p <> [] ->
   get_start_date Timestamp to_datetime minus_years minus_months minus_days
                  strftime in_end p
   = get_start_date Timestamp to_datetime minus_years minus_months minus_days
                    strftime in_end p') /\
  (forall s,
     get_start_date Timestamp to_datetime minus_years minus_months minus_days
                    strftime in_end p = Ok s ->
     (exists t, to_datetime in_end = Ok t) /\ digits_of p <> [] /\
     In (string_of_list_ascii (letters_of p)) ["y"; "mo"; "d"]%string) /\
  (forall e, to_datetime in_end = Raise e ->
     get_start_date Timestamp to_datetime minus_years minus_months minus_days
                    strftime in_end p
     = Raise (Exn ValueError ("Invalid end date format: " ++ in_end) (Some e))).
Proof.
  intros _ _ _. unfold get_start_date. split; [| split].
  - intros Ed El Hd Hl.
    destruct (to_datetime in_end) as [t | e]; [| reflexivity].
    rewrite <- Ed, <- El.
    destruct (digits_of p) as [|c l] eqn:E1; [contradiction Hd; reflexivity |].
    destruct (letters_of p) as [|c' l'] eqn:E2; [contradiction Hl; reflexivity |].
    reflexivity.
  - intros s H.
    destruct (to_datetime in_end) as [t | e]; [| discriminate H].
    split; [exists t; reflexivity |].
    destruct (digits_of p) as [|c l] eqn:E1; [discriminate H |].
    split; [discriminate |].
    cbn [length Nat.eqb orb] in H.
    destruct (String.eqb_spec (string_of_list_ascii (letters_of p)) "");
      [discriminate H |].
    destruct (String.eqb_spec (string_of_list_ascii (letters_of p)) "y")
      as [-> |]; [left; reflexivity |].
    destruct (String.eqb_spec (string_of_list_ascii (letters_of p)) "mo")
      as [-> |]; [right; left; reflexivity |].
    destruct (String.eqb_spec (string_of_list_ascii (letters_of p)) "d")
      as [-> |]; [right; right; left; reflexivity | discriminate H].
  - intros e He. rewrite He. reflexivity.
Qed.

End Dates.

Lemma start_date_period_parse_witness :
  get_start_date Z day_calendar_parse (day_calendar_minus 365)
                 (day_calendar_minus 30) (day_calendar_minus 1)
                 day_calendar_format "2025-01-01" "9d0"
  = get_start_date Z day_calendar_parse (day_calendar_minus 365)
                   (day_calendar_minus 30) (day_calendar_minus 1)
                   day_calendar_format "2025-01-01" " 90 d".
Proof.
  apply (proj1 (start_date_period_parse Z day_calendar_parse
                  (day_calendar_minus 365) (day_calendar_minus 30)
                  (day_calendar_minus 1) day_calendar_format
                  "2025-01-01" "9d0" " 90 d"
                  ltac:(apply TickerProofs.ascii_text_check; reflexivity)
                  ltac:(apply TickerProofs.ascii_text_check; reflexivity)
                  ltac:(vm_compute; lia)));
    first [ reflexivity | discriminate ].
Defined.

Section Fetch.

Variable fetch_returns :
  list string -> string -> string -> bool -> string -> result DataFrame.

(** fetch_benchmark_returns hands to fetch_returns nothing but the stripped
    ticker, alone in its list, and only if it is one of the configured
    benchmarks; any other ticker is refused with a ValueError before any
    download.  A returned frame is the downloaded one-column frame with its
    column renamed MKT, and a failed download is reported as a RuntimeError
    that keeps the original exception as context. *)
Theorem benchmark_fetch_guarded (ticker in_period in_interval : string)
    (in_auto_adjust : bool) (in_end : string) :
  ascii_text ticker ->
  let run := fetch_benchmark_returns fetch_returns ticker in_period
               in_interval in_auto_adjust in_end in
  let download := fetch_returns [strip ticker] in_period in_interval
                    in_auto_adjust in_end in
  (In (strip ticker) valid_mkt_benchmarks -> fst run = [[strip ticker]]) /\
  (~ In (strip ticker) valid_mkt_benchmarks ->
   fst run = [] /\ exists msg, snd run = Raise (Exn ValueError msg None)) /\
  (forall out, snd run = Ok out ->
     exists df, download = Ok df /\ shape1 df = 1%nat /\
                df_columns out = [Str "MKT"] /\
                df_index out = df_index df /\ df_values out = df_values df) /\
  (forall e, In (strip ticker) valid_mkt_benchmarks -> download = Raise e ->
     snd run = Raise (Exn RuntimeError
                        ("Failed to fetch benchmark returns for '"
                         ++ strip ticker ++ "': " ++ exn_msg e) (Some e))).
Proof.
  intros _ run download. subst run download. unfold fetch_benchmark_returns.
  destruct (Nat.eqb (String.length (strip ticker)) 0) eqn:E0.
  { assert (Hs : strip ticker = ""%string)
      by (destruct (strip ticker); [reflexivity | discriminate E0]).
    rewrite Hs. cbn [fst snd]. repeat split.
    - intros [H | [H | [H | []]]]; discriminate H.
    - eexists. reflexivity.
    - discriminate.
    - intros e [H | [H | [H | []]]]; discriminate H. }
  destruct (existsb (String.eqb (strip ticker)) valid_mkt_benchmarks) eqn:E1;
    cbn [negb fst snd].
  - apply existsb_eqb_In in E1. split; [reflexivity |].
    split; [intros H; contradiction |]. split.
    + intros out H.
      destruct (fetch_returns [strip ticker] in_period in_interval
                              in_auto_adjust in_end) as [df | e];
        [| discriminate H].
      destruct (Nat.eqb_spec (shape1 df) 1) as [H1 | H1];
        cbn [negb] in H; [| discriminate H].
      injection H as <-. exists df. repeat split. exact H1.
    + intros e _ He. rewrite He. reflexivity.
  - assert (Hn : ~ In (strip ticker) valid_mkt_benchmarks).
    { intros H. apply existsb_eqb_In in H. rewrite H in E1. discriminate. }
    split; [intros H; contradiction |].
    split; [intros _; split; [reflexivity | eexists; reflexivity] |].
    split; [discriminate | intros e H; contradiction].
Qed.

End Fetch.

Lemma benchmark_fetch_guarded_witness :
  fst (fetch_benchmark_returns one_column_fetch " ^GSPC " "2y" "1mo" false
         "2025-01-01") = [["^GSPC"%string]].
Proof.
  apply (proj1 (benchmark_fetch_guarded one_column_fetch " ^GSPC " "2y" "1mo"
                  false "2025-01-01"
                  ltac:(apply TickerProofs.ascii_text_check; reflexivity))).
  right. left. reflexivity.
Defined.

End FetcherProofs.
